(** * poidh-miniapp: bounty projection, action gating and IPFS resolution

    A shallow embedding of the logic of the mini-app:
    - [src/lib/ipfs.ts]                     ([Module Ipfs])
    - the [/api/ipfs/[cid]] route handler    ([Module IpfsRoute])
    - [src/hooks/useBounties.ts], [useClaims.ts] ([Module Hooks])
    - the create-bounty page                ([Module CreatePage])
    - the bounty page                       ([Module BountyPage])
    - the claim page                        ([Module ClaimPage])

    JavaScript strings are sequences of UTF-16 code units ([list N]); bigints
    and integral numbers are [Z]; [Map]s are [gmap]s.  Network calls, wallet
    calls and contract writes are recorded in an event trace, exceptions are
    explicit completions, and React state set by a handler is threaded
    through a small state monad. *)

From stdpp Require Import base numbers list option gmap strings.
From stdpp Require Import pretty sorting.

Set Default Proof Using "Type".
Open Scope Z_scope.

(** ** JavaScript values and strings *)

Abbreviation jsstring := (list N).

(** A string literal of the source, as code units (ASCII literals only). *)
Fixpoint u16 (s : string) : jsstring :=
  match s with
  | EmptyString => []
  | String a r => Ascii.N_of_ascii a :: u16 r
  end.

(** A thrown value: an [Error] with its message, or anything else. *)
Inductive thrown : Type :=
  | ErrorObj (message : jsstring)
  | OtherValue.

(** The outcome of evaluating a piece of code that may throw. *)
Inductive completion (A : Type) : Type :=
  | Normal (a : A)
  | Throw (e : thrown).
Arguments Normal {A} a.
Arguments Throw {A} e.

(** Parsed JSON documents. *)
#[warnings="-register-all"]
Inductive json : Type :=
  | JNull
  | JBool (b : bool)
  | JNum (n : Z)
  | JStr (s : jsstring)
  | JArr (items : list json)
  | JObj (fields : list (jsstring * json)).

Module JS.

(** [!!s] for a string: only the empty string is falsy. *)
Definition truthy_str (s : jsstring) : bool :=
  match s with [] => false | _ :: _ => true end.

(** [!!v] for a fetched document ([null] is falsy; the documents used
    here are objects, which are truthy). *)
Definition is_null (j : json) : bool :=
  match j with JNull => true | _ => false end.

Definition in_range (lo hi c : N) : bool := ((lo <=? c) && (c <=? hi))%N.

Definition is_digit (c : N) : bool := in_range 48 57 c.
Definition is_upper (c : N) : bool := in_range 65 90 c.
Definition is_lower (c : N) : bool := in_range 97 122 c.

(** The character class [[a-zA-Z0-9]]. *)
Definition is_alnum (c : N) : bool := is_lower c || is_upper c || is_digit c.

(** ECMAScript WhiteSpace and LineTerminator code points: what
    [String.prototype.trim] strips and [parseFloat] skips. *)
Definition is_ws (c : N) : bool :=
  in_range 9 13 c || (c =? 32)%N || (c =? 160)%N || (c =? 5760)%N
  || in_range 8192 8202 c || (c =? 8232)%N || (c =? 8233)%N
  || (c =? 8239)%N || (c =? 8287)%N || (c =? 12288)%N || (c =? 65279)%N.

Fixpoint take_while (p : N → bool) (s : jsstring) : jsstring :=
  match s with
  | c :: r => if p c then c :: take_while p r else []
  | [] => []
  end.

Fixpoint drop_while (p : N → bool) (s : jsstring) : jsstring :=
  match s with
  | c :: r => if p c then drop_while p r else s
  | [] => []
  end.

Definition trimStart (s : jsstring) : jsstring := drop_while is_ws s.
Definition trimEnd (s : jsstring) : jsstring := reverse (drop_while is_ws (reverse s)).

(** [s.trim()] *)
Definition trim (s : jsstring) : jsstring := trimEnd (trimStart s).

(** [s.startsWith(p)] *)
Fixpoint startsWith (s p : jsstring) {struct p} : bool :=
  match p, s with
  | [], _ => true
  | x :: p', y :: s' => (x =? y)%N && startsWith s' p'
  | _ :: _, [] => false
  end.

(** [s.replace(pat, rep)] with a string pattern: the first occurrence. *)
Fixpoint replace (s pat rep : jsstring) : jsstring :=
  if startsWith s pat then rep ++ drop (length pat) s
  else match s with
       | [] => []
       | c :: r => c :: replace r pat rep
       end.

(** [s.toLowerCase()] on the ASCII letters (addresses are ASCII hex). *)
Definition toLowerCase (s : jsstring) : jsstring :=
  map (λ c, if is_upper c then (c + 32)%N else c) s.

(** *** [encodeURIComponent] *)

Definition is_unreserved (c : N) : bool :=
  is_alnum c || bool_decide (c ∈ u16 "-_.!~*'()").

Definition hex_digit (d : N) : N :=
  if (d <? 10)%N then (48 + d)%N else (55 + d)%N.

Definition percent (byte : N) : jsstring :=
  [37%N; hex_digit (byte / 16); hex_digit (byte mod 16)].

Definition utf8 (cp : N) : list N :=
  if (cp <? 128)%N then [cp]
  else if (cp <? 2048)%N then [192 + cp / 64; 128 + cp mod 64]%N
  else if (cp <? 65536)%N then
    [224 + cp / 4096; 128 + (cp / 64) mod 64; 128 + cp mod 64]%N
  else
    [240 + cp / 262144; 128 + (cp / 4096) mod 64;
     128 + (cp / 64) mod 64; 128 + cp mod 64]%N.

Definition is_lead_surrogate (c : N) : bool := in_range 55296 56319 c.
Definition is_trail_surrogate (c : N) : bool := in_range 56320 57343 c.

Definition URIError : thrown := ErrorObj (u16 "URI malformed").

Definition cons_all {A} (p : list A) (r : completion (list A)) : completion (list A) :=
  match r with
  | Normal s => Normal (p ++ s)
  | Throw e => Throw e
  end.

(** Unreserved code units are kept; every other code point is written as
    the percent-escaped bytes of its UTF-8 form; a lone surrogate throws
    a URIError. *)
Fixpoint encodeURIComponent (s : jsstring) : completion jsstring :=
  match s with
  | [] => Normal []
  | c :: r =>
      if is_unreserved c then cons_all [c] (encodeURIComponent r)
      else if is_trail_surrogate c then Throw URIError
      else if is_lead_surrogate c then
        match r with
        | c2 :: r' =>
            if is_trail_surrogate c2 then
              cons_all
                (flat_map percent
                   (utf8 ((c - 55296) * 1024 + (c2 - 56320) + 65536)%N))
                (encodeURIComponent r')
            else Throw URIError
        | [] => Throw URIError
        end
      else cons_all (flat_map percent (utf8 c)) (encodeURIComponent r)
  end.

(** *** The regular expression [/\/ipfs\/([a-zA-Z0-9]+)/]

    [match_ipfs s] is capture group 1 of the leftmost match, the longest
    alphanumeric run after the first ["/ipfs/"] that is followed by an
    alphanumeric character; [None] when [s.match(...)] is [null]. *)
Fixpoint match_ipfs (s : jsstring) : option jsstring :=
  match s with
  | [] => None
  | _ :: r =>
      if startsWith s (u16 "/ipfs/") then
        match take_while is_alnum (drop 6 s) with
        | [] => match_ipfs r
        | run => Some run
        end
      else match_ipfs r
  end.

(** *** [parseFloat]

    The value of the longest prefix (after leading white space) that is a
    StrDecimalLiteral, kept exact: sign, decimal mantissa and decimal
    exponent. *)
Inductive number : Type :=
  | NaN
  | Infinity (neg : bool)
  | Decimal (neg : bool) (mantissa : N) (exp10 : Z).

Definition digits_value (ds : jsstring) : N :=
  foldl (λ acc d, (10 * acc + (d - 48))%N) 0%N ds.

(** ExponentPart: [e] or [E], an optional sign and at least one digit;
    otherwise no exponent is consumed. *)
Definition exponent_part (s : jsstring) : Z :=
  match s with
  | e :: r =>
      if (e =? 101)%N || (e =? 69)%N then
        match r with
        | sg :: r' =>
            if (sg =? 45)%N then
              match take_while is_digit r' with
              | [] => 0
              | ds => - Z.of_N (digits_value ds)
              end
            else if (sg =? 43)%N then Z.of_N (digits_value (take_while is_digit r'))
            else Z.of_N (digits_value (take_while is_digit r))
        | [] => 0
        end
      else 0
  | [] => 0
  end.

Definition unsigned_literal (neg : bool) (s : jsstring) : number :=
  if startsWith s (u16 "Infinity") then Infinity neg
  else
    let int_part := take_while is_digit s in
    let rest := drop_while is_digit s in
    match rest with
    | dot :: after =>
        if (dot =? 46)%N then
          let frac := take_while is_digit after in
          match int_part ++ frac with
          | [] => NaN
          | ds => Decimal neg (digits_value ds)
                    (exponent_part (drop_while is_digit after)
                     - Z.of_nat (length frac))
          end
        else
          match int_part with
          | [] => NaN
          | ds => Decimal neg (digits_value ds) (exponent_part rest)
          end
    | [] =>
        match int_part with
        | [] => NaN
        | ds => Decimal neg (digits_value ds) 0
        end
    end.

Definition parseFloat (s : jsstring) : number :=
  match trimStart s with
  | sg :: r =>
      if (sg =? 45)%N then unsigned_literal true r
      else if (sg =? 43)%N then unsigned_literal false r
      else unsigned_literal false (sg :: r)
  | [] => NaN
  end.

(** [x <= 0] on the double nearest to the parsed value.  A negative
    literal gives a negative double or [-0]; a positive one rounds to
    [+0] exactly when it is at most [2^-1075], half the smallest
    subnormal. *)
Definition rounds_to_zero (m : N) (e : Z) : bool :=
  (e <? 0) && (Z.of_N m * 2 ^ 1075 <=? 10 ^ (- e)).

Definition le_zero (x : number) : bool :=
  match x with
  | NaN => false
  | Infinity neg => neg
  | Decimal neg m e => neg || (m =? 0)%N || rounds_to_zero m e
  end.

End JS.


(** ** Effects

    A computation reads the outside world through an oracle, may change a
    state [S] (React state of a page, or the route's module-level cache),
    records the calls it makes, and completes normally or throws. *)

Inductive http_method : Type := HttpGet | HttpPost.

Record request : Type := mkRequest {
  req_method : http_method;
  req_url : jsstring;
  req_headers : list (jsstring * jsstring);
  req_body : option json;
  req_timeout : option Z (* AbortSignal.timeout, milliseconds *)
}.

Record response : Type := mkResponse {
  ok : bool;
  json_body : completion json;  (* response.json() *)
  text_body : jsstring          (* response.text() *)
}.

(** Values of the contract ABI, as the chain client decodes them. *)
Inductive abi_value : Type :=
  | AAddress (a : jsstring)
  | AString (s : jsstring)
  | AUint (n : Z)
  | ABool (b : bool)
  | AClaim (claimant name proofURI : jsstring)
  | AVote (claimId yes no deadline votingRound : Z).

(** The argument of wagmi's [writeContract]. *)
Record contract_write : Type := mkWrite {
  w_account : option jsstring;
  w_address : jsstring;
  w_functionName : jsstring;
  w_args : list abi_value;
  w_value : option Z
}.

Inductive event : Type :=
  | Fetch (r : request)
  | ConnectWallet
  | WriteContract (w : contract_write).

Record world : Type := mkWorld {
  fetch_result : request → completion response;
  connect_result : completion (list jsstring)  (* accounts of connectAsync *)
}.

Definition Eff (S A : Type) : Type := world → S → S * list event * completion A.

Module Eff.
Section ops.
Context {S : Type}.

Definition ret {A} (a : A) : Eff S A := λ _ s, (s, [], Normal a).

Definition bind {A B} (f : A → Eff S B) (m : Eff S A) : Eff S B :=
  λ w s,
    match m w s with
    | (s1, t1, Normal a) =>
        let '(s2, t2, r) := f a w s1 in (s2, t1 ++ t2, r)
    | (s1, t1, Throw e) => (s1, t1, Throw e)
    end.

(** [throw new Error(message)] *)
Definition throw {A} (message : jsstring) : Eff S A :=
  λ _ s, (s, [], Throw (ErrorObj message)).

(** A pure evaluation that may throw. *)
Definition lift {A} (c : completion A) : Eff S A := λ _ s, (s, [], c).

(** [try { m } catch (e) { h e }] *)
Definition try_catch {A} (m : Eff S A) (h : thrown → Eff S A) : Eff S A :=
  λ w s,
    match m w s with
    | (s1, t1, Normal a) => (s1, t1, Normal a)
    | (s1, t1, Throw e) =>
        let '(s2, t2, r) := h e w s1 in (s2, t1 ++ t2, r)
    end.

(** [await fetch(...)] *)
Definition fetch (r : request) : Eff S response :=
  λ w s, (s, [Fetch r], fetch_result w r).

(** [await connectAsync(...)] *)
Definition connectAsync : Eff S (list jsstring) :=
  λ w s, (s, [ConnectWallet], connect_result w).

(** [writeContract(...)]: wagmi's mutate, which reports failures through
    the hook's [error] and does not throw. *)
Definition writeContract (c : contract_write) : Eff S () :=
  λ _ s, (s, [WriteContract c], Normal ()).

Definition get : Eff S S := λ _ s, (s, [], Normal s).
Definition modify (f : S → S) : Eff S () := λ _ s, (f s, [], Normal ()).
End ops.
End Eff.

#[export] Instance eff_ret {S} : MRet (Eff S) := λ A, @Eff.ret S A.
#[export] Instance eff_bind {S} : MBind (Eff S) := λ A B, @Eff.bind S A B.

(** The parts of a run. *)
Definition final_state {S A} (r : S * list event * completion A) : S := r.1.1.
Definition trace {S A} (r : S * list event * completion A) : list event := r.1.2.
Definition outcome {S A} (r : S * list event * completion A) : completion A := r.2.

(** ** [src/lib/ipfs.ts] *)

Module Ipfs.
Import JS.

Definition PINATA_GATEWAY : jsstring := u16 "https://gateway.pinata.cloud/ipfs".

Definition get_request (url : jsstring) : request :=
  {| req_method := HttpGet; req_url := url; req_headers := [];
     req_body := None; req_timeout := None |}.

Definition upload_request (metadata : json) : request :=
  {| req_method := HttpPost; req_url := u16 "/api/ipfs/upload";
     req_headers := [(u16 "Content-Type", u16 "application/json")];
     req_body := Some metadata; req_timeout := None |}.

Definition TypeError : thrown := ErrorObj (u16 "TypeError").

(** [const { cid } = await response.json()]: destructuring [null] throws;
    a missing property is [undefined]. *)
Definition destructure_cid (j : json) : completion (option json) :=
  match j with
  | JNull => Throw TypeError
  | JObj fields => Normal (snd <$> find (λ kv, bool_decide (kv.1 = u16 "cid")) fields)
  | _ => Normal None
  end.

Definition uploadToIPFS {St : Type} (metadata : json) : Eff St (option json) :=
  response ← Eff.fetch (upload_request metadata);
  if negb (ok response) then
    Eff.throw (u16 "Failed to upload to IPFS: " ++ text_body response)
  else
    j ← Eff.lift (json_body response);
    Eff.lift (destructure_cid j).

Definition fetchFromIPFS {St : Type} (uri : jsstring) : Eff St json :=
  if negb (truthy_str uri) then mret JNull
  else
    (* Use our API route to fetch from IPFS *)
    let via_route (cid : jsstring) : Eff St json :=
      Eff.try_catch
        (path ← Eff.lift (encodeURIComponent cid);
         response ← Eff.fetch (get_request (u16 "/api/ipfs/" ++ path));
         if negb (ok response) then mret JNull
         else Eff.lift (json_body response))
        (λ _, mret JNull) in
    if startsWith uri (u16 "ipfs://") then
      via_route (replace uri (u16 "ipfs://") [])
    else if startsWith uri (u16 "https://") then
      match match_ipfs uri with
      | Some m1 => via_route m1
      | None =>
          (* Direct URL fetch *)
          Eff.try_catch
            (response ← Eff.fetch (get_request uri);
             if negb (ok response) then mret JNull
             else Eff.lift (json_body response))
            (λ _, mret JNull)
      end
    else via_route uri.

Definition getIPFSUrl (cid : jsstring) : jsstring :=
  if negb (truthy_str cid) then []
  else
    let cid := if startsWith cid (u16 "ipfs://")
               then replace cid (u16 "ipfs://") [] else cid in
    PINATA_GATEWAY ++ u16 "/" ++ cid.

Definition toIPFSUri (cid : jsstring) : jsstring :=
  if startsWith cid (u16 "ipfs://") then cid else u16 "ipfs://" ++ cid.

End Ipfs.

(** ** The route handler [GET /api/ipfs/[cid]] *)

Module IpfsRoute.
Import JS.

Definition IPFS_GATEWAYS : list jsstring :=
  [ u16 "https://gateway.pinata.cloud/ipfs";
    u16 "https://ipfs.io/ipfs";
    u16 "https://cloudflare-ipfs.com/ipfs" ].

Record cache_entry : Type := mkEntry { data : json; timestamp : Z }.

Definition CACHE_TTL : Z := 5 * 60 * 1000.

(** What [NextResponse.json(body, { status })] carries. *)
Record next_response : Type := mkNext { body : json; status : Z }.

Definition json_response (b : json) : next_response := {| body := b; status := 200 |}.
Definition error_response (msg : string) (st : Z) : next_response :=
  {| body := JObj [(u16 "error", JStr (u16 msg))]; status := st |}.

Definition gateway_request (gateway cid : jsstring) : request :=
  {| req_method := HttpGet;
     req_url := gateway ++ u16 "/" ++ cid;
     req_headers := [(u16 "Accept", u16 "application/json")];
     req_body := None;
     req_timeout := Some 10000 |}.

(** The [for (const gateway of IPFS_GATEWAYS)] loop; [Some r] is a
    [return r] from inside the loop, [None] is falling out of it.
    [now_store] is the reading of [Date.now()] at [cache.set]. *)
Fixpoint try_gateways (now_store : Z) (cid : jsstring) (gateways : list jsstring)
  : Eff (gmap jsstring cache_entry) (option next_response) :=
  match gateways with
  | [] => mret None
  | gateway :: rest =>
      returned ←
        Eff.try_catch
          (response ← Eff.fetch (gateway_request gateway cid);
           if ok response then
             data ← Eff.lift (json_body response);
             (* Cache the result *)
             _ ← Eff.modify (λ cache, <[cid := mkEntry data now_store]> cache);
             mret (Some (json_response data))
           else mret None)
          (λ error, mret None (* lastError = error; continue *));
      match returned with
      | Some r => mret (Some r)
      | None => try_gateways now_store cid rest
      end
  end.

(** [params] is the awaited route parameter; [now_check] is the reading
    of [Date.now()] at the cache check. *)
Definition GET (now_check now_store : Z) (params : completion jsstring)
  : Eff (gmap jsstring cache_entry) next_response :=
  Eff.try_catch
    (cid ← Eff.lift params;
     if negb (truthy_str cid) then mret (error_response "CID is required" 400)
     else
       cache ← Eff.get;
       (* Check cache *)
       let hit :=
         match cache !! cid with
         | Some cached =>
             if now_check - timestamp cached <? CACHE_TTL then Some cached else None
         | None => None
         end in
       match hit with
       | Some cached => mret (json_response (data cached))
       | None =>
           (* Try each gateway until one succeeds *)
           returned ← try_gateways now_store cid IPFS_GATEWAYS;
           match returned with
           | Some r => mret r
           | None => mret (error_response "Failed to fetch from IPFS" 502)
           end
       end)
    (λ error, mret (error_response "Internal server error" 500)).

End IpfsRoute.

(** ** [src/lib/contracts.ts] *)

Module BountyState.
Definition OPEN : Z := 0.
Definition VOTING : Z := 1.
Definition CLOSED : Z := 2.
Definition CANCELLED : Z := 3.
End BountyState.

(** ** [src/lib/mockData.ts] *)

Module MockData.
(** The demo flag as shipped.  The hooks below take the flag as an
    argument, so that both data sources can be reasoned about. *)
Definition DEMO_MODE : bool := true.

Definition MOCK_USER_VOTES : gmap jsstring bool :=
  list_to_map
    [ (u16 "0x0002000000000000000000000000000000000000-0x3456789012abcdef3456789012abcdef34567890", true);
      (u16 "0x0002000000000000000000000000000000000000-0x4567890123abcdef4567890123abcdef45678901", false);
      (u16 "0x000a000000000000000000000000000000000000-0x7890123456abcdef7890123456abcdef78901234", false) ].
End MockData.

(** ** [src/hooks/useBounties.ts] and [src/hooks/useClaims.ts] *)

Module Hooks.
Import JS.

Record vote_state : Type := mkVote {
  claimId : Z; yes : Z; no : Z; deadline : Z; votingRound : Z
}.

(** [metadata] is [None] for [undefined] and [Some JNull] for [null]. *)
Record BountyData : Type := mkBounty {
  address : jsstring;
  issuer : jsstring;
  metadataURI : jsstring;
  state : Z;
  joinable : bool;
  totalStaked : Z;
  claimsCount : Z;
  metadata : option json;
  currentVote : option vote_state
}.

Record ClaimData : Type := mkClaim {
  id : Z;
  claimant : jsstring;
  name : jsstring;
  proofURI : jsstring;
  proof : option json
}.

(** One entry of the array returned by [useReadContracts]: [result] is
    [undefined] when the read failed. *)
Record read_result : Type := mkRead { result : option abi_value }.

(** The casts [x as T | undefined].  The chain client decodes every result
    by the ABI output of the function read, so only the constructor of
    that output occurs. *)
Definition as_address (v : abi_value) : option jsstring :=
  match v with AAddress a => Some a | _ => None end.
Definition as_string (v : abi_value) : option jsstring :=
  match v with AString a => Some a | _ => None end.
Definition as_uint (v : abi_value) : option Z :=
  match v with AUint n => Some n | _ => None end.
Definition as_bool (v : abi_value) : option bool :=
  match v with ABool b => Some b | _ => None end.
Definition as_claim (v : abi_value) : option (jsstring * jsstring * jsstring) :=
  match v with AClaim c n p => Some (c, n, p) | _ => None end.
Definition as_vote (v : abi_value) : option vote_state :=
  match v with AVote c y n d r => Some (mkVote c y n d r) | _ => None end.

(** [data[i]?.result] *)
Definition result_at (data : list read_result) (i : nat) : option abi_value :=
  data !! i ≫= result.

(** *** [useBountiesData]: the parsing loop
    [for (let i = 0; i < addresses.length; i++)], at index [i] with the
    addresses from [i] on still to visit. *)
Fixpoint parse_bounties (data : list read_result) (addresses : list jsstring)
    (i : nat) (bounties : list BountyData) : list BountyData :=
  match addresses with
  | [] => bounties
  | addr :: rest =>
      let baseIndex := (i * 6)%nat in
      let issuer := result_at data baseIndex ≫= as_address in
      let metadataURI := result_at data (baseIndex + 1) ≫= as_string in
      let state := result_at data (baseIndex + 2) ≫= as_uint in
      let joinable := result_at data (baseIndex + 3) ≫= as_bool in
      let totalStaked := result_at data (baseIndex + 4) ≫= as_uint in
      let claimsCount := result_at data (baseIndex + 5) ≫= as_uint in
      let bounties :=
        match issuer with
        | Some issuer =>
            bounties ++
            [ {| address := addr;
                 issuer := issuer;
                 metadataURI := default [] metadataURI;
                 state := default 0 state;
                 joinable := default false joinable;
                 totalStaked := default 0 totalStaked;
                 claimsCount := default 0 claimsCount;
                 metadata := None;
                 currentVote := None |} ]
        | None => bounties
        end in
      parse_bounties data rest (S i) bounties
  end.

Definition useBountiesData (data : option (list read_result))
    (addresses : list jsstring) : list BountyData :=
  match data with
  | Some data => parse_bounties data addresses 0 []
  | None => []
  end.

(** *** [useBounty], live branch: one read per field; [metadata] is the
    data of the metadata query. *)
Definition truthy_addr (a : option jsstring) : bool :=
  match a with Some a => truthy_str a | None => false end.

Definition useBounty_live (address : option jsstring)
    (issuer metadataURI : option jsstring) (state : option Z)
    (joinable : option bool) (totalStaked claimsCount : option Z)
    (currentVote : option vote_state) (metadata : option json)
  : option BountyData :=
  match address, issuer with
  | Some address, Some issuer =>
      if truthy_str address then
        Some {| address := address;
                issuer := issuer;
                metadataURI := default [] metadataURI;
                state := default 0 state;
                joinable := default false joinable;
                totalStaked := default 0 totalStaked;
                claimsCount := default 0 claimsCount;
                metadata := metadata;
                currentVote := currentVote |}
      else None
  | _, _ => None
  end.

(** [useBounty]: in demo mode the fixture with that address, if any. *)
Definition useBounty (demo : bool) (MOCK_BOUNTIES : list BountyData)
    (address : option jsstring)
    (issuer metadataURI : option jsstring) (state : option Z)
    (joinable : option bool) (totalStaked claimsCount : option Z)
    (currentVote : option vote_state) (metadata : option json)
    (now : Z)
  : option BountyData :=
  if demo && truthy_addr address then
    match find (λ b, bool_decide (toLowerCase (Hooks.address b)
                                  = toLowerCase (default [] address)))
               MOCK_BOUNTIES with
    | Some mockBounty =>
        Some {| address := Hooks.address mockBounty;
                issuer := Hooks.issuer mockBounty;
                metadataURI := Hooks.metadataURI mockBounty;
                state := Hooks.state mockBounty;
                joinable := Hooks.joinable mockBounty;
                totalStaked := Hooks.totalStaked mockBounty;
                claimsCount := Hooks.claimsCount mockBounty;
                metadata := Hooks.metadata mockBounty;
                currentVote :=
                  if bool_decide (Hooks.state mockBounty = BountyState.VOTING)
                  then Some (mkVote 0 1500000000000000000 500000000000000000
                               (now `div` 1000 + 3600) 1)
                  else None |}
    | None => None
    end
  else
    useBounty_live address issuer metadataURI state joinable totalStaked
      claimsCount currentVote metadata.

(** *** The view functions of a bounty contract, as the chain client
    answers them; [None] is a read that is pending or has failed. *)
Record chain : Type := mkChain {
  account_Stake : jsstring → jsstring → option Z;
  account_Round_HasVoted : jsstring → jsstring → Z → option bool
}.

(** [useUserStake] *)
Definition useUserStake (demo : bool) (MOCK_FUNDERS : jsstring → list (jsstring * Z))
    (c : chain) (bountyAddress userAddress : option jsstring) : option Z :=
  if demo && truthy_addr bountyAddress && truthy_addr userAddress then
    let funders := MOCK_FUNDERS (default [] bountyAddress) in
    match find (λ f, bool_decide (toLowerCase f.1
                                  = toLowerCase (default [] userAddress)))
               funders with
    | Some funder => Some funder.2  (* [funder?.amount || 0n] *)
    | None => Some 0
    end
  else if truthy_addr bountyAddress && truthy_addr userAddress && negb demo then
    account_Stake c (default [] bountyAddress) (default [] userAddress)
  else None.

(** [useHasVoted] *)
Definition useHasVoted (demo : bool) (c : chain)
    (bountyAddress userAddress : option jsstring) (votingRound : option Z)
  : option bool :=
  if demo && truthy_addr bountyAddress && truthy_addr userAddress then
    let key := toLowerCase (default [] bountyAddress) ++ u16 "-"
               ++ toLowerCase (default [] userAddress) in
    Some (bool_decide (is_Some (MockData.MOCK_USER_VOTES !! key)))
  else
    match votingRound with
    | Some votingRound =>
        if truthy_addr bountyAddress && truthy_addr userAddress && negb demo then
          account_Round_HasVoted c (default [] bountyAddress)
            (default [] userAddress) votingRound
        else None
    | None => None
    end.

(** *** [useQuery]: the data of a settled query; [undefined] when the
    query is disabled or its function rejected. *)
Definition useQuery {St A : Type} (enabled : bool) (queryFn : Eff St A)
  : Eff St (option A) :=
  if enabled then
    Eff.try_catch (a ← queryFn; mret (Some a)) (λ _, mret None)
  else mret None.

(** *** [useBounties]: metadata for all bounties.

    [Promise.all(bounties.map(async ...))] starts the callbacks in array
    order and each one issues its request before it first suspends, so the
    requests leave in array order.  The world answers a request by its
    contents, hence the resulting [Map] does not depend on the order in
    which the answers arrive. *)
Fixpoint metadata_queryFn {St : Type} (bounties : list BountyData)
    (acc : gmap jsstring json) : Eff St (gmap jsstring json) :=
  match bounties with
  | [] => mret acc
  | bounty :: rest =>
      if truthy_str (metadataURI bounty) then
        metadata ← Ipfs.fetchFromIPFS (metadataURI bounty);
        metadata_queryFn rest (<[metadataURI bounty := metadata]> acc)
      else metadata_queryFn rest acc
  end.

(** [metadataMap?.get(uri) ?? null] *)
Definition merge_lookup (m : option (gmap jsstring json)) (uri : jsstring) : json :=
  default JNull (m ≫= (.!! uri)).

Definition with_metadata (metadataMap : option (gmap jsstring json))
    (bounty : BountyData) : BountyData :=
  {| address := address bounty;
     issuer := issuer bounty;
     metadataURI := metadataURI bounty;
     state := state bounty;
     joinable := joinable bounty;
     totalStaked := totalStaked bounty;
     claimsCount := claimsCount bounty;
     metadata := Some (merge_lookup metadataMap (metadataURI bounty));
     currentVote := currentVote bounty |}.

(** [useBounties(limit, offset)], the [bounties] of its result: [addresses]
    and [data] are the results of the factory read and of the batched field
    reads. *)
Definition useBounties {St : Type} (demo : bool) (MOCK_BOUNTIES : list BountyData)
    (limit offset : nat)
    (addresses : option (list jsstring)) (data : option (list read_result))
  : Eff St (list BountyData) :=
  if demo then mret (take limit (drop offset MOCK_BOUNTIES))
  else
    let bounties := useBountiesData data (default [] addresses) in
    (* Fetch metadata for all bounties *)
    metadataMap ← useQuery (bool_decide (0 < length bounties)%nat)
                    (metadata_queryFn bounties ∅);
    (* Merge metadata into bounties *)
    mret (map (with_metadata metadataMap) bounties).

(** *** [useClaims] *)
Fixpoint parse_claims (claimsData : list read_result) (i : nat) (claims : list ClaimData)
  : list ClaimData :=
  match claimsData with
  | [] => claims
  | entry :: rest =>
      let claims :=
        match result entry ≫= as_claim with
        | Some (c, n, p) =>
            claims ++ [ {| id := Z.of_nat i; claimant := c; name := n;
                           proofURI := p; proof := None |} ]
        | None => claims
        end in
      parse_claims rest (S i) claims
  end.

Fixpoint proof_queryFn {St : Type} (claims : list ClaimData)
    (acc : gmap jsstring json) : Eff St (gmap jsstring json) :=
  match claims with
  | [] => mret acc
  | claim :: rest =>
      if truthy_str (proofURI claim) then
        proof ← Eff.try_catch (Ipfs.fetchFromIPFS (proofURI claim))
                   (λ _, mret JNull);
        proof_queryFn rest (<[proofURI claim := proof]> acc)
      else proof_queryFn rest acc
  end.

Definition with_proof (proofMap : option (gmap jsstring json)) (claim : ClaimData)
  : ClaimData :=
  {| id := id claim; claimant := claimant claim; name := name claim;
     proofURI := proofURI claim;
     proof := Some (merge_lookup proofMap (proofURI claim)) |}.

Definition useClaims_live {St : Type} (claimsData : option (list read_result))
  : Eff St (list ClaimData) :=
  let claims := match claimsData with
                | Some d => parse_claims d 0 []
                | None => []
                end in
  proofMap ← useQuery (bool_decide (0 < length claims)%nat) (proof_queryFn claims ∅);
  mret (map (with_proof proofMap) claims).

End Hooks.

(** ** Code shared by the click handlers of the pages *)

Module Handler.
Import JS.

(** The wallet as the hooks expose it at render time. *)
Record wallet : Type := mkWallet {
  wallet_address : option jsstring;   (* [address] *)
  primaryConnector : bool             (* [connectors[0]] is defined *)
}.

(** [let targetAddress = address; if (!targetAddress) { ... }] *)
Definition target_address {St : Type} (w : wallet) (unavailable : string)
  : Eff St (option jsstring) :=
  if Hooks.truthy_addr (wallet_address w) then mret (wallet_address w)
  else if negb (primaryConnector w) then Eff.throw (u16 unavailable)
  else
    accounts ← Eff.connectAsync;
    mret (head accounts).

(** [err instanceof Error ? err.message : fallback] *)
Definition message_of (err : thrown) (fallback : string) : jsstring :=
  match err with
  | ErrorObj message => message
  | OtherValue => u16 fallback
  end.

End Handler.

(** ** The create-bounty page ([src/app/create/page.tsx]) *)

Module CreatePage.
Import JS Handler.

(** The form state of the component. *)
Record form : Type := mkForm {
  title : jsstring;
  description : jsstring;
  amount : jsstring;
  joinable : bool;
  isUploading : bool;
  error : option jsstring
}.

Definition setError (e : option jsstring) : Eff form () :=
  Eff.modify (λ f, {| title := title f; description := description f;
                      amount := amount f; joinable := joinable f;
                      isUploading := isUploading f; error := e |}).

Definition setIsUploading (b : bool) : Eff form () :=
  Eff.modify (λ f, {| title := title f; description := description f;
                      amount := amount f; joinable := joinable f;
                      isUploading := b; error := error f |}).

Definition FACTORY : jsstring := u16 "0x2B31F6E90D0E0e1f3814a3B9d76a9f4cE3b2E6c0".

(** [handleSubmit].  [f] holds the values captured by the callback;
    [parseEther] is viem's, which throws on a malformed decimal. *)
Definition handleSubmit (parseEther : jsstring → completion Z) (w : wallet) (f : form)
  : Eff form () :=
  if negb (truthy_str (trim (title f))) || negb (truthy_str (trim (description f))) then
    setError (Some (u16 "Title and description are required"))
  else if negb (truthy_str (amount f)) || le_zero (parseFloat (amount f)) then
    setError (Some (u16 "Please enter a valid amount"))
  else
    _ ← setError None;
    _ ← setIsUploading true;
    Eff.try_catch
      (targetAddress ← target_address w "Wallet connector not available";
       if negb (Hooks.truthy_addr targetAddress) then
         Eff.throw (u16 "Unable to determine wallet address")
       else
         let metadata :=
           JObj [ (u16 "title", JStr (trim (title f)));
                  (u16 "description", JStr (trim (description f))) ] in
         cid ← Ipfs.uploadToIPFS metadata;
         metadataURI ←
           Eff.lift (match cid with
                     | Some (JStr cid) => Normal (Ipfs.toIPFSUri cid)
                     | _ => Throw Ipfs.TypeError
                     end);
         _ ← setIsUploading false;
         value ← Eff.lift (parseEther (amount f));
         Eff.writeContract
           {| w_account := targetAddress;
              w_address := FACTORY;
              w_functionName := u16 "createBounty";
              w_args := [AString metadataURI; ABool (joinable f)];
              w_value := Some value |})
      (λ err,
         _ ← setIsUploading false;
         setError (Some (message_of err "Failed to create bounty"))).

End CreatePage.

(** ** The bounty page (second component of [src/app/create/page.tsx]) *)

Module BountyPage.
Import JS Handler Hooks.

(** What the hooks return at one render, and the clock. *)
Record view : Type := mkView {
  bountyAddress : jsstring;
  user : option jsstring;            (* [address] *)
  bounty : option BountyData;
  voteState : option vote_state;
  userStake : option Z;
  hasVoted : option bool;
  isLoading : bool;
  now : Z                            (* [Date.now()], milliseconds *)
}.

(** The hook calls at the top of the component: [bounty], [voteState] and
    the loading flag are the results of [useBounty], [useVoteState] and the
    queries; the stake and the has-voted flag are read for
    [(bountyAddress, address)] and for the round of [voteState]. *)
Definition hooks (demo : bool) (MOCK_FUNDERS : jsstring → list (jsstring * Z))
    (c : chain) (bountyAddress : jsstring) (address : option jsstring)
    (bounty : option BountyData) (voteState : option vote_state)
    (isLoading : bool) (now : Z) : view :=
  {| bountyAddress := bountyAddress;
     user := address;
     bounty := bounty;
     voteState := voteState;
     userStake := useUserStake demo MOCK_FUNDERS c (Some bountyAddress) address;
     hasVoted := useHasVoted demo c (Some bountyAddress) address
                   (votingRound <$> voteState);
     isLoading := isLoading;
     now := now |}.

(** The React state the handlers touch. *)
Record ui : Type := mkUi {
  joinAmount : jsstring;
  claimName : jsstring;
  error : option jsstring
}.

Definition setError (e : option jsstring) : Eff ui () :=
  Eff.modify (λ u, {| joinAmount := joinAmount u; claimName := claimName u;
                      error := e |}).

(** [handleJoin] *)
Definition handleJoin (parseEther : jsstring → completion Z) (w : wallet)
    (bountyAddress : jsstring) (u : ui) : Eff ui () :=
  if negb (truthy_str (joinAmount u)) || le_zero (parseFloat (joinAmount u)) then
    setError (Some (u16 "Please enter a valid amount"))
  else
    _ ← setError None;
    Eff.try_catch
      (targetAddress ← target_address w "Wallet not available";
       value ← Eff.lift (parseEther (joinAmount u));
       Eff.writeContract
         {| w_account := targetAddress; w_address := bountyAddress;
            w_functionName := u16 "stake"; w_args := [];
            w_value := Some value |})
      (λ err, setError (Some (message_of err "Failed to join"))).

(** [handleStartVote] *)
Definition handleStartVote (w : wallet) (bountyAddress : jsstring) (claimId : Z)
  : Eff ui () :=
  _ ← setError None;
  Eff.try_catch
    (targetAddress ← target_address w "Wallet not available";
     Eff.writeContract
       {| w_account := targetAddress; w_address := bountyAddress;
          w_functionName := u16 "initiateVote"; w_args := [AUint claimId];
          w_value := None |})
    (λ err, setError (Some (message_of err "Failed to start vote"))).

(** [handleVote] *)
Definition handleVote (w : wallet) (bountyAddress : jsstring) (support : bool)
  : Eff ui () :=
  _ ← setError None;
  Eff.try_catch
    (targetAddress ← target_address w "Wallet not available";
     Eff.writeContract
       {| w_account := targetAddress; w_address := bountyAddress;
          w_functionName := u16 "vote"; w_args := [ABool support];
          w_value := None |})
    (λ err, setError (Some (message_of err "Failed to vote"))).

(** [handleResolveVote] *)
Definition handleResolveVote (w : wallet) (bountyAddress : jsstring) : Eff ui () :=
  _ ← setError None;
  Eff.try_catch
    (targetAddress ← target_address w "Wallet not available";
     Eff.writeContract
       {| w_account := targetAddress; w_address := bountyAddress;
          w_functionName := u16 "resolveVote"; w_args := [];
          w_value := None |})
    (λ err, setError (Some (message_of err "Failed to resolve vote"))).

(** The derived values, by their truthiness. *)

Definition isIssuer (v : view) : bool :=
  match bounty v, user v with
  | Some b, Some a =>
      truthy_str a && bool_decide (toLowerCase (issuer b) = toLowerCase a)
  | _, _ => false
  end.

(** [userStake && userStake > 0n] *)
Definition hasStake (v : view) : bool :=
  match userStake v with
  | Some s => negb (s =? 0) && (0 <? s)
  | None => false
  end.

(** [voteState?.deadline ? Number(voteState.deadline) * 1000 : null] *)
Definition votingDeadline (v : view) : option Z :=
  match voteState v with
  | Some vs => if deadline vs =? 0 then None else Some (deadline vs * 1000)
  | None => None
  end.

(** [votingDeadline ? Date.now() > votingDeadline : false] *)
Definition isVotingExpired (v : view) : bool :=
  match votingDeadline v with
  | Some d => if d =? 0 then false else d <? now v
  | None => false
  end.

Definition totalVoted (v : view) : Z :=
  match voteState v with
  | Some vs => yes vs + no vs
  | None => 0
  end.

(** [bounty && totalVoted >= bounty.totalStaked] *)
Definition allVotesCast (v : view) : bool :=
  match bounty v with
  | Some b => totalStaked b <=? totalVoted v
  | None => false
  end.

Definition canResolveVote (v : view) : bool := isVotingExpired v || allVotesCast v.

Definition truthy_bool (b : option bool) : bool := default false b.

(** The "Voting Action Buttons" block of the rendered page. *)
Inductive voting_buttons : Type :=
  | ResolveVoteButton     (* onClick = handleResolveVote *)
  | VotedBadge            (* disabled "Voted Yes" / "Voted No" *)
  | VoteButtons           (* onClick = handleVote(true) / handleVote(false) *)
  | NoVotingButton.

(** [None]: the block is not rendered (loading, bounty not found, or the
    bounty is not in VOTING). *)
Definition votingActions (v : view) : option voting_buttons :=
  if isLoading v then None
  else match bounty v with
       | None => None
       | Some b =>
           if bool_decide (state b = BountyState.VOTING) then
             Some (if canResolveVote v then ResolveVoteButton
                   else if hasStake v && truthy_bool (hasVoted v) then VotedBadge
                   else if hasStake v && negb (truthy_bool (hasVoted v)) then VoteButtons
                   else NoVotingButton)
           else None
       end.

Definition resolve_offered (v : view) : bool :=
  match votingActions v with Some ResolveVoteButton => true | _ => false end.

Definition vote_offered (v : view) : bool :=
  match votingActions v with Some VoteButtons => true | _ => false end.

End BountyPage.

(** ** The claim page ([src/app/claim/[bountyAddress]/[claimId]/page.tsx]) *)

Module ClaimPage.
Import JS Handler Hooks.

(** What the hooks return at one render, the route parameter and the
    clock.  [claimId] is [parseInt(claimIdStr, 10)]; the page renders the
    claim only when some claim has that id, so it is an integer there. *)
Record view : Type := mkView {
  bountyAddress : jsstring;
  claimId : Z;
  user : option jsstring;            (* [address] *)
  bounty : option BountyData;
  claims : list ClaimData;
  voteState : option vote_state;
  userStake : option Z;
  hasVoted : option bool;
  isLoading : bool;
  now : Z                            (* [Date.now()], milliseconds *)
}.

(** The hook calls at the top of the component. *)
Definition hooks (demo : bool) (MOCK_FUNDERS : jsstring → list (jsstring * Z))
    (c : chain) (bountyAddress : jsstring) (claimId : Z) (address : option jsstring)
    (bounty : option BountyData) (claims : list ClaimData)
    (voteState : option vote_state) (isLoading : bool) (now : Z) : view :=
  {| bountyAddress := bountyAddress;
     claimId := claimId;
     user := address;
     bounty := bounty;
     claims := claims;
     voteState := voteState;
     userStake := useUserStake demo MOCK_FUNDERS c (Some bountyAddress) address;
     hasVoted := useHasVoted demo c (Some bountyAddress) address
                   (votingRound <$> voteState);
     isLoading := isLoading;
     now := now |}.

Record ui : Type := mkUi { error : option jsstring }.

Definition setError (e : option jsstring) : Eff ui () :=
  Eff.modify (λ _, {| error := e |}).

(** [handleStartVote] *)
Definition handleStartVote (w : wallet) (v : view) : Eff ui () :=
  _ ← setError None;
  Eff.try_catch
    (targetAddress ← target_address w "Wallet not available";
     Eff.writeContract
       {| w_account := targetAddress; w_address := bountyAddress v;
          w_functionName := u16 "initiateVote"; w_args := [AUint (claimId v)];
          w_value := None |})
    (λ err, setError (Some (message_of err "Failed to start vote"))).

(** [handleVote] *)
Definition handleVote (w : wallet) (v : view) (support : bool) : Eff ui () :=
  _ ← setError None;
  Eff.try_catch
    (targetAddress ← target_address w "Wallet not available";
     Eff.writeContract
       {| w_account := targetAddress; w_address := bountyAddress v;
          w_functionName := u16 "vote"; w_args := [ABool support];
          w_value := None |})
    (λ err, setError (Some (message_of err "Failed to vote"))).

(** [handleResolveVote] *)
Definition handleResolveVote (w : wallet) (v : view) : Eff ui () :=
  _ ← setError None;
  Eff.try_catch
    (targetAddress ← target_address w "Wallet not available";
     Eff.writeContract
       {| w_account := targetAddress; w_address := bountyAddress v;
          w_functionName := u16 "resolveVote"; w_args := [];
          w_value := None |})
    (λ err, setError (Some (message_of err "Failed to resolve vote"))).

(** [handleAcceptClaim] *)
Definition handleAcceptClaim (w : wallet) (v : view) : Eff ui () :=
  _ ← setError None;
  Eff.try_catch
    (targetAddress ← target_address w "Wallet not available";
     Eff.writeContract
       {| w_account := targetAddress; w_address := bountyAddress v;
          w_functionName := u16 "acceptClaim"; w_args := [AUint (claimId v)];
          w_value := None |})
    (λ err, setError (Some (message_of err "Failed to accept claim"))).

(** [claims.find((c) => c.id === claimId)] *)
Definition claim (v : view) : option ClaimData :=
  find (λ c, bool_decide (id c = claimId v)) (claims v).

Definition isIssuer (v : view) : bool :=
  match bounty v, user v with
  | Some b, Some a =>
      truthy_str a && bool_decide (toLowerCase (issuer b) = toLowerCase a)
  | _, _ => false
  end.

(** [userStake && userStake > 0n] *)
Definition hasStake (v : view) : bool :=
  match userStake v with
  | Some s => negb (s =? 0) && (0 <? s)
  | None => false
  end.

(** [bounty?.state === BountyState.OPEN && (isIssuer || hasStake)] *)
Definition canStartVote (v : view) : bool :=
  match bounty v with
  | Some b => bool_decide (state b = BountyState.OPEN) && (isIssuer v || hasStake v)
  | None => false
  end.

(** [voteState?.claimId !== undefined ? Number(voteState.claimId) : null] *)
Definition votingClaimId (v : view) : option Z := Hooks.claimId <$> voteState v.

Definition isVotingOnThis (v : view) : bool :=
  match bounty v with
  | Some b =>
      bool_decide (state b = BountyState.VOTING)
      && bool_decide (votingClaimId v = Some (claimId v))
  | None => false
  end.

Definition votingDeadline (v : view) : option Z :=
  match voteState v with
  | Some vs => if deadline vs =? 0 then None else Some (deadline vs * 1000)
  | None => None
  end.

Definition isVotingExpired (v : view) : bool :=
  match votingDeadline v with
  | Some d => if d =? 0 then false else d <? now v
  | None => false
  end.

Definition truthy_bool (b : option bool) : bool := default false b.

(** Whether the page body is rendered at all: not while loading, and not
    the "Claim not found" screen. *)
Definition rendered (v : view) : bool :=
  negb (isLoading v) && bool_decide (is_Some (bounty v))
  && bool_decide (is_Some (claim v)).

(** The "Resolve Vote" button inside the voting status card:
    [isVotingOnThis && voteState && (... isVotingExpired && <Button/>)]. *)
Definition resolve_offered (v : view) : bool :=
  rendered v && isVotingOnThis v && bool_decide (is_Some (voteState v))
  && isVotingExpired v.

(** The fixed action buttons above the navigation bar. *)
Inductive action_buttons : Type :=
  | VoteButtons           (* onClick = handleVote(true) / handleVote(false) *)
  | SelectForVoting       (* onClick = handleStartVote *)
  | AcceptAndPayOut       (* onClick = handleAcceptClaim *)
  | NoAction.             (* null *)

Definition actions (v : view) : option action_buttons :=
  if negb (rendered v) then None
  else match bounty v with
       | None => None
       | Some b =>
           Some (if isVotingOnThis v && negb (truthy_bool (hasVoted v)) && hasStake v
                 then VoteButtons
                 else if bool_decide (state b = BountyState.OPEN) && isIssuer v then
                        (* Issuer can accept (solo) or start vote (joinable) *)
                        if joinable b then SelectForVoting else AcceptAndPayOut
                 else NoAction)
       end.

Definition vote_offered (v : view) : bool :=
  match actions v with Some VoteButtons => true | _ => false end.

Definition startVote_offered (v : view) : bool :=
  match actions v with Some SelectForVoting => true | _ => false end.

End ClaimPage.
(** * Further parts of the mini-app

    - the [/api/ipfs/upload] route handler           ([Module UploadRoute])
    - [useUserClaimedBounties], [useUserJoinedBounties]
                                        ([Module UserBounties], [Module UserJoined])
    - the funds and claim actions of the bounty page ([Module BountyActions])
    - the list of bounties and its cards   ([Module BountiesPage], [Module BountyCard])
    - [src/hooks/useActivityFeed.ts]                 ([Module ActivityFeed])
    - the displays of an activity's age              ([Module TimeAgo]) *)


(** ** The route handler [POST /api/ipfs/upload] *)

Module UploadRoute.
Import JS.

Definition PINATA_API_URL : jsstring :=
  u16 "https://api.pinata.cloud/pinning/pinJSONToIPFS".

(** [process.env.PINATA_API_KEY] and [process.env.PINATA_SECRET_KEY]. *)
Record secrets : Type := mkSecrets {
  PINATA_API_KEY : option jsstring;
  PINATA_SECRET_KEY : option jsstring
}.

(** [v.key] on a parsed JSON value, for a key that is no built-in property:
    reading a property of [null] throws, a value that is no object has none,
    an object has the field or [undefined].  The fields of a parsed object
    have distinct keys. *)
Definition member (v : json) (key : string) : completion (option json) :=
  match v with
  | JNull => Throw Ipfs.TypeError
  | JObj fields => Normal (snd <$> find (λ kv, bool_decide (kv.1 = u16 key)) fields)
  | _ => Normal None
  end.

(** [!!v] for a property that may be [undefined]. *)
Definition truthy (v : option json) : bool :=
  match v with
  | None => false
  | Some JNull => false
  | Some (JBool b) => b
  | Some (JNum n) => negb (n =? 0)
  | Some (JStr s) => truthy_str s
  | Some (JArr _) => true
  | Some (JObj _) => true
  end.

(** The decimal digits of an integral number, as a template literal
    prints it. *)
Definition decimal (n : Z) : jsstring := u16 (pretty n).

Definition pin_request (apiKey secretKey : jsstring) (metadata : json) (now : Z)
  : request :=
  {| req_method := HttpPost;
     req_url := PINATA_API_URL;
     req_headers := [ (u16 "Content-Type", u16 "application/json");
                      (u16 "pinata_api_key", apiKey);
                      (u16 "pinata_secret_api_key", secretKey) ];
     req_body :=
       Some (JObj [ (u16 "pinataContent", metadata);
                    (u16 "pinataMetadata",
                     JObj [(u16 "name", JStr (u16 "poidh-bounty-" ++ decimal now))]) ]);
     req_timeout := None |}.

(** [{ cid: result.IpfsHash }] as [NextResponse.json] serializes it: a
    property that is [undefined] is left out. *)
Definition cid_body (hash : option json) : json :=
  match hash with
  | Some h => JObj [(u16 "cid", h)]
  | None => JObj []
  end.

(** [request_json] is [await request.json()]; [now] is the reading of
    [Date.now()] in the pin's name. *)
Definition POST {St : Type} (env : secrets) (now : Z) (request_json : completion json)
  : Eff St IpfsRoute.next_response :=
  Eff.try_catch
    (let apiKey := PINATA_API_KEY env in
     let secretKey := PINATA_SECRET_KEY env in
     if negb (Hooks.truthy_addr apiKey) || negb (Hooks.truthy_addr secretKey) then
       mret (IpfsRoute.error_response "IPFS service not configured" 500)
     else
       metadata ← Eff.lift request_json;
       (* Validate required fields *)
       title ← Eff.lift (member metadata "title");
       if negb (truthy title) then
         mret (IpfsRoute.error_response "Title and description are required" 400)
       else
         description ← Eff.lift (member metadata "description");
         if negb (truthy description) then
           mret (IpfsRoute.error_response "Title and description are required" 400)
         else
           response ← Eff.fetch (pin_request (default [] apiKey) (default [] secretKey)
                                   metadata now);
           if negb (ok response) then
             mret (IpfsRoute.error_response "Failed to upload to IPFS" 500)
           else
             result ← Eff.lift (json_body response);
             hash ← Eff.lift (member result "IpfsHash");
             mret (IpfsRoute.json_response (cid_body hash)))
    (λ error, mret (IpfsRoute.error_response "Internal server error" 500)).

End UploadRoute.

(** ** [useUserClaimedBounties] ([src/hooks/useClaims.ts]) *)

Module UserBounties.
Import JS Hooks.


(** [result && result[0].toLowerCase() === userAddress.toLowerCase()] *)
Definition claimed_by (userAddress : jsstring) (entry : option read_result) : bool :=
  match (entry ≫= Hooks.result) ≫= Hooks.as_claim with
  | Some (who, _, _) => bool_decide (toLowerCase who = toLowerCase userAddress)
  | None => false
  end.

(** The inner loop [for (let i = 0; i < count; i++)], with [count] turns
    left: it reads [claimsData[claimIndex]] and steps [claimIndex]. *)
Fixpoint scan_claims (claimsData : list read_result) (userAddress : jsstring)
    (bounty : BountyData) (count claimIndex : nat) (found : gset jsstring)
  : nat * gset jsstring :=
  match count with
  | O => (claimIndex, found)
  | S count =>
      let found :=
        if claimed_by userAddress (claimsData !! claimIndex)
        then {[ toLowerCase (address bounty) ]} ∪ found
        else found in
      scan_claims claimsData userAddress bounty count (S claimIndex) found
  end.

(** The outer loop [for (const bounty of bounties)]. *)
Fixpoint scan_bounties (claimsData : list read_result) (userAddress : jsstring)
    (bounties : list BountyData) (claimIndex : nat) (found : gset jsstring)
  : gset jsstring :=
  match bounties with
  | [] => found
  | bounty :: rest =>
      let '(claimIndex, found) :=
        scan_claims claimsData userAddress bounty
          (Z.to_nat (claimsCount bounty)) claimIndex found in
      scan_bounties claimsData userAddress rest claimIndex found
  end.

(** The demo branch: the fixture claims of each bounty. *)
Definition scan_mock (MOCK_CLAIMS : jsstring → list ClaimData) (userAddress : jsstring)
    (bounties : list BountyData) : gset jsstring :=
  foldl (λ found bounty,
           if existsb (λ claim, bool_decide (toLowerCase (claimant claim)
                                             = toLowerCase userAddress))
                      (MOCK_CLAIMS (address bounty))
           then {[ toLowerCase (address bounty) ]} ∪ found
           else found)
        ∅ bounties.

(** [useUserClaimedBounties(bounties, userAddress)]; [claimsData] is the data
    of the batched reads of [claim_reads bounties]. *)
Definition useUserClaimedBounties (demo : bool) (MOCK_CLAIMS : jsstring → list ClaimData)
    (claimsData : option (list read_result))
    (bounties : list BountyData) (userAddress : option jsstring) : gset jsstring :=
  if demo && truthy_addr userAddress then
    scan_mock MOCK_CLAIMS (default [] userAddress) bounties
  else
    match claimsData with
    | Some claimsData =>
        if truthy_addr userAddress then
          scan_bounties claimsData (default [] userAddress) bounties 0 ∅
        else ∅
    | None => ∅
    end.

End UserBounties.

(** ** The bounty page: funds and claims (second component of
    [src/app/create/page.tsx]) *)

Module BountyActions.
Import JS Handler Hooks.

(** [handleWithdraw] *)
Definition handleWithdraw (w : wallet) (bountyAddress : jsstring)
  : Eff BountyPage.ui unit :=
  _ ← BountyPage.setError None;
  Eff.try_catch
    (targetAddress ← target_address w "Wallet not available";
     Eff.writeContract
       {| w_account := targetAddress; w_address := bountyAddress;
          w_functionName := u16 "withdraw"; w_args := [];
          w_value := None |})
    (λ err, BountyPage.setError (Some (message_of err "Failed to withdraw"))).

(** [handleCancel] *)
Definition handleCancel (w : wallet) (bountyAddress : jsstring)
  : Eff BountyPage.ui unit :=
  _ ← BountyPage.setError None;
  Eff.try_catch
    (targetAddress ← target_address w "Wallet not available";
     Eff.writeContract
       {| w_account := targetAddress; w_address := bountyAddress;
          w_functionName := u16 "cancel"; w_args := [];
          w_value := None |})
    (λ err, BountyPage.setError (Some (message_of err "Failed to cancel"))).

(** [handleSubmitClaim].  [u] holds the values captured by the callback,
    [claimImage] tells whether a file is selected, and [now] is the reading
    of [Date.now()] in the placeholder URI. *)
Definition handleSubmitClaim (w : wallet) (bountyAddress : jsstring)
    (claimImage : bool) (now : Z) (u : BountyPage.ui) : Eff BountyPage.ui unit :=
  if negb (truthy_str (trim (BountyPage.claimName u))) then
    BountyPage.setError (Some (u16 "Claim name is required"))
  else
    _ ← BountyPage.setError None;
    Eff.try_catch
      (targetAddress ← target_address w "Wallet not available";
       (* Upload image to IPFS if provided *)
       let proofURI :=
         if claimImage then u16 "ipfs://image-" ++ UploadRoute.decimal now else [] in
       Eff.writeContract
         {| w_account := targetAddress; w_address := bountyAddress;
            w_functionName := u16 "submitClaim";
            w_args := [AString (trim (BountyPage.claimName u)); AString proofURI];
            w_value := None |})
      (λ err, BountyPage.setError (Some (message_of err "Failed to submit claim"))).

(** The forms of the OPEN block: [showJoinForm] and [showClaimForm]. *)
Record forms : Type := mkForms {
  showJoinForm : bool;
  showClaimForm : bool
}.

(** [(bounty?.state === BountyState.OPEN && hasStake && !isIssuer) ||
    bounty?.state === BountyState.CANCELLED] *)
Definition canWithdraw (v : BountyPage.view) : bool :=
  match BountyPage.bounty v with
  | Some b =>
      bool_decide (state b = BountyState.OPEN) && BountyPage.hasStake v
        && negb (BountyPage.isIssuer v)
      || bool_decide (state b = BountyState.CANCELLED)
  | None => false
  end.

(** The row of buttons of the OPEN block. *)
Inductive open_buttons : Type :=
  | JoinFormButtons       (* Cancel; Join: onClick = handleJoin *)
  | ClaimFormButtons      (* Cancel; Submit: onClick = handleSubmitClaim *)
  | CancelBountyButton    (* onClick = handleCancel *)
  | WithdrawAndClaim      (* Withdraw: onClick = handleWithdraw; Submit Claim opens the form *)
  | JoinAndClaim          (* Join and Submit Claim open the forms *)
  | ClaimOnly.            (* Submit Claim opens the form *)

(** [None]: the block is not rendered (loading, bounty not found, or the
    bounty is not OPEN). *)
Definition openActions (v : BountyPage.view) (fm : forms) : option open_buttons :=
  if BountyPage.isLoading v then None
  else match BountyPage.bounty v with
       | None => None
       | Some b =>
           if bool_decide (state b = BountyState.OPEN) then
             Some (if showJoinForm fm then JoinFormButtons
                   else if showClaimForm fm then ClaimFormButtons
                   else if BountyPage.isIssuer v then CancelBountyButton
                   else if joinable b then
                          if BountyPage.hasStake v then WithdrawAndClaim
                          else JoinAndClaim
                   else ClaimOnly)
           else None
       end.

(** The "Withdraw Stake" button of a cancelled bounty:
    [bounty.state === BountyState.CANCELLED && hasStake]. *)
Definition cancelledWithdraw (v : BountyPage.view) : bool :=
  if BountyPage.isLoading v then false
  else match BountyPage.bounty v with
       | None => false
       | Some b => bool_decide (state b = BountyState.CANCELLED) && BountyPage.hasStake v
       end.

(** The handlers the rendered buttons call. *)
Definition withdraw_offered (v : BountyPage.view) (fm : forms) : bool :=
  match openActions v fm with Some WithdrawAndClaim => true | _ => false end
  || cancelledWithdraw v.

Definition cancel_offered (v : BountyPage.view) (fm : forms) : bool :=
  match openActions v fm with Some CancelBountyButton => true | _ => false end.

Definition join_offered (v : BountyPage.view) (fm : forms) : bool :=
  match openActions v fm with
  | Some JoinFormButtons | Some JoinAndClaim => true
  | _ => false
  end.

Definition claim_offered (v : BountyPage.view) (fm : forms) : bool :=
  match openActions v fm with
  | Some ClaimFormButtons | Some WithdrawAndClaim | Some JoinAndClaim
  | Some ClaimOnly => true
  | _ => false
  end.

(** [updateTime] of the countdown, for a truthy [votingDeadline] on a bounty
    in VOTING: the text [setTimeRemaining] receives.

    The source computes on doubles: [votingDeadline] is
    [Number(voteState.deadline) * 1000] and [now] is [Date.now()].  The model
    covers the range in which that arithmetic is exact: a deadline whose
    milliseconds are positive and below 2^53, and a clock that is not
    negative and below 2^53.  There the product, the difference and the
    remainders of the doubles are those of the integers, a quotient is never
    rounded up to the next integer (the remaining time is below 2^53, so each
    quotient lies at least [1/divisor] below it, more than half a unit in the
    last place), and the three numbers print in decimal.  Outside that range,
    where the doubles round, the model gives no text: [None]. *)
Definition in_range (votingDeadline now : Z) : bool :=
  (0 <? votingDeadline) && (votingDeadline <? 2 ^ 53)
  && (0 <=? now) && (now <? 2 ^ 53).

Definition updateTime (votingDeadline now : Z) : option jsstring :=
  if negb (in_range votingDeadline now) then None
  else
    let remaining := votingDeadline - now in
    if remaining <=? 0 then Some (u16 "Voting ended")
    else
      let hours := remaining / (1000 * 60 * 60) in
      let minutes := Z.rem remaining (1000 * 60 * 60) / (1000 * 60) in
      let seconds := Z.rem remaining (1000 * 60) / 1000 in
      Some (UploadRoute.decimal hours ++ u16 "h " ++ UploadRoute.decimal minutes
              ++ u16 "m " ++ UploadRoute.decimal seconds ++ u16 "s").

End BountyActions.

(** ** [useUserJoinedBounties] ([src/hooks/useFunders.ts]) *)

Module UserJoined.
Import JS Hooks.

(** The demo branch: the fixture funders of each bounty, as pairs of
    address and amount. *)
Definition scan_mock (MOCK_FUNDERS : jsstring → list (jsstring * Z))
    (userAddress : jsstring) (bounties : list BountyData) : gset jsstring :=
  foldl (λ found bounty,
           if existsb (λ funder : jsstring * Z,
                         (* User is a funder but NOT the issuer *)
                         bool_decide (toLowerCase funder.1 = toLowerCase userAddress)
                         && negb (bool_decide (toLowerCase (issuer bounty)
                                               = toLowerCase userAddress)))
                      (MOCK_FUNDERS (address bounty))
           then {[ toLowerCase (address bounty) ]} ∪ found
           else found)
        ∅ bounties.

Definition useUserJoinedBounties (demo : bool)
    (MOCK_FUNDERS : jsstring → list (jsstring * Z))
    (bounties : list BountyData) (userAddress : option jsstring) : gset jsstring :=
  if demo && truthy_addr userAddress then
    scan_mock MOCK_FUNDERS (default [] userAddress) bounties
  else
    (* In production, would need to check on-chain stakes *)
    ∅.

End UserJoined.

(** ** Array methods *)

Module JsArray.

(** [Array.prototype.sort] is stable, which fixes its result for a
    comparator that is a weak order: the insertion sort that puts an element
    behind those that compare before it, and before its equals that followed
    it. *)
Fixpoint insert {A : Type} (cmp : A → A → Z) (x : A) (sorted : list A) : list A :=
  match sorted with
  | [] => [x]
  | y :: rest => if 0 <? cmp x y then y :: insert cmp x rest else x :: y :: rest
  end.

Definition sort {A : Type} (cmp : A → A → Z) (l : list A) : list A :=
  foldr (insert cmp) [] l.


End JsArray.

(** ** The list of bounties ([src/app/bounties/page.tsx]) *)

Module BountiesPage.
Import JS Hooks.

Inductive SortFilter : Type := Top | Trending | New.
Inductive OwnerFilter : Type := OwnerAll | Created | Joined | Claimed.

(** [s.includes(q)] *)
Fixpoint includes (s q : jsstring) : bool :=
  startsWith s q
  || match s with
     | [] => false
     | _ :: s' => includes s' q
     end.

(** [b.metadata?.<key>?.toLowerCase().includes(query)], by its truthiness:
    a missing or [null] metadata or field is [undefined]; a field that is no
    string has no [toLowerCase], and calling it throws.  [lower] is
    [String.prototype.toLowerCase] on arbitrary text. *)
Definition field_includes (lower : jsstring → jsstring) (metadata : option json)
    (key : string) (query : jsstring) : completion bool :=
  match metadata with
  | Some (JObj fields) =>
      match snd <$> find (λ kv, bool_decide (kv.1 = u16 key)) fields with
      | None | Some JNull => Normal false
      | Some (JStr text) => Normal (includes (lower text) query)
      | Some _ => Throw Ipfs.TypeError
      end
  | _ => Normal false
  end.

(** The search predicate of one bounty. *)
Definition search_hit (lower : jsstring → jsstring) (query : jsstring)
    (b : BountyData) : completion bool :=
  match field_includes lower (metadata b) "title" query with
  | Throw e => Throw e
  | Normal true => Normal true
  | Normal false =>
      match field_includes lower (metadata b) "description" query with
      | Throw e => Throw e
      | Normal true => Normal true
      | Normal false => Normal (includes (lower (address b)) query)
      end
  end.

(** [result.filter(...)] with a predicate that may throw. *)
Fixpoint filter_search (lower : jsstring → jsstring) (query : jsstring)
    (result : list BountyData) : completion (list BountyData) :=
  match result with
  | [] => Normal []
  | b :: rest =>
      match search_hit lower query b with
      | Throw e => Throw e
      | Normal hit =>
          match filter_search lower query rest with
          | Throw e => Throw e
          | Normal rest => Normal (if hit then b :: rest else rest)
          end
      end
  end.

(** The comparators of [result.sort]. *)
Definition by_totalStaked (a b : BountyData) : Z :=
  if totalStaked a <? totalStaked b then 1
  else if totalStaked b <? totalStaked a then -1
  else 0.

Definition by_claimsCount (a b : BountyData) : Z :=
  if claimsCount a <? claimsCount b then 1
  else if claimsCount b <? claimsCount a then -1
  else 0.

(** [filteredBounties].  [statusFilter] is [None] for ["all"]. *)
Definition filteredBounties (lower : jsstring → jsstring)
    (bounties : list BountyData) (searchQuery : jsstring)
    (ownerFilter : OwnerFilter) (statusFilter : option Z) (sortFilter : SortFilter)
    (address : option jsstring)
    (userClaimedBounties userJoinedBounties : gset jsstring)
  : completion (list BountyData) :=
  (* Search filter *)
  match (if truthy_str (trim searchQuery)
         then filter_search lower (lower searchQuery) bounties
         else Normal bounties) with
  | Throw e => Throw e
  | Normal result =>
      (* Owner filter *)
      let result :=
        match ownerFilter with
        | Created =>
            if truthy_addr address then
              List.filter (λ b, bool_decide (toLowerCase (issuer b)
                                             = toLowerCase (default [] address)))
                          result
            else result
        | Joined =>
            if truthy_addr address then
              List.filter (λ b, bool_decide (toLowerCase (Hooks.address b)
                                             ∈ userJoinedBounties)) result
            else result
        | Claimed =>
            if truthy_addr address then
              List.filter (λ b, bool_decide (toLowerCase (Hooks.address b)
                                             ∈ userClaimedBounties)) result
            else result
        | OwnerAll => result
        end in
      (* Status filter *)
      let result :=
        match statusFilter with
        | Some status => List.filter (λ b, state b =? status) result
        | None => result
        end in
      (* Sort *)
      Normal match sortFilter with
             | Top => JsArray.sort by_totalStaked result
             | Trending => JsArray.sort by_claimsCount result
             | New => result
             end
  end.

(** The page: the hooks feed the memo.  [address] is the demo user in demo
    mode and the wallet's address otherwise. *)
Definition page (demo : bool) (DEMO_USER_ADDRESS : jsstring)
    (MOCK_CLAIMS : jsstring → list ClaimData)
    (MOCK_FUNDERS : jsstring → list (jsstring * Z))
    (lower : jsstring → jsstring)
    (bounties : list BountyData) (claimsData : option (list read_result))
    (walletAddress : option jsstring)
    (searchQuery : jsstring) (ownerFilter : OwnerFilter) (statusFilter : option Z)
    (sortFilter : SortFilter) : completion (list BountyData) :=
  let address := if demo then Some DEMO_USER_ADDRESS else walletAddress in
  filteredBounties lower bounties searchQuery ownerFilter statusFilter sortFilter
    address
    (UserBounties.useUserClaimedBounties demo MOCK_CLAIMS claimsData bounties address)
    (UserJoined.useUserJoinedBounties demo MOCK_FUNDERS bounties address).

End BountiesPage.

(** ** [useActivityFeed] ([src/hooks/useActivityFeed.ts]) *)

Module ActivityFeed.
Import JS.

Inductive ActivityType : Type :=
  | bounty_created
  | bounty_joined
  | claim_submitted
  | vote_started
  | vote_cast
  | bounty_paid
  | bounty_cancelled.

(** The [data] of an activity; a field that is not set is [None]. *)
Record ActivityData : Type := mkData {
  user : option jsstring;
  amount : option jsstring;
  claimId : option Z;
  claimant : option jsstring;
  claimName : option jsstring;
  winner : option jsstring;
  reward : option jsstring;
  support : option bool;
  metadataURI : option jsstring
}.


Record ActivityItem : Type := mkItem {
  id : jsstring;
  type : ActivityType;
  timestamp : Z;
  blockNumber : Z;
  transactionHash : jsstring;
  bountyAddress : jsstring;
  data : ActivityData
}.

(** A log as [getLogs] returns it: where it was emitted, and those of its
    decoded arguments that the hook reads. *)
Record log (Args : Type) : Type := mkLog {
  log_blockNumber : Z;
  log_transactionHash : jsstring;
  log_logIndex : Z;
  args : Args
}.
Arguments mkLog {Args}.
Arguments log_blockNumber {Args}.
Arguments log_transactionHash {Args}.
Arguments log_logIndex {Args}.
Arguments args {Args}.


(** The fields every activity takes from its log and block. *)
Definition item {Args : Type} (type : ActivityType) (bountyAddress : jsstring)
    (data : ActivityData) (l : log Args) (timestamp : Z) : ActivityItem :=
  {| id := log_transactionHash l ++ u16 "-" ++ UploadRoute.decimal (log_logIndex l);
     type := type;
     timestamp := timestamp;
     blockNumber := log_blockNumber l;
     transactionHash := log_transactionHash l;
     bountyAddress := bountyAddress;
     data := data |}.









End ActivityFeed.

(** ** [BountyCard] (a component of [src/components/state-badge.tsx]) *)

Module BountyCard.
Import JS Hooks.

Record props : Type := mkProps {
  bounty : BountyData;
  userAddress : option jsstring;
  userJoinedBounties : option (gset jsstring);
  userClaimedBounties : option (gset jsstring)
}.

(** The user relationship checks, by their truthiness. *)
Definition isIssuer (p : props) : bool :=
  truthy_addr (userAddress p)
  && bool_decide (toLowerCase (issuer (bounty p))
                  = toLowerCase (default [] (userAddress p))).

(** [userAddress && set?.has(bounty.address.toLowerCase())] *)
Definition has (p : props) (set : option (gset jsstring)) : bool :=
  truthy_addr (userAddress p)
  && match set with
     | Some s => bool_decide (toLowerCase (address (bounty p)) ∈ s)
     | None => false
     end.

Definition hasJoined (p : props) : bool := has p (userJoinedBounties p).
Definition hasClaimed (p : props) : bool := has p (userClaimedBounties p).
Definition hasStake (p : props) : bool := isIssuer p || hasJoined p.

Inductive tag : Type := Vote | Withdraw | Select | Join | Claim.

(** [getActionTags]: the labels of the tags. *)
Definition getActionTags (p : props) : list tag :=
  let b := bounty p in
  if bool_decide (state b = BountyState.VOTING) && hasStake p then [Vote]
  else if bool_decide (state b = BountyState.CANCELLED) && hasStake p then [Withdraw]
  else if bool_decide (state b = BountyState.OPEN) && isIssuer p
          && (0 <? claimsCount b) then [Select]
  else
    (* Join and Claim can both show *)
    (if bool_decide (state b = BountyState.OPEN) && joinable b
        && truthy_addr (userAddress p) && negb (isIssuer p) && negb (hasJoined p)
     then [Join] else [])
    ++ (if bool_decide (state b = BountyState.OPEN) && truthy_addr (userAddress p)
           && negb (isIssuer p) && negb (hasClaimed p)
        then [Claim] else []).

End BountyCard.

(** ** The age of an activity *)

Module TimeAgo.

(** [Math.floor(Date.now() / 1000 - timestamp)] for the integral
    [timestamp] of a block; [now] is the reading of [Date.now()]. *)
Definition seconds (now timestamp : Z) : Z := now / 1000 - timestamp.

(** [timeAgo] of the home page ([src/app/page.tsx]). *)
Definition home (now timestamp : Z) : jsstring :=
  let seconds := seconds now timestamp in
  if seconds <? 60 then u16 "just now"
  else
    let minutes := seconds / 60 in
    if minutes <? 60 then UploadRoute.decimal minutes ++ u16 "m ago"
    else
      let hours := minutes / 60 in
      if hours <? 24 then UploadRoute.decimal hours ++ u16 "h ago"
      else
        let days := hours / 24 in
        UploadRoute.decimal days ++ u16 "d ago".

(** [timeAgo] of [ActivityFeedItem] (a component of
    [src/components/claim-card.tsx]). *)
Definition item (now timestamp : Z) : jsstring :=
  let seconds := seconds now timestamp in
  if seconds <? 60 then u16 "now"
  else if seconds <? 3600 then UploadRoute.decimal (seconds / 60) ++ u16 "m"
  else if seconds <? 86400 then UploadRoute.decimal (seconds / 3600) ++ u16 "h"
  else if seconds <? 604800 then UploadRoute.decimal (seconds / 86400) ++ u16 "d"
  else UploadRoute.decimal (seconds / 604800) ++ u16 "w".

End TimeAgo.

(** ** Vocabulary of the statements below *)

Module Spec.

(** What [fetchFromIPFS uri] completes with in world [w], and the calls it
    makes (it neither reads nor changes any state). *)
Definition resolved (w : world) (uri : jsstring) : completion json :=
  outcome (Ipfs.fetchFromIPFS uri w ()).

Definition requests (w : world) (uri : jsstring) : list event :=
  trace (Ipfs.fetchFromIPFS uri w ()).

(** The document a request resolves to: the parsed body of an ok response,
    [null] on a thrown fetch, a non-ok response or an unparsable body. *)
Definition answer (w : world) (r : request) : json :=
  match fetch_result w r with
  | Normal resp =>
      if ok resp then
        match json_body resp with
        | Normal j => j
        | Throw _ => JNull
        end
      else JNull
  | Throw _ => JNull
  end.

(** The document of a URI, [null] standing for a failed resolution. *)
Definition document (w : world) (uri : jsstring) : json :=
  match resolved w uri with
  | Normal j => j
  | Throw _ => JNull
  end.

(** A bounty with its [metadata] field set. *)
Definition set_metadata (b : Hooks.BountyData) (j : json) : Hooks.BountyData :=
  {| Hooks.address := Hooks.address b;
     Hooks.issuer := Hooks.issuer b;
     Hooks.metadataURI := Hooks.metadataURI b;
     Hooks.state := Hooks.state b;
     Hooks.joinable := Hooks.joinable b;
     Hooks.totalStaked := Hooks.totalStaked b;
     Hooks.claimsCount := Hooks.claimsCount b;
     Hooks.metadata := Some j;
     Hooks.currentVote := Hooks.currentVote b |}.

(** A claim with its [proof] field set. *)
Definition set_proof (c : Hooks.ClaimData) (j : json) : Hooks.ClaimData :=
  {| Hooks.id := Hooks.id c; Hooks.claimant := Hooks.claimant c;
     Hooks.name := Hooks.name c; Hooks.proofURI := Hooks.proofURI c;
     Hooks.proof := Some j |}.

(** The [Map] a metadata or proof query builds from [acc]: one [set] per
    non-empty URI, in batch order. *)
Definition collected (w : world) (uris : list jsstring) (acc : gmap jsstring json)
  : gmap jsstring json :=
  foldl (λ m uri, if JS.truthy_str uri then <[uri := document w uri]> m else m)
        acc uris.

(** How many requests of a trace go to [url]. *)
Definition fetches_to (url : jsstring) (t : list event) : nat :=
  length (List.filter
            (λ e, match e with
                  | Fetch r => bool_decide (req_url r = url)
                  | _ => false
                  end) t).

(** How many items of a batch carry the URI [uri]. *)
Definition occurrences (uri : jsstring) (uris : list jsstring) : nat :=
  length (List.filter (λ u, bool_decide (u = uri)) uris).

(** "Identical URIs are fetched once": every request that the metadata
    query of a batch makes for an item's URI goes out exactly once. *)
Definition fetched_once_per_uri (w : world) (bounties : list Hooks.BountyData) : Prop :=
  ∀ b r, b ∈ bounties → requests w (Hooks.metadataURI b) = [Fetch r] →
    fetches_to (req_url r) (trace (Hooks.metadata_queryFn bounties ∅ w ())) = 1%nat.

(** "Normalization is form-independent" for the identifier [c]: the URI
    ["ipfs://" ++ c] and every https gateway URL [gateway ++ "/ipfs/" ++ c]
    make the calls the raw identifier makes and complete as it does, and
    so does [toIPFSUri c]. *)
Definition form_independent (c : jsstring) : Prop :=
  ∀ (w : world) (gateway : jsstring),
    JS.startsWith gateway (u16 "https://") = true →
    Ipfs.fetchFromIPFS (u16 "ipfs://" ++ c) w () = Ipfs.fetchFromIPFS c w ()
    ∧ Ipfs.fetchFromIPFS (gateway ++ u16 "/ipfs/" ++ c) w () = Ipfs.fetchFromIPFS c w ()
    ∧ Ipfs.fetchFromIPFS (Ipfs.toIPFSUri c) w () = Ipfs.fetchFromIPFS c w ().

(** [s] ends in [suffix]. *)
Definition ends_with (s suffix : jsstring) : bool :=
  JS.startsWith (reverse s) (reverse suffix).

(** The outcome of one gateway attempt for [cid]: the parsed document of an
    ok response; [None] when the fetch throws (the timeout included), the
    status is not ok, or the body does not parse. *)
Definition attempt (w : world) (cid gateway : jsstring) : option json :=
  match fetch_result w (IpfsRoute.gateway_request gateway cid) with
  | Normal resp =>
      if ok resp then
        match json_body resp with
        | Normal d => Some d
        | Throw _ => None
        end
      else None
  | Throw _ => None
  end.

(** The requests to the gateways [gs], in order. *)
Definition attempts (cid : jsstring) (gs : list jsstring) : list event :=
  map (λ g, Fetch (IpfsRoute.gateway_request g cid)) gs.

(** The cache cannot serve [cid] at time [now]: no entry, or one that is
    at least [CACHE_TTL] old. *)
Definition uncached (cache : gmap jsstring IpfsRoute.cache_entry)
    (cid : jsstring) (now : Z) : Prop :=
  ∀ e, cache !! cid = Some e → IpfsRoute.CACHE_TTL ≤ now - IpfsRoute.timestamp e.

(** Content addressing: whatever a gateway of world [w] serves for [cid]
    is the document [content]. *)
Definition content_addressed (w : world) (cid : jsstring) (content : json) : Prop :=
  ∀ g d, g ∈ IpfsRoute.IPFS_GATEWAYS → attempt w cid g = Some d → d = content.

(** A field that takes the value of its read and falls back to [d]: when
    the read failed the field is [d], and when it gave [v] the field is what
    [v] decodes to. *)
Definition read_or_default {R A : Type} (read : option R) (decode : R → option A)
    (d field : A) : Prop :=
  (read = None → field = d)
  ∧ (∀ v x, read = Some v → decode v = Some x → field = x).

(** The five fields of a record beside its issuer, each by its own read. *)
Definition fields_by_read {S U B : Type} (b : Hooks.BountyData)
    (metadataURI : option S) (state : option U) (joinable : option B)
    (totalStaked claimsCount : option U)
    (as_string : S → option jsstring) (as_uint : U → option Z)
    (as_bool : B → option bool) : Prop :=
  read_or_default metadataURI as_string [] (Hooks.metadataURI b)
  ∧ read_or_default state as_uint BountyState.OPEN (Hooks.state b)
  ∧ read_or_default joinable as_bool false (Hooks.joinable b)
  ∧ read_or_default totalStaked as_uint 0 (Hooks.totalStaked b)
  ∧ read_or_default claimsCount as_uint 0 (Hooks.claimsCount b).

(** The record of a bounty of which only the issuer could be read. *)
Definition default_bounty (addr issuer : jsstring) : Hooks.BountyData :=
  {| Hooks.address := addr; Hooks.issuer := issuer;
     Hooks.metadataURI := []; Hooks.state := BountyState.OPEN;
     Hooks.joinable := false; Hooks.totalStaked := 0; Hooks.claimsCount := 0;
     Hooks.metadata := None; Hooks.currentVote := None |}.

(** A string that is empty or holds white space only. *)
Definition blank (s : jsstring) : Prop := forallb JS.is_ws s = true.

(** A parsed amount that is a number and is not positive. *)
Definition non_positive (x : JS.number) : Prop :=
  match x with
  | JS.NaN => False
  | JS.Infinity neg => neg = true
  | JS.Decimal neg m _ => neg = true ∨ m = 0%N
  end.

(** The create form with its error message replaced. *)
Definition with_error (f : CreatePage.form) (msg : jsstring) : CreatePage.form :=
  {| CreatePage.title := CreatePage.title f;
     CreatePage.description := CreatePage.description f;
     CreatePage.amount := CreatePage.amount f;
     CreatePage.joinable := CreatePage.joinable f;
     CreatePage.isUploading := CreatePage.isUploading f;
     CreatePage.error := Some msg |}.

(** "Rejected with a precondition error before any chain write": the run
    of a handler submits no contract write and leaves an error message. *)
Definition rejected_before_write (run : ClaimPage.ui * list event * completion ()) : Prop :=
  (∀ c, WriteContract c ∉ trace run)
  ∧ ∃ msg, ClaimPage.error (final_state run) = Some msg.

(** "[initiateVote] invoked by an address without standing on a joinable
    OPEN bounty is rejected before any chain write." *)
Definition startVote_guarded : Prop :=
  ∀ (wallet : Handler.wallet) (v : ClaimPage.view) (w : world) (st : ClaimPage.ui) b,
    ClaimPage.bounty v = Some b →
    Hooks.state b = BountyState.OPEN → Hooks.joinable b = true →
    ClaimPage.isIssuer v = false → ClaimPage.hasStake v = false →
    rejected_before_write (ClaimPage.handleStartVote wallet v w st).

End Spec.

(** ** Concrete inputs used by the examples below *)

Module Example.

(** A world in which every request fails and no wallet answers. *)
Definition offline : world :=
  {| fetch_result := λ _, Throw OtherValue; connect_result := Throw OtherValue |}.

Definition open_bounty (addr issuer uri : string) (joinable : bool) (staked : Z)
  : Hooks.BountyData :=
  {| Hooks.address := u16 addr; Hooks.issuer := u16 issuer;
     Hooks.metadataURI := u16 uri; Hooks.state := BountyState.OPEN;
     Hooks.joinable := joinable; Hooks.totalStaked := staked;
     Hooks.claimsCount := 0; Hooks.metadata := None; Hooks.currentVote := None |}.

(** Two bounties that share one metadata URI. *)
Definition twin_batch : list Hooks.BountyData :=
  [ open_bounty "0xa1" "0x01" "ipfs://QmA" true 5;
    open_bounty "0xb2" "0x02" "ipfs://QmA" true 7 ].

(** Pinata times out, ipfs.io serves the document of [QmA]. *)
Definition pinata_down : world :=
  {| fetch_result := λ r,
       if bool_decide (req_url r = u16 "https://ipfs.io/ipfs/QmA") then
         Normal {| ok := true;
                   json_body := Normal (JObj [(u16 "title", JStr (u16 "Plank"))]);
                   text_body := [] |}
       else Throw (ErrorObj (u16 "The operation was aborted due to timeout"));
     connect_result := Throw OtherValue |}.

(** A create form with a title of spaces only. *)
Definition blank_title_form : CreatePage.form :=
  {| CreatePage.title := u16 "   "; CreatePage.description := u16 "Do a plank";
     CreatePage.amount := u16 "0.5"; CreatePage.joinable := true;
     CreatePage.isUploading := false; CreatePage.error := None |}.

Definition connected (a : string) : Handler.wallet :=
  {| Handler.wallet_address := Some (u16 a); Handler.primaryConnector := true |}.

(** A bounty in VOTING on claim 0 in which all of the stake has voted, one
    thousand seconds before the deadline. *)
Definition voting_bounty : Hooks.BountyData :=
  {| Hooks.address := u16 "0xb0"; Hooks.issuer := u16 "0x01";
     Hooks.metadataURI := u16 "ipfs://QmA"; Hooks.state := BountyState.VOTING;
     Hooks.joinable := true; Hooks.totalStaked := 10; Hooks.claimsCount := 1;
     Hooks.metadata := None; Hooks.currentVote := None |}.

Definition all_voted : Hooks.vote_state :=
  {| Hooks.claimId := 0; Hooks.yes := 7; Hooks.no := 3;
     Hooks.deadline := 2000; Hooks.votingRound := 1 |}.

Definition claim0 : Hooks.ClaimData :=
  {| Hooks.id := 0; Hooks.claimant := u16 "0x0c"; Hooks.name := u16 "done";
     Hooks.proofURI := []; Hooks.proof := None |}.

Definition all_voted_bounty_page : BountyPage.view :=
  {| BountyPage.bountyAddress := u16 "0xb0"; BountyPage.user := Some (u16 "0x02");
     BountyPage.bounty := Some voting_bounty; BountyPage.voteState := Some all_voted;
     BountyPage.userStake := Some 3; BountyPage.hasVoted := Some true;
     BountyPage.isLoading := false; BountyPage.now := 1000000 |}.

Definition all_voted_claim_page : ClaimPage.view :=
  {| ClaimPage.bountyAddress := u16 "0xb0"; ClaimPage.claimId := 0;
     ClaimPage.user := Some (u16 "0x02");
     ClaimPage.bounty := Some voting_bounty; ClaimPage.claims := [claim0];
     ClaimPage.voteState := Some all_voted;
     ClaimPage.userStake := Some 3; ClaimPage.hasVoted := Some true;
     ClaimPage.isLoading := false; ClaimPage.now := 1000000 |}.

(** The claim page of a joinable OPEN bounty, seen by an address that is
    neither the issuer nor a funder. *)
Definition outsider_claim_page : ClaimPage.view :=
  {| ClaimPage.bountyAddress := u16 "0xa1"; ClaimPage.claimId := 0;
     ClaimPage.user := Some (u16 "0x0f");
     ClaimPage.bounty := Some (open_bounty "0xa1" "0x01" "ipfs://QmA" true 5);
     ClaimPage.claims := [claim0]; ClaimPage.voteState := None;
     ClaimPage.userStake := Some 0; ClaimPage.hasVoted := None;
     ClaimPage.isLoading := false; ClaimPage.now := 1000000 |}.

(** A chain on which the funder [0x02] of bounty [0xb0] holds a stake of 3
    and has voted in round 1 but not in round 2. *)
Definition voted_in_round_1 : Hooks.chain :=
  {| Hooks.account_Stake := λ _ _, Some 3;
     Hooks.account_Round_HasVoted := λ _ _ round, Some (bool_decide (round = 1)) |}.

Definition round (n : Z) : Hooks.vote_state :=
  {| Hooks.claimId := 0; Hooks.yes := 0; Hooks.no := 0;
     Hooks.deadline := 2000; Hooks.votingRound := n |}.

(** The batched reads of one bounty of which only the issuer came back. *)
Definition issuer_only : list Hooks.read_result :=
  [ Hooks.mkRead (Some (AAddress (u16 "0x01"))); Hooks.mkRead None;
    Hooks.mkRead None; Hooks.mkRead None; Hooks.mkRead None; Hooks.mkRead None ].

End Example.

(** ** Proof automation *)

(** Unfolds the operations of [Eff] in the goal. *)
Ltac eff_unfold :=
  unfold mbind, mret, eff_bind, eff_ret, Eff.bind, Eff.ret, Eff.try_catch,
    Eff.lift, Eff.fetch, Eff.throw, Eff.modify, Eff.get, Eff.connectAsync,
    Eff.writeContract, outcome, trace, final_state in *.


(** ** Vocabulary of the further properties *)

Module SpecX.

(** A code unit that neither separates path segments nor starts a query
    or a fragment: not [/], [?] or [#]. *)
Definition url_safe (c : N) : Prop := c ≠ 47%N ∧ c ≠ 63%N ∧ c ≠ 35%N.

(** The statuses the route handlers answer with. *)
Definition answered (run : gmap jsstring IpfsRoute.cache_entry * list event
                          * completion IpfsRoute.next_response)
    (statuses : list Z) : Prop :=
  ∃ r, outcome run = Normal r ∧ IpfsRoute.status r ∈ statuses.


(** The run of a handler that resolves the wallet and then submits one
    write of [fn] to [target] without value: the write goes out from the
    connected address, or after one wallet connection from its first
    account; without address and connector, or when the connection is
    refused, no write goes out and an error message is left. *)
Definition wallet_run {St : Type} (error : St → option jsstring)
    (wal : Handler.wallet) (w : world) (target : jsstring) (fn : string)
    (run : St * list event * completion unit) : Prop :=
  outcome run = Normal tt
  ∧ ((∃ c, (trace run = [WriteContract c]
            ∧ Hooks.truthy_addr (Handler.wallet_address wal) = true
            ∧ w_account c = Handler.wallet_address wal
            ∨ trace run = [ConnectWallet; WriteContract c]
              ∧ Hooks.truthy_addr (Handler.wallet_address wal) = false
              ∧ Handler.primaryConnector wal = true
              ∧ ∃ accounts, connect_result w = Normal accounts
                            ∧ w_account c = head accounts)
           ∧ w_address c = target ∧ w_functionName c = u16 fn
           ∧ w_value c = None
           ∧ error (final_state run) = None)
     ∨ (trace run = []
        ∧ Hooks.truthy_addr (Handler.wallet_address wal) = false
        ∧ Handler.primaryConnector wal = false
        ∧ error (final_state run) = Some (u16 "Wallet not available"))
     ∨ (trace run = [ConnectWallet]
        ∧ Hooks.truthy_addr (Handler.wallet_address wal) = false
        ∧ Handler.primaryConnector wal = true
        ∧ ∃ e, connect_result w = Throw e
               ∧ ∃ msg, error (final_state run) = Some msg)).

(** The handlers of the two pages that submit a write without validating
    a form, each with the contract function it calls. *)
Definition claim_page_writes (wal : Handler.wallet) (v : ClaimPage.view)
  : list (string * Eff ClaimPage.ui unit) :=
  [ ("initiateVote", ClaimPage.handleStartVote wal v);
    ("vote", ClaimPage.handleVote wal v true);
    ("vote", ClaimPage.handleVote wal v false);
    ("resolveVote", ClaimPage.handleResolveVote wal v);
    ("acceptClaim", ClaimPage.handleAcceptClaim wal v) ].

Definition bounty_page_writes (wal : Handler.wallet) (bountyAddress : jsstring)
    (claimId : Z) : list (string * Eff BountyPage.ui unit) :=
  [ ("initiateVote", BountyPage.handleStartVote wal bountyAddress claimId);
    ("vote", BountyPage.handleVote wal bountyAddress true);
    ("vote", BountyPage.handleVote wal bountyAddress false);
    ("resolveVote", BountyPage.handleResolveVote wal bountyAddress);
    ("withdraw", BountyActions.handleWithdraw wal bountyAddress);
    ("cancel", BountyActions.handleCancel wal bountyAddress) ].

(** Whether the search for [query] keeps the bounty [b]. *)
Definition hit (lower : jsstring → jsstring) (query : jsstring)
    (b : Hooks.BountyData) : bool :=
  match BountiesPage.search_hit lower query b with
  | Normal true => true
  | _ => false
  end.

(** The bounty [b] meets the filters of the list of bounties: the search
    (if the query is not blank), the status, and the owner filter of a
    connected address. *)
Definition selected (lower : jsstring → jsstring) (searchQuery : jsstring)
    (ownerFilter : BountiesPage.OwnerFilter) (statusFilter : option Z)
    (address : option jsstring) (claimed joined : gset jsstring)
    (b : Hooks.BountyData) : Prop :=
  (¬ Spec.blank searchQuery → hit lower (lower searchQuery) b = true)
  ∧ (∀ status, statusFilter = Some status → Hooks.state b = status)
  ∧ (∀ a, address = Some a → a ≠ [] →
       (ownerFilter = BountiesPage.Created →
          JS.toLowerCase (Hooks.issuer b) = JS.toLowerCase a)
       ∧ (ownerFilter = BountiesPage.Joined →
            JS.toLowerCase (Hooks.address b) ∈ joined)
       ∧ (ownerFilter = BountiesPage.Claimed →
            JS.toLowerCase (Hooks.address b) ∈ claimed)).

(** [l] is in descending order of [key]. *)
Definition descending {A : Type} (key : A → Z) (l : list A) : Prop :=
  StronglySorted (λ a b, key b ≤ key a) l.

(** The elements of [l] whose [key] is [k], in the order of [l]. *)
Definition with_key {A : Type} (key : A → Z) (k : Z) (l : list A) : list A :=
  List.filter (λ b, key b =? k) l.

(** The field [key] of a bounty's metadata, when the metadata is an
    object that has it. *)
Definition text_field (b : Hooks.BountyData) (key : string) : option json :=
  match Hooks.metadata b with
  | Some (JObj fields) => snd <$> find (λ kv, bool_decide (kv.1 = u16 key)) fields
  | _ => None
  end.

(** A field that text can be read from: absent, [null] or a string. *)
Definition textual (v : option json) : Prop :=
  match v with
  | None | Some JNull | Some (JStr _) => True
  | Some _ => False
  end.


End SpecX.

(** ** Proof automation for the upload route *)

Ltac post_step :=
  cbn -[UploadRoute.pin_request UploadRoute.member UploadRoute.truthy
        UploadRoute.cid_body IpfsRoute.error_response IpfsRoute.json_response].

Ltac post_done :=
  split; [done|]; eexists; (split; [reflexivity|]);
  split_and!;
    [ repeat constructor
    | first [by left | by right]
    | done
    | done
    | first [done | by intros [?|?]] ].

(** ** Proof automation for the handlers *)

(** Closes a goal from [Hc : WriteContract c ∈ t] for a trace [t] that
    holds no write. *)
Ltac no_write Hc :=
  repeat (apply elem_of_cons in Hc as [Hc|Hc]; [discriminate Hc|]);
  by apply elem_of_nil in Hc.

(** A run that submitted no write and left an error message. *)
Ltac failed_run :=
  split; [let c := fresh "c" in let Hc := fresh "Hc" in intros c Hc; no_write Hc
         |intros _; by eexists].

(** * Properties *)

(** ** The model on concrete inputs *)

Example parseFloat_signed_prefix :
  JS.parseFloat (u16 "  -0.50e1x") = JS.Decimal true 50 (-1).
Proof. reflexivity. Qed.

Example parseFloat_exponent_needs_digits :
  JS.parseFloat (u16 "1e+") = JS.Decimal false 1 0.
Proof. reflexivity. Qed.

Example parseFloat_not_a_number : JS.parseFloat (u16 "abc") = JS.NaN.
Proof. reflexivity. Qed.

Example le_zero_cases :
  JS.le_zero (JS.parseFloat (u16 "0.000")) = true
  ∧ JS.le_zero (JS.parseFloat (u16 "-3")) = true
  ∧ JS.le_zero (JS.parseFloat (u16 "1e-400")) = true
  ∧ JS.le_zero (JS.parseFloat (u16 "0.5")) = false
  ∧ JS.le_zero (JS.parseFloat (u16 "abc")) = false.
Proof. by vm_compute. Qed.

Example trim_spaces : JS.trim (u16 "  a b  ") = u16 "a b".
Proof. reflexivity. Qed.

Example match_ipfs_gateway_url :
  JS.match_ipfs (u16 "https://gateway.pinata.cloud/ipfs/Qm123abc/meta.json")
  = Some (u16 "Qm123abc").
Proof. reflexivity. Qed.

Example match_ipfs_no_identifier :
  JS.match_ipfs (u16 "https://example.org/ipfs/") = None.
Proof. reflexivity. Qed.

Example encodeURIComponent_escapes :
  JS.encodeURIComponent (u16 "a b/c-d") = Normal (u16 "a%20b%2Fc-d").
Proof. reflexivity. Qed.

Example encodeURIComponent_lone_surrogate :
  JS.encodeURIComponent [97; 56320]%N = Throw JS.URIError.
Proof. reflexivity. Qed.

Example fetchFromIPFS_ipfs_uri :
  Ipfs.fetchFromIPFS (u16 "ipfs://QmA") Example.offline ()
  = ((), [Fetch (Ipfs.get_request (u16 "/api/ipfs/QmA"))], Normal JNull).
Proof. reflexivity. Qed.

Example fetchFromIPFS_direct_url :
  trace (Ipfs.fetchFromIPFS (u16 "https://example.org/meta.json") Example.offline ())
  = [Fetch (Ipfs.get_request (u16 "https://example.org/meta.json"))].
Proof. reflexivity. Qed.

Example GET_all_gateways_down :
  IpfsRoute.GET 1000 2000 (Normal (u16 "QmA")) Example.offline ∅
  = (∅, Spec.attempts (u16 "QmA") IpfsRoute.IPFS_GATEWAYS,
     Normal (IpfsRoute.error_response "Failed to fetch from IPFS" 502)).
Proof. by vm_compute. Qed.

Example GET_without_cid :
  outcome (IpfsRoute.GET 1000 2000 (Normal []) Example.offline ∅)
  = Normal (IpfsRoute.error_response "CID is required" 400).
Proof. reflexivity. Qed.

(** ** [fetchFromIPFS] *)

Section fetchFromIPFS.
Context {St : Type}.
Implicit Types (w : world) (s : St) (uri cid : jsstring).

Lemma fetchFromIPFS_run w s uri :
  Ipfs.fetchFromIPFS uri w s = (s, Spec.requests w uri, Spec.resolved w uri).
Proof.
  unfold Spec.requests, Spec.resolved, Ipfs.fetchFromIPFS.
  destruct (negb (JS.truthy_str uri)); [reflexivity|].
  assert (Hroute : ∀ cid,
    let body (T : Type) : Eff T json :=
      Eff.try_catch
        (path ← Eff.lift (JS.encodeURIComponent cid);
         response ← Eff.fetch (Ipfs.get_request (u16 "/api/ipfs/" ++ path));
         if negb (ok response) then mret JNull else Eff.lift (json_body response))
        (λ _, mret JNull) in
    body St w s = (s, trace (body unit w tt), outcome (body unit w tt))).
  { intros cid. eff_unfold. cbn.
    destruct (JS.encodeURIComponent cid) as [path|e]; cbn; [|reflexivity].
    destruct (fetch_result w _) as [resp|e]; cbn; [|reflexivity].
    destruct (negb (ok resp)); cbn; [reflexivity|].
    destruct (json_body resp); reflexivity. }
  cbn zeta in Hroute.
  destruct (JS.startsWith uri (u16 "ipfs://")); [apply Hroute|].
  destruct (JS.startsWith uri (u16 "https://")); [|apply Hroute].
  destruct (JS.match_ipfs uri); [apply Hroute|].
  eff_unfold. cbn.
  destruct (fetch_result w _) as [resp|e]; cbn; [|reflexivity].
  destruct (negb (ok resp)); cbn; [reflexivity|].
  destruct (json_body resp); reflexivity.
Qed.

End fetchFromIPFS.

(** Every run of [fetchFromIPFS] makes no request and yields [null], or
    makes exactly one request and yields its answer. *)
Lemma fetchFromIPFS_cases w uri :
  (Spec.requests w uri = [] ∧ Spec.resolved w uri = Normal JNull)
  ∨ (∃ r, Spec.requests w uri = [Fetch r]
          ∧ Spec.resolved w uri = Normal (Spec.answer w r)).
Proof.
  unfold Spec.requests, Spec.resolved, Ipfs.fetchFromIPFS.
  destruct (negb (JS.truthy_str uri)); [left; done|].
  assert (Hroute : ∀ cid,
    let body : Eff unit json :=
      Eff.try_catch
        (path ← Eff.lift (JS.encodeURIComponent cid);
         response ← Eff.fetch (Ipfs.get_request (u16 "/api/ipfs/" ++ path));
         if negb (ok response) then mret JNull else Eff.lift (json_body response))
        (λ _, mret JNull) in
    (trace (body w tt) = [] ∧ outcome (body w tt) = Normal JNull)
    ∨ (∃ r, trace (body w tt) = [Fetch r]
            ∧ outcome (body w tt) = Normal (Spec.answer w r))).
  { intros cid. eff_unfold. cbn.
    destruct (JS.encodeURIComponent cid) as [path|e]; cbn; [|left; done].
    right. exists (Ipfs.get_request (u16 "/api/ipfs/" ++ path)). unfold Spec.answer.
    destruct (fetch_result w _) as [resp|e]; cbn; [|done].
    destruct (ok resp); cbn; [|done].
    destruct (json_body resp); done. }
  cbn zeta in Hroute.
  destruct (JS.startsWith uri (u16 "ipfs://")); [apply Hroute|].
  destruct (JS.startsWith uri (u16 "https://")); [|apply Hroute].
  destruct (JS.match_ipfs uri); [apply Hroute|].
  right. exists (Ipfs.get_request uri). eff_unfold. cbn. unfold Spec.answer.
  destruct (fetch_result w _) as [resp|e]; cbn; [|done].
  destruct (ok resp); cbn; [|done].
  destruct (json_body resp); done.
Qed.

Lemma fetchFromIPFS_never_throws w uri : ∃ j, Spec.resolved w uri = Normal j.
Proof. destruct (fetchFromIPFS_cases w uri) as [[_ ->]|(r & _ & ->)]; eauto. Qed.

Lemma resolved_document w uri : Spec.resolved w uri = Normal (Spec.document w uri).
Proof.
  unfold Spec.document. by destruct (fetchFromIPFS_never_throws w uri) as [j ->].
Qed.

Lemma fetchFromIPFS_empty w :
  Spec.requests w [] = [] ∧ Spec.resolved w [] = Normal JNull.
Proof. done. Qed.

Lemma document_empty w : Spec.document w [] = JNull.
Proof. done. Qed.

(** ** The metadata and proof queries of [useBounties] and [useClaims] *)

Section queries.
Context {St : Type}.
Implicit Types (w : world) (s : St) (acc : gmap jsstring json).

Lemma metadata_queryFn_run w s bounties acc :
  Hooks.metadata_queryFn bounties acc w s
  = (s, flat_map (λ b, Spec.requests w (Hooks.metadataURI b)) bounties,
     Normal (Spec.collected w (map Hooks.metadataURI bounties) acc)).
Proof.
  revert acc. induction bounties as [|b rest IH]; intros acc; [done|].
  cbn [Hooks.metadata_queryFn flat_map map Spec.collected foldl].
  destruct (Hooks.metadataURI b) as [|c uri] eqn:Huri.
  - cbn. rewrite IH. done.
  - cbn [JS.truthy_str]. unfold mbind, eff_bind, Eff.bind.
    rewrite fetchFromIPFS_run, resolved_document, IH. done.
Qed.

Lemma proof_queryFn_run w s claims acc :
  Hooks.proof_queryFn claims acc w s
  = (s, flat_map (λ c, Spec.requests w (Hooks.proofURI c)) claims,
     Normal (Spec.collected w (map Hooks.proofURI claims) acc)).
Proof.
  revert acc. induction claims as [|c rest IH]; intros acc; [done|].
  cbn [Hooks.proof_queryFn flat_map map Spec.collected foldl].
  destruct (Hooks.proofURI c) as [|c0 uri] eqn:Huri.
  - cbn. rewrite IH. done.
  - cbn [JS.truthy_str]. unfold mbind, eff_bind, Eff.bind, Eff.try_catch.
    rewrite fetchFromIPFS_run, resolved_document, IH. done.
Qed.

Lemma collected_lookup w uris acc uri :
  Spec.collected w uris acc !! uri
  = if bool_decide (uri ∈ uris ∧ uri ≠ []) then Some (Spec.document w uri)
    else acc !! uri.
Proof.
  revert acc. induction uris as [|u uris IH]; intros acc; cbn.
  - rewrite bool_decide_eq_false_2; [done|]. intros [H _]. by apply elem_of_nil in H.
  - unfold Spec.collected in IH. rewrite IH.
    destruct (decide (uri ∈ uris ∧ uri ≠ [])) as [[Hin Hne]|Hn].
    + rewrite !bool_decide_eq_true_2; [done| |done]. split; [by right|done].
    + rewrite (bool_decide_eq_false_2 _ Hn).
      destruct (decide (uri = u)) as [->|Hneq].
      * destruct u as [|c u]; cbn.
        -- rewrite bool_decide_eq_false_2; [done|]. by intros [_ ?].
        -- rewrite lookup_insert_eq, bool_decide_eq_true_2; [done|].
           split; [by left|done].
      * rewrite bool_decide_eq_false_2.
        -- destruct (JS.truthy_str u); [by rewrite lookup_insert_ne|done].
        -- intros [[?|?]%elem_of_cons ?]; [done|]. apply Hn. done.
Qed.

Lemma merge_collected w (uris : list jsstring) uri :
  uri ∈ uris →
  Hooks.merge_lookup (Some (Spec.collected w uris ∅)) uri = Spec.document w uri.
Proof.
  intros Hin. unfold Hooks.merge_lookup. cbn. rewrite collected_lookup.
  destruct uri as [|c uri].
  - rewrite bool_decide_eq_false_2; [done|]. by intros [_ ?].
  - by rewrite bool_decide_eq_true_2.
Qed.

Lemma useBounties_run w s mock limit offset addresses data :
  let bounties := Hooks.useBountiesData data (default [] addresses) in
  Hooks.useBounties false mock limit offset addresses data w s
  = (s, flat_map (λ b, Spec.requests w (Hooks.metadataURI b)) bounties,
     Normal (map (λ b, Spec.set_metadata b (Spec.document w (Hooks.metadataURI b)))
               bounties)).
Proof.
  intros bounties. unfold Hooks.useBounties. fold bounties.
  destruct bounties as [|b0 rest] eqn:Hb; [done|]. rewrite <- Hb.
  rewrite bool_decide_eq_true_2 by (rewrite Hb; cbn; lia).
  unfold Hooks.useQuery, mbind, mret, eff_bind, eff_ret, Eff.bind, Eff.try_catch, Eff.ret.
  rewrite metadata_queryFn_run, !app_nil_r. do 2 f_equal.
  apply map_ext_in. intros b Hin%list_elem_of_In.
  unfold Hooks.with_metadata, Spec.set_metadata. f_equal. f_equal.
  apply merge_collected. by apply list_elem_of_fmap_2.
Qed.

Lemma useClaims_run w s claimsData :
  let claims := match claimsData with
                | Some d => Hooks.parse_claims d 0 []
                | None => []
                end in
  Hooks.useClaims_live claimsData w s
  = (s, flat_map (λ c, Spec.requests w (Hooks.proofURI c)) claims,
     Normal (map (λ c, Spec.set_proof c (Spec.document w (Hooks.proofURI c))) claims)).
Proof.
  intros claims. unfold Hooks.useClaims_live. fold claims.
  destruct claims as [|c0 rest] eqn:Hc; [done|]. rewrite <- Hc.
  rewrite bool_decide_eq_true_2 by (rewrite Hc; cbn; lia).
  unfold Hooks.useQuery, mbind, mret, eff_bind, eff_ret, Eff.bind, Eff.try_catch, Eff.ret.
  rewrite proof_queryFn_run, !app_nil_r. do 2 f_equal.
  apply map_ext_in. intros c Hin%list_elem_of_In.
  unfold Hooks.with_proof, Spec.set_proof. f_equal. f_equal.
  apply merge_collected. by apply list_elem_of_fmap_2.
Qed.

End queries.

(** C4: metadata resolution never throws: [fetchFromIPFS] completes
    normally on every input, with [null] and no request on the empty
    string, and with [null] when its request throws or is answered with a
    non-OK status.  The projections of [useBounties] and [useClaims] always
    complete with one record per bounty (per claim), every field but
    [metadata] ([proof]) unchanged, and the [metadata] of each bounty is the
    document of its own URI, [null] when that resolution failed: a failure
    for one URI changes nothing for the other items of the batch. *)
Theorem metadata_resolution_tolerates_failure :
  (∀ (St : Type) w (s : St) uri,
      ∃ j, outcome (Ipfs.fetchFromIPFS uri w s) = Normal j)
  ∧ (∀ (St : Type) w (s : St), Ipfs.fetchFromIPFS [] w s = (s, [], Normal JNull))
  ∧ (∀ (St : Type) w (s : St) uri r,
      trace (Ipfs.fetchFromIPFS uri w s) = [Fetch r] →
      (∀ e, fetch_result w r = Throw e →
            outcome (Ipfs.fetchFromIPFS uri w s) = Normal JNull)
      ∧ (∀ resp, fetch_result w r = Normal resp → ok resp = false →
            outcome (Ipfs.fetchFromIPFS uri w s) = Normal JNull))
  ∧ (∀ (St : Type) w (s : St) mock limit offset addresses data,
      outcome (Hooks.useBounties false mock limit offset addresses data w s)
      = Normal (map (λ b, Spec.set_metadata b (Spec.document w (Hooks.metadataURI b)))
                  (Hooks.useBountiesData data (default [] addresses))))
  ∧ (∀ (St : Type) w (s : St) claimsData,
      outcome (Hooks.useClaims_live claimsData w s)
      = Normal (map (λ c, Spec.set_proof c (Spec.document w (Hooks.proofURI c)))
                  (match claimsData with
                   | Some d => Hooks.parse_claims d 0 []
                   | None => []
                   end)))
  ∧ (∀ w uri r, Spec.requests w uri = [Fetch r] →
      (∀ e, fetch_result w r = Throw e → Spec.document w uri = JNull)
      ∧ (∀ resp, fetch_result w r = Normal resp → ok resp = false →
                 Spec.document w uri = JNull)).
Proof.
  assert (Hfail : ∀ w uri r, Spec.requests w uri = [Fetch r] →
      (∀ e, fetch_result w r = Throw e → Spec.resolved w uri = Normal JNull)
      ∧ (∀ resp, fetch_result w r = Normal resp → ok resp = false →
                 Spec.resolved w uri = Normal JNull)).
  { intros w uri r Hreq.
    destruct (fetchFromIPFS_cases w uri) as [[Hnil _]|(r' & Hr' & Hres)].
    - rewrite Hnil in Hreq. discriminate.
    - rewrite Hr' in Hreq. injection Hreq as ->. rewrite Hres. unfold Spec.answer.
      split.
      + intros e ->. done.
      + intros resp -> ->. done. }
  split_and!.
  - intros St w s uri. rewrite fetchFromIPFS_run. apply fetchFromIPFS_never_throws.
  - intros St w s. by rewrite fetchFromIPFS_run.
  - intros St w s uri r. rewrite fetchFromIPFS_run. apply Hfail.
  - intros St w s mock limit offset addresses data. by rewrite useBounties_run.
  - intros St w s claimsData. by rewrite useClaims_run.
  - intros w uri r Hreq. unfold Spec.document.
    destruct (Hfail w uri r Hreq) as [H1 H2]. split.
    + intros e He. by rewrite (H1 e He).
    + intros resp Hr Hok. by rewrite (H2 resp Hr Hok).
Qed.

Lemma metadata_resolution_tolerates_failure_witness :
  outcome (Ipfs.fetchFromIPFS (u16 "ipfs://QmA") Example.offline ()) = Normal JNull.
Proof.
  apply (proj1 (proj1 (proj2 (proj2 metadata_resolution_tolerates_failure))
                  unit Example.offline () (u16 "ipfs://QmA")
                  (Ipfs.get_request (u16 "/api/ipfs/QmA")) eq_refl)
           OtherValue).
  reflexivity.
Defined.


(** ** Fan-out of the metadata and proof queries *)

Lemma fetches_to_app url t1 t2 :
  Spec.fetches_to url (t1 ++ t2) = (Spec.fetches_to url t1 + Spec.fetches_to url t2)%nat.
Proof. unfold Spec.fetches_to. by rewrite List.filter_app, length_app. Qed.

Lemma occurrences_le_fetches w (uris : list jsstring) uri r :
  Spec.requests w uri = [Fetch r] →
  (Spec.occurrences uri uris
   ≤ Spec.fetches_to (req_url r) (flat_map (Spec.requests w) uris))%nat.
Proof.
  intros Hreq. induction uris as [|u uris IH]; [done|].
  cbn [flat_map]. rewrite fetches_to_app.
  unfold Spec.occurrences in *. cbn [List.filter].
  case_bool_decide as Hu; [|lia]. subst u. rewrite Hreq.
  unfold Spec.fetches_to at 1. cbn. rewrite bool_decide_eq_true_2 by done.
  cbn. lia.
Qed.

(** The two bounties of [Example.twin_batch] carry the same URI, and the
    metadata query requests it twice. *)
Lemma twin_batch_fetched_twice :
  ¬ Spec.fetched_once_per_uri Example.offline Example.twin_batch.
Proof.
  intros Honce.
  specialize (Honce (Example.open_bounty "0xa1" "0x01" "ipfs://QmA" true 5)
                (Ipfs.get_request (u16 "/api/ipfs/QmA"))).
  assert (Hcount : Spec.fetches_to (u16 "/api/ipfs/QmA")
            (trace (Hooks.metadata_queryFn Example.twin_batch ∅ Example.offline ()))
          = 2%nat) by (vm_compute; reflexivity).
  cbn [req_url Ipfs.get_request] in Honce. rewrite Hcount in Honce.
  assert (2 = 1)%nat; [|lia].
  apply Honce; [|vm_compute; reflexivity]. unfold Example.twin_batch. left.
Qed.

(** C6 (amended): the queries fan out per item, not per distinct URI.
    [useBounties] (and [useClaims]) call [fetchFromIPFS] once for every item of
    the batch, in batch order, so a URI carried by k items is requested at
    least k times; only the resulting [Map] is keyed by URI, with one entry
    for each distinct non-empty URI. *)
Theorem metadata_fetched_once_per_item :
  (∀ (St : Type) w (s : St) mock limit offset addresses data,
      trace (Hooks.useBounties false mock limit offset addresses data w s)
      = flat_map (λ b, Spec.requests w (Hooks.metadataURI b))
          (Hooks.useBountiesData data (default [] addresses)))
  ∧ (∀ (St : Type) w (s : St) claimsData,
      trace (Hooks.useClaims_live claimsData w s)
      = flat_map (λ c, Spec.requests w (Hooks.proofURI c))
          (match claimsData with
           | Some d => Hooks.parse_claims d 0 []
           | None => []
           end))
  ∧ (∀ w (bounties : list Hooks.BountyData) uri r,
      Spec.requests w uri = [Fetch r] →
      (Spec.occurrences uri (map Hooks.metadataURI bounties)
       ≤ Spec.fetches_to (req_url r)
           (trace (Hooks.metadata_queryFn bounties ∅ w ())))%nat)
  ∧ (∀ w (bounties : list Hooks.BountyData) uri,
      match outcome (Hooks.metadata_queryFn bounties ∅ w ()) with
      | Normal m => is_Some (m !! uri) ↔ uri ∈ map Hooks.metadataURI bounties ∧ uri ≠ []
      | Throw _ => False
      end).
Proof.
  split_and!.
  - intros St w s mock limit offset addresses data. by rewrite useBounties_run.
  - intros St w s claimsData. by rewrite useClaims_run.
  - intros w bounties uri r Hreq. rewrite metadata_queryFn_run. cbn [trace fst snd].
    unfold trace. cbn [fst snd].
    replace (flat_map (λ b, Spec.requests w (Hooks.metadataURI b)) bounties)
      with (flat_map (Spec.requests w) (map Hooks.metadataURI bounties)).
    + by apply occurrences_le_fetches.
    + induction bounties as [|b bs IH]; [done|]. cbn. by rewrite IH.
  - intros w bounties uri. rewrite metadata_queryFn_run. unfold outcome. cbn [snd].
    rewrite collected_lookup. case_bool_decide as H.
    + split; [done|]. intros _. by eexists.
    + rewrite lookup_empty. split; [by intros [? ?]|done].
Qed.

Lemma metadata_fetched_once_per_item_witness :
  (Spec.occurrences (u16 "ipfs://QmA") (map Hooks.metadataURI Example.twin_batch)
   ≤ Spec.fetches_to (u16 "/api/ipfs/QmA")
       (trace (Hooks.metadata_queryFn Example.twin_batch ∅ Example.offline ())))%nat.
Proof.
  apply (proj1 (proj2 (proj2 metadata_fetched_once_per_item)) Example.offline
           Example.twin_batch (u16 "ipfs://QmA")
           (Ipfs.get_request (u16 "/api/ipfs/QmA"))).
  reflexivity.
Defined.

(** ** Normalization of IPFS references *)

Lemma startsWith_app p t : JS.startsWith (p ++ t) p = true.
Proof. induction p as [|x p IH]; [done|]. cbn. by rewrite N.eqb_refl. Qed.

Lemma startsWith_true s p : JS.startsWith s p = true → ∃ t, s = p ++ t.
Proof.
  revert s. induction p as [|x p IH]; intros s H; [by exists s|].
  destruct s as [|y s]; [done|]. cbn in H.
  apply andb_true_iff in H as [Hxy Hs]. apply N.eqb_eq in Hxy as ->.
  destruct (IH s Hs) as [t ->]. by exists t.
Qed.

(** On at least [length p] code units, [startsWith] only looks at them. *)
Lemma startsWith_app_l s t p :
  (length p ≤ length s)%nat → JS.startsWith (s ++ t) p = JS.startsWith s p.
Proof.
  revert s. induction p as [|x p IH]; intros s Hlen; [done|].
  destruct s as [|y s]; cbn in *; [lia|]. rewrite IH; [done|lia].
Qed.

Lemma alnum_no_scheme c (scheme : jsstring) :
  forallb JS.is_alnum c = true → forallb JS.is_alnum scheme = false →
  JS.startsWith c scheme = false.
Proof.
  intros Hc Hs. destruct (JS.startsWith c scheme) eqn:E; [|done].
  apply startsWith_true in E as [t ->].
  rewrite forallb_app in Hc. apply andb_true_iff in Hc as [Hc _]. congruence.
Qed.

Lemma take_while_alnum c rest :
  forallb JS.is_alnum c = true →
  match rest with [] => True | x :: _ => JS.is_alnum x = false end →
  JS.take_while JS.is_alnum (c ++ rest) = c.
Proof.
  intros Hc Hrest. induction c as [|x c IH]; cbn in *.
  - destruct rest as [|y rest]; [done|]. cbn. by rewrite Hrest.
  - apply andb_true_iff in Hc as [-> Hc]. by rewrite IH.
Qed.

Lemma encodeURIComponent_alnum c :
  forallb JS.is_alnum c = true → JS.encodeURIComponent c = Normal c.
Proof.
  induction c as [|x c IH]; [done|]. cbn. intros [Hx Hc]%andb_true_iff.
  unfold JS.is_unreserved. rewrite Hx. cbn. by rewrite IH.
Qed.

Lemma match_ipfs_cons x r :
  JS.match_ipfs (x :: r)
  = if JS.startsWith (x :: r) (u16 "/ipfs/") then
      match JS.take_while JS.is_alnum (drop 6 (x :: r)) with
      | [] => JS.match_ipfs r
      | run => Some run
      end
    else JS.match_ipfs r.
Proof. done. Qed.

(** The regular expression finds [c] behind the gateway's ["/ipfs/"] when
    nothing before it matches. *)
Lemma match_ipfs_gateway host c rest :
  c ≠ [] → forallb JS.is_alnum c = true →
  match rest with [] => True | x :: _ => JS.is_alnum x = false end →
  JS.match_ipfs (host ++ u16 "/ipfs/") = None →
  JS.match_ipfs (host ++ u16 "/ipfs/" ++ c ++ rest) = Some c.
Proof.
  intros Hne Hc Hrest. induction host as [|h host IH]; intros Hnone.
  - change ([] ++ u16 "/ipfs/" ++ c ++ rest) with (47%N :: u16 "ipfs/" ++ c ++ rest).
    rewrite match_ipfs_cons.
    change (47%N :: u16 "ipfs/" ++ c ++ rest) with (u16 "/ipfs/" ++ (c ++ rest)).
    rewrite startsWith_app.
    change 6%nat with (length (u16 "/ipfs/")). rewrite drop_app_length.
    rewrite take_while_alnum by done. by destruct c.
  - cbn [app] in *. rewrite match_ipfs_cons in *.
    assert (Hlen : (length (u16 "/ipfs/") ≤ length (h :: host ++ u16 "/ipfs/"))%nat).
    { cbn. rewrite length_app. cbn. lia. }
    assert (Hsplit : h :: host ++ u16 "/ipfs/" ++ c ++ rest
                     = (h :: host ++ u16 "/ipfs/") ++ c ++ rest).
    { cbn [app]. by rewrite <- app_assoc. }
    rewrite Hsplit, startsWith_app_l by done.
    destruct (JS.startsWith (h :: host ++ u16 "/ipfs/") (u16 "/ipfs/")) eqn:Hsw;
      [|by apply IH].
    destruct (JS.take_while JS.is_alnum (drop 6 (h :: host ++ u16 "/ipfs/")))
      as [|a run] eqn:Hrun; [|done].
    rewrite (IH Hnone), drop_app_le by (cbn in Hlen |- *; lia).
    destruct (drop 6 (h :: host ++ u16 "/ipfs/")) as [|y t] eqn:Hd.
    + apply (f_equal length) in Hd. rewrite length_drop in Hd. cbn in Hd.
      rewrite length_app in Hd. cbn in Hd. lia.
    + cbn in Hrun |- *. by destruct (JS.is_alnum y).
Qed.

(** For an alphanumeric identifier the three forms make the same request. *)
Lemma fetchFromIPFS_alnum {St : Type} w (s : St) c host rest :
  c ≠ [] → forallb JS.is_alnum c = true →
  JS.startsWith host (u16 "https://") = true →
  JS.match_ipfs (host ++ u16 "/ipfs/") = None →
  match rest with [] => True | x :: _ => JS.is_alnum x = false end →
  Ipfs.fetchFromIPFS (u16 "ipfs://" ++ c) w s = Ipfs.fetchFromIPFS c w s
  ∧ Ipfs.fetchFromIPFS (host ++ u16 "/ipfs/" ++ c ++ rest) w s = Ipfs.fetchFromIPFS c w s
  ∧ trace (Ipfs.fetchFromIPFS c w s)
    = [Fetch (Ipfs.get_request (u16 "/api/ipfs/" ++ c))].
Proof.
  intros Hne Hc Hhost Hnone Hrest.
  assert (Hraw : ∀ T, @Ipfs.fetchFromIPFS T c
            = Eff.try_catch
                (path ← Eff.lift (JS.encodeURIComponent c);
                 response ← Eff.fetch (Ipfs.get_request (u16 "/api/ipfs/" ++ path));
                 if negb (ok response) then mret JNull
                 else Eff.lift (json_body response))
                (λ _, mret JNull)).
  { intros T. unfold Ipfs.fetchFromIPFS.
    rewrite !alnum_no_scheme by done. by destruct c. }
  split_and!.
  - rewrite Hraw. unfold Ipfs.fetchFromIPFS.
    rewrite startsWith_app. cbn [negb JS.truthy_str app u16].
    unfold JS.replace. cbn -[Eff.try_catch mbind]. done.
  - rewrite Hraw. unfold Ipfs.fetchFromIPFS.
    destruct (startsWith_true _ _ Hhost) as [t ->].
    rewrite <- (app_assoc _ t), startsWith_app.
    rewrite (app_assoc _ t). rewrite match_ipfs_gateway by done.
    cbn -[Eff.try_catch mbind]. done.
  - rewrite Hraw. eff_unfold. rewrite encodeURIComponent_alnum by done. cbn.
    destruct (fetch_result w _) as [resp|e]; cbn; [|done].
    destruct (negb (ok resp)); cbn; [done|]. by destruct (json_body resp).
Qed.

Lemma fetchFromIPFS_toIPFSUri {St : Type} w (s : St) c :
  c ≠ [] → JS.startsWith c (u16 "https://") = false →
  Ipfs.fetchFromIPFS (Ipfs.toIPFSUri c) w s = Ipfs.fetchFromIPFS c w s.
Proof.
  intros Hne Hhttps. unfold Ipfs.toIPFSUri.
  destruct (JS.startsWith c (u16 "ipfs://")) eqn:Hipfs; [done|].
  unfold Ipfs.fetchFromIPFS. rewrite startsWith_app, Hipfs, Hhttps.
  cbn [negb JS.truthy_str app u16]. destruct c as [|x c]; [done|].
  unfold JS.replace. cbn -[Eff.try_catch mbind]. done.
Qed.

(** The placeholder identifier that [handleSubmitClaim] writes into proof
    URIs contains a hyphen; behind an https gateway URL the regular
    expression keeps only ["image"], so that form looks up another file. *)
Lemma hyphenated_identifier_form_dependent :
  ¬ Spec.form_independent (u16 "image-1700000000000").
Proof.
  intros Hind.
  destruct (Hind Example.offline (u16 "https://gateway.pinata.cloud") eq_refl)
    as (_ & Hgateway & _).
  vm_compute in Hgateway. discriminate Hgateway.
Qed.

(** An occurrence of ["/ipfs/"] that begins in [host] and ends in an
    appended ["/ipfs/"] needs [host] to end in ["/ipfs"]: when the regular
    expression finds nothing in [host] and [host] does not end so, it finds
    nothing in [host ++ "/ipfs/"] either. *)
Lemma ends_with_tail h (t suffix : jsstring) :
  Spec.ends_with (h :: t) suffix = false → Spec.ends_with t suffix = false.
Proof.
  unfold Spec.ends_with. rewrite reverse_cons. intros H.
  destruct (JS.startsWith (reverse t) (reverse suffix)) eqn:E; [|done].
  apply startsWith_true in E as [x Hx].
  by rewrite Hx, <- app_assoc, startsWith_app in H.
Qed.

Lemma match_ipfs_before_gateway host :
  JS.match_ipfs host = None → Spec.ends_with host (u16 "/ipfs") = false →
  JS.match_ipfs (host ++ u16 "/ipfs/") = None.
Proof.
  induction host as [|h t IH]; intros Hm He; [by vm_compute|].
  assert (Hmt : JS.match_ipfs t = None).
  { rewrite match_ipfs_cons in Hm.
    destruct (JS.startsWith (h :: t) (u16 "/ipfs/")); [|done].
    by destruct (JS.take_while JS.is_alnum (drop 6 (h :: t))). }
  specialize (IH Hmt (ends_with_tail _ _ _ He)).
  cbn [app]. rewrite match_ipfs_cons.
  destruct (decide (6 ≤ length (h :: t))%nat) as [Hlen|Hlen].
  - change (h :: t ++ u16 "/ipfs/") with ((h :: t) ++ u16 "/ipfs/").
    rewrite startsWith_app_l by done. rewrite match_ipfs_cons in Hm.
    destruct (JS.startsWith (h :: t) (u16 "/ipfs/")); [|done].
    rewrite drop_app_le by done.
    destruct (drop 6 (h :: t)) as [|y d]; [by vm_compute|].
    cbn [app JS.take_while] in Hm |- *. by destruct (JS.is_alnum y).
  - destruct (JS.startsWith (h :: t ++ u16 "/ipfs/") (u16 "/ipfs/")) eqn:Hs; [|done].
    exfalso. apply startsWith_true in Hs as [x Hx].
    change (u16 "/ipfs/") with [47; 105; 112; 102; 115; 47]%N in Hx.
    destruct t as [|a [|b [|c [|d [|e t]]]]]; cbn in Hlen, Hx; [..|lia];
      simplify_eq; try (vm_compute in He; discriminate He).
Qed.

(** The exclusion is needed: behind a host that ends in ["/ipfs"] the
    regular expression captures the ["ipfs"] of the gateway path, not the
    identifier. *)
Example host_ending_in_ipfs :
  JS.match_ipfs (u16 "https://a/ipfs") = None
  ∧ JS.match_ipfs (u16 "https://a/ipfs" ++ u16 "/ipfs/" ++ u16 "QmA") = Some (u16 "ipfs")
  ∧ Spec.requests Example.offline (u16 "https://a/ipfs" ++ u16 "/ipfs/" ++ u16 "QmA")
    = [Fetch (Ipfs.get_request (u16 "/api/ipfs/ipfs"))]
  ∧ Spec.requests Example.offline (u16 "QmA")
    = [Fetch (Ipfs.get_request (u16 "/api/ipfs/QmA"))].
Proof. split_and!; vm_compute; reflexivity. Qed.

(** C8 (amended): for every non-empty alphanumeric identifier [c], the raw
    identifier, the URI ["ipfs://" ++ c] and an https URL
    [host ++ "/ipfs/" ++ c ++ rest] (nothing in [host] matching the regular
    expression, [host] not ending in ["/ipfs"], [rest] empty or starting
    with a non-alphanumeric code unit) make the same single request
    [/api/ipfs/c] and complete alike; and for every non-empty [c] that does
    not start with ["https://"], [fetchFromIPFS (toIPFSUri c)] behaves as
    [fetchFromIPFS c]. *)
Theorem reference_normalization_alphanumeric :
  (∀ (St : Type) w (s : St) c host rest,
      c ≠ [] → forallb JS.is_alnum c = true →
      JS.startsWith host (u16 "https://") = true →
      JS.match_ipfs host = None →
      Spec.ends_with host (u16 "/ipfs") = false →
      match rest with [] => True | x :: _ => JS.is_alnum x = false end →
      Ipfs.fetchFromIPFS (u16 "ipfs://" ++ c) w s = Ipfs.fetchFromIPFS c w s
      ∧ Ipfs.fetchFromIPFS (host ++ u16 "/ipfs/" ++ c ++ rest) w s
        = Ipfs.fetchFromIPFS c w s
      ∧ trace (Ipfs.fetchFromIPFS c w s)
        = [Fetch (Ipfs.get_request (u16 "/api/ipfs/" ++ c))])
  ∧ (∀ (St : Type) w (s : St) c,
      c ≠ [] → JS.startsWith c (u16 "https://") = false →
      Ipfs.fetchFromIPFS (Ipfs.toIPFSUri c) w s = Ipfs.fetchFromIPFS c w s).
Proof.
  split.
  - intros St w s c host rest Hne Hc Hhost Hnone Hend Hrest.
    apply fetchFromIPFS_alnum; try done. by apply match_ipfs_before_gateway.
  - intros St w s c. apply fetchFromIPFS_toIPFSUri.
Qed.

Lemma reference_normalization_alphanumeric_witness :
  let c := u16 "QmYwAPJzv5CZsnA625s3Xf2nemtYgPpHdWEz79ojWnPbdG" in
  let url := u16 "https://gateway.pinata.cloud" ++ u16 "/ipfs/" ++ c ++ u16 "/meta.json" in
  Ipfs.fetchFromIPFS (u16 "ipfs://" ++ c) Example.offline ()
  = Ipfs.fetchFromIPFS c Example.offline ()
  ∧ Ipfs.fetchFromIPFS url Example.offline () = Ipfs.fetchFromIPFS c Example.offline ()
  ∧ trace (Ipfs.fetchFromIPFS c Example.offline ())
    = [Fetch (Ipfs.get_request (u16 "/api/ipfs/" ++ c))].
Proof.
  apply (proj1 reference_normalization_alphanumeric unit Example.offline ()
           (u16 "QmYwAPJzv5CZsnA625s3Xf2nemtYgPpHdWEz79ojWnPbdG")
           (u16 "https://gateway.pinata.cloud") (u16 "/meta.json")).
  - discriminate.
  - vm_compute. reflexivity.
  - vm_compute. reflexivity.
  - vm_compute. reflexivity.
  - vm_compute. reflexivity.
  - vm_compute. reflexivity.
Defined.

(** ** The route handler *)

Section route.
Implicit Types (w : world) (cache : gmap jsstring IpfsRoute.cache_entry)
  (cid : jsstring) (gs pre post : list jsstring).

(** One turn of the loop. *)
Lemma try_gateways_cons now cid g gs w cache :
  IpfsRoute.try_gateways now cid (g :: gs) w cache
  = match Spec.attempt w cid g with
    | Some d =>
        (<[cid := IpfsRoute.mkEntry d now]> cache,
         [Fetch (IpfsRoute.gateway_request g cid)],
         Normal (Some (IpfsRoute.json_response d)))
    | None =>
        let '(c, t, r) := IpfsRoute.try_gateways now cid gs w cache in
        (c, Fetch (IpfsRoute.gateway_request g cid) :: t, r)
    end.
Proof.
  cbn [IpfsRoute.try_gateways]. unfold Spec.attempt. eff_unfold. cbn.
  destruct (fetch_result w _) as [resp|e]; cbn.
  - destruct (ok resp); cbn.
    + destruct (json_body resp); cbn; [done|].
      by destruct (IpfsRoute.try_gateways now cid gs w cache) as [[? ?] ?].
    + by destruct (IpfsRoute.try_gateways now cid gs w cache) as [[? ?] ?].
  - by destruct (IpfsRoute.try_gateways now cid gs w cache) as [[? ?] ?].
Qed.

Lemma try_gateways_all_fail now cid gs w cache :
  Forall (λ g, Spec.attempt w cid g = None) gs →
  IpfsRoute.try_gateways now cid gs w cache = (cache, Spec.attempts cid gs, Normal None).
Proof.
  induction 1 as [|g gs Hg _ IH]; [done|].
  by rewrite try_gateways_cons, Hg, IH.
Qed.

Lemma try_gateways_first_success now cid pre g post d w cache :
  Forall (λ g', Spec.attempt w cid g' = None) pre →
  Spec.attempt w cid g = Some d →
  IpfsRoute.try_gateways now cid (pre ++ g :: post) w cache
  = (<[cid := IpfsRoute.mkEntry d now]> cache, Spec.attempts cid (pre ++ [g]),
     Normal (Some (IpfsRoute.json_response d))).
Proof.
  intros Hpre Hg. induction Hpre as [|g' pre Hg' _ IH]; cbn [app].
  - by rewrite try_gateways_cons, Hg.
  - by rewrite try_gateways_cons, Hg', IH.
Qed.

(** Either every gateway fails, or there is a first one that succeeds. *)
Lemma first_success_or_none w cid gs :
  Forall (λ g, Spec.attempt w cid g = None) gs
  ∨ ∃ pre g post d, gs = pre ++ g :: post
      ∧ Forall (λ g', Spec.attempt w cid g' = None) pre
      ∧ Spec.attempt w cid g = Some d.
Proof.
  induction gs as [|g gs IH]; [by left|].
  destruct (Spec.attempt w cid g) as [d|] eqn:Hg.
  - right. by exists [], g, gs, d.
  - destruct IH as [Hall|(pre & g' & post & d & -> & Hpre & Hg')].
    + left. by constructor.
    + right. exists (g :: pre), g', post, d. split_and!; [done| |done].
      by constructor.
Qed.

Lemma first_success_unique w cid pre g post d pre' g' post' d' :
  pre ++ g :: post = pre' ++ g' :: post' →
  Forall (λ x, Spec.attempt w cid x = None) pre → Spec.attempt w cid g = Some d →
  Forall (λ x, Spec.attempt w cid x = None) pre' → Spec.attempt w cid g' = Some d' →
  pre' = pre ∧ g' = g.
Proof.
  intros Hs Hpre Hg Hpre' Hg'. revert pre' Hs Hpre'.
  induction Hpre as [|x pre Hx _ IH]; intros pre' Hs Hpre'.
  - destruct pre' as [|y pre']; cbn in Hs.
    + by injection Hs as -> _.
    + injection Hs as -> _. apply Forall_cons in Hpre' as [Hy _]. congruence.
  - destruct pre' as [|y pre']; cbn in Hs.
    + injection Hs as -> _. congruence.
    + injection Hs as -> Hs. apply Forall_cons in Hpre' as [_ Hpre'].
      by destruct (IH pre' Hs Hpre') as [-> ->].
Qed.

(** The handler on a request the cache cannot serve. *)
Lemma GET_uncached now_check now_store cid w cache :
  cid ≠ [] → Spec.uncached cache cid now_check →
  IpfsRoute.GET now_check now_store (Normal cid) w cache
  = let '(c, t, r) :=
      IpfsRoute.try_gateways now_store cid IpfsRoute.IPFS_GATEWAYS w cache in
    (c, t, match r with
           | Normal (Some resp) => Normal resp
           | Normal None =>
               Normal (IpfsRoute.error_response "Failed to fetch from IPFS" 502)
           | Throw _ => Normal (IpfsRoute.error_response "Internal server error" 500)
           end).
Proof.
  intros Hne Hun. unfold IpfsRoute.GET. eff_unfold.
  cbn -[IpfsRoute.try_gateways IpfsRoute.IPFS_GATEWAYS].
  destruct cid as [|c0 cid']; [done|]. cbn [JS.truthy_str negb].
  set (cid := c0 :: cid') in *.
  assert (Hmiss : match cache !! cid with
                  | Some cached =>
                      if now_check - IpfsRoute.timestamp cached <? IpfsRoute.CACHE_TTL
                      then Some cached else None
                  | None => None
                  end = None).
  { destruct (cache !! cid) as [e|] eqn:He; [|done].
    specialize (Hun e He). by rewrite (proj2 (Z.ltb_ge _ _) Hun). }
  rewrite Hmiss.
  destruct (IpfsRoute.try_gateways now_store cid IpfsRoute.IPFS_GATEWAYS w cache)
    as [[c t] [[resp|]|e]]; cbn; by rewrite ?app_nil_r.
Qed.

(** The handler on a request the cache can serve. *)
Lemma GET_cached now_check now_store cid w cache e :
  cid ≠ [] → cache !! cid = Some e →
  now_check - IpfsRoute.timestamp e < IpfsRoute.CACHE_TTL →
  IpfsRoute.GET now_check now_store (Normal cid) w cache
  = (cache, [], Normal (IpfsRoute.json_response (IpfsRoute.data e))).
Proof.
  intros Hne He Hfresh. unfold IpfsRoute.GET. eff_unfold.
  cbn -[IpfsRoute.try_gateways IpfsRoute.IPFS_GATEWAYS].
  destruct cid as [|c0 cid']; [done|]. cbn [JS.truthy_str negb].
  by rewrite He, (proj2 (Z.ltb_lt _ _) Hfresh).
Qed.

(** A request answered with status 200 was served from the cache, which it
    leaves as it is, or by a gateway, whose document it stores. *)
Lemma GET_success_cases now_check now_store cid w cache cache1 tr r :
  IpfsRoute.GET now_check now_store (Normal cid) w cache = (cache1, tr, Normal r) →
  IpfsRoute.status r = 200 →
  cid ≠ [] ∧ r = IpfsRoute.json_response (IpfsRoute.body r) ∧
  ((∃ e, cache !! cid = Some e ∧ IpfsRoute.data e = IpfsRoute.body r
         ∧ cache1 = cache ∧ tr = [])
   ∨ (∃ g, g ∈ IpfsRoute.IPFS_GATEWAYS
         ∧ Spec.attempt w cid g = Some (IpfsRoute.body r)
         ∧ cache1 = <[cid := IpfsRoute.mkEntry (IpfsRoute.body r) now_store]> cache)).
Proof.
  intros Hrun Hstatus.
  destruct (decide (cid = [])) as [->|Hne].
  { cbv in Hrun. injection Hrun as _ _ <-. done. }
  split; [done|].
  destruct (cache !! cid) as [e|] eqn:He.
  - destruct (decide (now_check - IpfsRoute.timestamp e < IpfsRoute.CACHE_TTL))
      as [Hfresh|Hstale].
    + rewrite (GET_cached _ _ _ _ _ e) in Hrun by done.
      injection Hrun as <- <- <-. split; [done|]. left. by exists e.
    + rewrite GET_uncached in Hrun by (try done; intros e' ?; simplify_eq; lia).
      destruct (first_success_or_none w cid IpfsRoute.IPFS_GATEWAYS)
        as [Hall|(pre & g & post & d & Hsplit & Hpre & Hg)].
      * rewrite try_gateways_all_fail in Hrun by done.
        injection Hrun as _ _ <-. done.
      * rewrite Hsplit, (try_gateways_first_success _ _ pre g post d) in Hrun by done.
        injection Hrun as <- _ <-. split; [done|]. right. exists g.
        split_and!; [|done|done]. rewrite Hsplit. apply elem_of_app. right. by left.
  - rewrite GET_uncached in Hrun by (try done; intros e' ?; simplify_eq).
    destruct (first_success_or_none w cid IpfsRoute.IPFS_GATEWAYS)
      as [Hall|(pre & g & post & d & Hsplit & Hpre & Hg)].
    + rewrite try_gateways_all_fail in Hrun by done.
      injection Hrun as _ _ <-. done.
    + rewrite Hsplit, (try_gateways_first_success _ _ pre g post d) in Hrun by done.
      injection Hrun as <- _ <-. split; [done|]. right. exists g.
      split_and!; [|done|done]. rewrite Hsplit. apply elem_of_app. right. by left.
Qed.

End route.

(** C5: on a request for a cid that the cache cannot serve, the gateways
    are tried in the order of [IPFS_GATEWAYS], each with a timeout of ten
    seconds: the requests made are those to a prefix of the list.  The answer
    is the document of the first gateway whose attempt succeeds, after the
    requests up to that gateway; status 502 is answered exactly when every
    gateway's attempt has failed, after all of them were tried. *)
Theorem gateways_tried_in_priority_order now_check now_store cid w cache :
  cid ≠ [] → Spec.uncached cache cid now_check →
  let run := IpfsRoute.GET now_check now_store (Normal cid) w cache in
  (∃ n, trace run = Spec.attempts cid (take n IpfsRoute.IPFS_GATEWAYS))
  ∧ Forall (λ e, ∃ r, e = Fetch r ∧ req_timeout r = Some 10000) (trace run)
  ∧ (∀ pre g post d,
       IpfsRoute.IPFS_GATEWAYS = pre ++ g :: post →
       Forall (λ g', Spec.attempt w cid g' = None) pre →
       Spec.attempt w cid g = Some d →
       outcome run = Normal (IpfsRoute.json_response d)
       ∧ trace run = Spec.attempts cid (pre ++ [g]))
  ∧ (Forall (λ g, Spec.attempt w cid g = None) IpfsRoute.IPFS_GATEWAYS →
       outcome run = Normal (IpfsRoute.error_response "Failed to fetch from IPFS" 502)
       ∧ trace run = Spec.attempts cid IpfsRoute.IPFS_GATEWAYS)
  ∧ ((∃ r, outcome run = Normal r ∧ IpfsRoute.status r = 502)
     ↔ Forall (λ g, Spec.attempt w cid g = None) IpfsRoute.IPFS_GATEWAYS).
Proof.
  intros Hne Hun run. subst run. rewrite GET_uncached by done.
  assert (Htimeout : ∀ gs, Forall (λ e, ∃ r, e = Fetch r ∧ req_timeout r = Some 10000)
                             (Spec.attempts cid gs)).
  { intros gs. apply Forall_fmap, Forall_forall. intros g _. by eexists. }
  destruct (first_success_or_none w cid IpfsRoute.IPFS_GATEWAYS)
    as [Hall|(pre & g & post & d & Hsplit & Hpre & Hg)].
  - rewrite try_gateways_all_fail by done. unfold trace, outcome. cbn [fst snd].
    split_and!.
    + exists (length IpfsRoute.IPFS_GATEWAYS). by rewrite firstn_all.
    + apply Htimeout.
    + intros pre g post d Hsplit _ Hg. rewrite Hsplit in Hall.
      apply Forall_app in Hall as [_ Hall]. apply Forall_cons in Hall as [Hg' _].
      congruence.
    + done.
    + split; [done|]. intros _. by eexists.
  - assert (Hrun : IpfsRoute.try_gateways now_store cid IpfsRoute.IPFS_GATEWAYS w cache
                   = (<[cid := IpfsRoute.mkEntry d now_store]> cache,
                      Spec.attempts cid (pre ++ [g]),
                      Normal (Some (IpfsRoute.json_response d)))).
    { rewrite Hsplit. by apply try_gateways_first_success. }
    rewrite Hrun. unfold trace, outcome. cbn [fst snd].
    assert (Hnot : ¬ Forall (λ g, Spec.attempt w cid g = None) IpfsRoute.IPFS_GATEWAYS).
    { rewrite Hsplit. intros [_ [Hg' _]%Forall_cons]%Forall_app. congruence. }
    split_and!.
    + exists (length (pre ++ [g])). rewrite Hsplit.
      rewrite (cons_middle g pre post), app_assoc.
      by rewrite take_app_length.
    + apply Htimeout.
    + intros pre' g' post' d' Hsplit' Hpre' Hg'.
      destruct (first_success_unique w cid pre g post d pre' g' post' d')
        as [-> ->]; [by rewrite <- Hsplit|done..|].
      by simplify_eq.
    + intros Hall. done.
    + split; [|done]. intros (r & Hr & Hstatus). by simplify_eq.
Qed.

Lemma gateways_tried_in_priority_order_witness :
  let run := IpfsRoute.GET 1000 2000 (Normal (u16 "QmA")) Example.pinata_down ∅ in
  outcome run
  = Normal (IpfsRoute.json_response (JObj [(u16 "title", JStr (u16 "Plank"))]))
  ∧ trace run
    = Spec.attempts (u16 "QmA")
        [u16 "https://gateway.pinata.cloud/ipfs"; u16 "https://ipfs.io/ipfs"].
Proof.
  assert (Hne : u16 "QmA" ≠ []) by discriminate.
  assert (Hun : Spec.uncached ∅ (u16 "QmA") 1000) by (intros e He; discriminate He).
  apply (proj1 (proj2 (proj2
           (gateways_tried_in_priority_order 1000 2000 (u16 "QmA")
              Example.pinata_down ∅ Hne Hun)))
           [u16 "https://gateway.pinata.cloud/ipfs"] (u16 "https://ipfs.io/ipfs")
           [u16 "https://cloudflare-ipfs.com/ipfs"]
           (JObj [(u16 "title", JStr (u16 "Plank"))])).
  - reflexivity.
  - constructor; [vm_compute; reflexivity|constructor].
  - vm_compute. reflexivity.
Defined.

(** C9: a request answered with status 200 leaves its document in the
    cache, and any later request for the same cid that arrives less than
    [CACHE_TTL] (five minutes) after the entry's timestamp is answered with
    that same document from the cache, without a gateway request, whatever
    the gateways would say by then.  Under content addressing (every gateway
    serves the one document of the cid, and so does the cache at the
    start), any two successive requests answered with status 200 return
    that document, also after the entry has expired. *)
Theorem resolution_idempotent_and_cached :
  IpfsRoute.CACHE_TTL = 300000
  ∧ (∀ w1 t1 t1' cache cid cache1 tr1 r1,
      IpfsRoute.GET t1 t1' (Normal cid) w1 cache = (cache1, tr1, Normal r1) →
      IpfsRoute.status r1 = 200 →
      ∃ e, cache1 !! cid = Some e ∧ IpfsRoute.data e = IpfsRoute.body r1
           ∧ ∀ w2 t2 t2', t2 - IpfsRoute.timestamp e < IpfsRoute.CACHE_TTL →
               IpfsRoute.GET t2 t2' (Normal cid) w2 cache1 = (cache1, [], Normal r1))
  ∧ (∀ content cid w1 w2 t1 t1' t2 t2' cache cache1 cache2 tr1 tr2 r1 r2,
      Spec.content_addressed w1 cid content →
      Spec.content_addressed w2 cid content →
      (∀ e, cache !! cid = Some e → IpfsRoute.data e = content) →
      IpfsRoute.GET t1 t1' (Normal cid) w1 cache = (cache1, tr1, Normal r1) →
      IpfsRoute.status r1 = 200 →
      IpfsRoute.GET t2 t2' (Normal cid) w2 cache1 = (cache2, tr2, Normal r2) →
      IpfsRoute.status r2 = 200 →
      r1 = r2 ∧ IpfsRoute.body r1 = content).
Proof.
  split_and!; [done| |].
  - intros w1 t1 t1' cache cid cache1 tr1 r1 Hrun Hstatus.
    destruct (GET_success_cases _ _ _ _ _ _ _ _ Hrun Hstatus)
      as (Hne & Hr & [(e & He & Hd & -> & _)|(g & _ & _ & ->)]).
    + exists e. split_and!; [done..|]. intros w2 t2 t2' Hfresh.
      rewrite (GET_cached _ _ _ _ _ e) by done. by rewrite Hd, <- Hr.
    + eexists. split_and!; [apply lookup_insert_eq|done|].
      intros w2 t2 t2' Hfresh.
      erewrite GET_cached; [|done|apply lookup_insert_eq|done]. cbn. by rewrite <- Hr.
  - intros content cid w1 w2 t1 t1' t2 t2' cache cache1 cache2 tr1 tr2 r1 r2
      Hw1 Hw2 Hcache Hrun1 Hs1 Hrun2 Hs2.
    destruct (GET_success_cases _ _ _ _ _ _ _ _ Hrun1 Hs1) as (_ & Hr1 & Hcase1).
    destruct (GET_success_cases _ _ _ _ _ _ _ _ Hrun2 Hs2) as (_ & Hr2 & Hcase2).
    assert (Hb1 : IpfsRoute.body r1 = content).
    { destruct Hcase1 as [(e & He & Hd & _)|(g & Hin & Hg & _)].
      - rewrite <- Hd. by apply Hcache.
      - by apply (Hw1 g). }
    assert (Hcache1 : ∀ e, cache1 !! cid = Some e → IpfsRoute.data e = content).
    { destruct Hcase1 as [(e & _ & _ & -> & _)|(g & _ & _ & ->)]; [done|].
      intros e He. rewrite lookup_insert_eq in He. by simplify_eq. }
    assert (Hb2 : IpfsRoute.body r2 = content).
    { destruct Hcase2 as [(e & He & Hd & _)|(g & Hin & Hg & _)].
      - rewrite <- Hd. by apply Hcache1.
      - by apply (Hw2 g). }
    split; [|done]. rewrite Hr1, Hr2. congruence.
Qed.

Lemma resolution_idempotent_and_cached_witness :
  let first := IpfsRoute.GET 1000 2000 (Normal (u16 "QmA")) Example.pinata_down ∅ in
  ∃ e, final_state first !! u16 "QmA" = Some e
       ∧ IpfsRoute.data e = JObj [(u16 "title", JStr (u16 "Plank"))]
       ∧ ∀ w2 t2 t2', t2 - IpfsRoute.timestamp e < IpfsRoute.CACHE_TTL →
           IpfsRoute.GET t2 t2' (Normal (u16 "QmA")) w2 (final_state first)
           = (final_state first, [],
              Normal (IpfsRoute.json_response (JObj [(u16 "title", JStr (u16 "Plank"))]))).
Proof.
  apply (proj1 (proj2 resolution_idempotent_and_cached) Example.pinata_down 1000 2000 ∅
           (u16 "QmA") _
           (Spec.attempts (u16 "QmA")
              [u16 "https://gateway.pinata.cloud/ipfs"; u16 "https://ipfs.io/ipfs"])
           (IpfsRoute.json_response (JObj [(u16 "title", JStr (u16 "Plank"))]))).
  - vm_compute. reflexivity.
  - reflexivity.
Defined.

(** ** [useBountiesData]: defaults for failed reads *)

Lemma parse_bounties_acc data addresses i acc :
  Hooks.parse_bounties data addresses i acc
  = acc ++ Hooks.parse_bounties data addresses i [].
Proof.
  revert i acc. induction addresses as [|addr rest IH]; intros i acc; cbn.
  - by rewrite app_nil_r.
  - destruct (Hooks.result_at data (i * 6) ≫= Hooks.as_address) as [a|].
    + rewrite IH, (IH _ [_]). by rewrite <- app_assoc.
    + done.
Qed.

Lemma parse_bounties_app data pre post i :
  Hooks.parse_bounties data (pre ++ post) i []
  = Hooks.parse_bounties data pre i []
    ++ Hooks.parse_bounties data post (i + length pre) [].
Proof.
  revert i. induction pre as [|addr pre IH]; intros i; cbn [app length].
  - by rewrite Nat.add_0_r.
  - cbn [Hooks.parse_bounties].
    rewrite parse_bounties_acc, (parse_bounties_acc _ pre), IH.
    rewrite <- app_assoc. do 3 f_equal. lia.
Qed.

(** C10: in the many-bounties projection a failed read is absorbed, field
    by field.  For the address at position [length pre] of the batch: when
    its issuer read failed, the result is that of the other addresses alone,
    the bounty is left out.  When its issuer read succeeded, the bounty is in
    the result, at its place, with that address and issuer, and each of its
    five other fields follows its own read, whatever the other reads gave: a
    failed [metadataURI] read gives the empty string, a failed [state] read
    gives OPEN, a failed [joinable] read gives false, a failed [totalStaked]
    or [claimsCount] read gives zero, and a read that succeeded gives its
    value.  With all five failed the record is the default record.
    [useBounty] fills the same defaults field by field, and returns [null]
    when the issuer read has no result. *)
Theorem failed_reads_become_defaults :
  (∀ data pre addr post,
      Hooks.result_at data (length pre * 6) ≫= Hooks.as_address = None →
      Hooks.useBountiesData (Some data) (pre ++ addr :: post)
      = Hooks.parse_bounties data pre 0 []
        ++ Hooks.parse_bounties data post (S (length pre)) [])
  ∧ (∀ data pre addr post a,
      Hooks.result_at data (length pre * 6) = Some (AAddress a) →
      ∃ b, Hooks.useBountiesData (Some data) (pre ++ addr :: post)
           = Hooks.parse_bounties data pre 0 []
             ++ b :: Hooks.parse_bounties data post (S (length pre)) []
           ∧ Hooks.address b = addr ∧ Hooks.issuer b = a
           ∧ Spec.fields_by_read b
               (Hooks.result_at data (length pre * 6 + 1))
               (Hooks.result_at data (length pre * 6 + 2))
               (Hooks.result_at data (length pre * 6 + 3))
               (Hooks.result_at data (length pre * 6 + 4))
               (Hooks.result_at data (length pre * 6 + 5))
               Hooks.as_string Hooks.as_uint Hooks.as_bool)
  ∧ (∀ data pre addr post a,
      Hooks.result_at data (length pre * 6) = Some (AAddress a) →
      (∀ k, (1 ≤ k ≤ 5)%nat → Hooks.result_at data (length pre * 6 + k) = None) →
      Hooks.useBountiesData (Some data) (pre ++ addr :: post)
      = Hooks.parse_bounties data pre 0 []
        ++ Spec.default_bounty addr a
        :: Hooks.parse_bounties data post (S (length pre)) [])
  ∧ (∀ addr a, Hooks.state (Spec.default_bounty addr a) = BountyState.OPEN
               ∧ Hooks.metadataURI (Spec.default_bounty addr a) = []
               ∧ Hooks.joinable (Spec.default_bounty addr a) = false
               ∧ Hooks.totalStaked (Spec.default_bounty addr a) = 0
               ∧ Hooks.claimsCount (Spec.default_bounty addr a) = 0)
  ∧ (∀ addr a metadataURI state joinable totalStaked claimsCount currentVote metadata,
      addr ≠ [] →
      ∃ b, Hooks.useBounty_live (Some addr) (Some a) metadataURI state joinable
             totalStaked claimsCount currentVote metadata = Some b
           ∧ Hooks.address b = addr ∧ Hooks.issuer b = a
           ∧ Spec.fields_by_read b
               metadataURI state joinable totalStaked claimsCount Some Some Some)
  ∧ (∀ addr a, addr ≠ [] →
      Hooks.useBounty_live (Some addr) (Some a) None None None None None None None
      = Some (Spec.default_bounty addr a))
  ∧ (∀ addr metadataURI state joinable totalStaked claimsCount currentVote metadata,
      Hooks.useBounty_live addr None metadataURI state joinable totalStaked
        claimsCount currentVote metadata = None).
Proof.
  assert (Hfield : ∀ (R A : Type) (read : option R) (decode : R → option A) (d : A),
            Spec.read_or_default read decode d (default d (read ≫= decode))).
  { intros R A read decode d. split.
    - by intros ->.
    - intros v x -> Hx. cbn. by rewrite Hx. }
  split_and!.
  - intros data pre addr post Hissuer. unfold Hooks.useBountiesData.
    rewrite parse_bounties_app. cbn [Hooks.parse_bounties Nat.add].
    by rewrite Hissuer.
  - intros data pre addr post a Hissuer. unfold Hooks.useBountiesData.
    rewrite parse_bounties_app. cbn [Hooks.parse_bounties Nat.add].
    rewrite Hissuer. cbn [mbind option_bind Hooks.as_address app].
    eexists. split; [by rewrite (parse_bounties_acc _ _ _ [_])|].
    split_and!; [done|done|]. unfold Spec.fields_by_read. cbn.
    split_and!; apply Hfield.
  - intros data pre addr post a Hissuer Hrest. unfold Hooks.useBountiesData.
    rewrite parse_bounties_app. cbn [Hooks.parse_bounties Nat.add].
    rewrite Hissuer, !Hrest by lia. cbn.
    by rewrite (parse_bounties_acc _ _ _ [_]).
  - done.
  - intros addr a metadataURI state joinable totalStaked claimsCount currentVote
      metadata Hne.
    destruct addr as [|c0 addr]; [done|]. cbn. eexists. split; [done|].
    split_and!; [done|done|]. unfold Spec.fields_by_read. cbn.
    split_and!; (split; [by intros ->|by intros v x -> [= ->]]).
  - intros addr a Hne. by destruct addr.
  - intros addr. by destruct addr.
Qed.

Lemma failed_reads_become_defaults_witness :
  Hooks.useBountiesData (Some Example.issuer_only) [u16 "0xa1"]
  = [Spec.default_bounty (u16 "0xa1") (u16 "0x01")].
Proof.
  apply (proj1 (proj2 (proj2 failed_reads_become_defaults)) Example.issuer_only []
           (u16 "0xa1") [] (u16 "0x01")).
  - reflexivity.
  - intros k Hk. destruct k as [|[|[|[|[|[|k]]]]]]; try reflexivity; lia.
Defined.

(** A lone failed [state] read: the bounty is listed as OPEN, with the
    other fields as they were read. *)
Example failed_state_read_is_open :
  Hooks.useBountiesData
    (Some [ Hooks.mkRead (Some (AAddress (u16 "0x01")));
            Hooks.mkRead (Some (AString (u16 "ipfs://QmA")));
            Hooks.mkRead None;
            Hooks.mkRead (Some (ABool true));
            Hooks.mkRead (Some (AUint 5));
            Hooks.mkRead (Some (AUint 2)) ])
    [u16 "0xa1"]
  = [ {| Hooks.address := u16 "0xa1"; Hooks.issuer := u16 "0x01";
         Hooks.metadataURI := u16 "ipfs://QmA"; Hooks.state := BountyState.OPEN;
         Hooks.joinable := true; Hooks.totalStaked := 5; Hooks.claimsCount := 2;
         Hooks.metadata := None; Hooks.currentVote := None |} ].
Proof. reflexivity. Qed.

(** ** Validation in the create form *)

Lemma drop_while_nil p (l : jsstring) : JS.drop_while p l = [] ↔ forallb p l = true.
Proof.
  induction l as [|x l IH]; cbn; [done|].
  destruct (p x); cbn; [done|]. split; discriminate.
Qed.

Lemma trim_blank s : JS.trim s = [] ↔ Spec.blank s.
Proof.
  unfold JS.trim, JS.trimEnd, JS.trimStart, Spec.blank. split.
  - intros H. apply (f_equal reverse) in H. rewrite reverse_involutive in H.
    cbn in H. apply drop_while_nil in H.
    rewrite <- (reverse_involutive (JS.drop_while JS.is_ws s)) in H.
    assert (Hrev : ∀ l, forallb JS.is_ws (reverse l) = forallb JS.is_ws l).
    { intros l. induction l as [|x l IHl]; [done|].
      rewrite reverse_cons, forallb_app, IHl. cbn. by rewrite andb_true_r, andb_comm. }
    rewrite !Hrev in H.
    assert (Hstart : JS.drop_while JS.is_ws s = []).
    { destruct (JS.drop_while JS.is_ws s) as [|x r] eqn:E; [done|].
      exfalso. cbn in H. apply andb_true_iff in H as [Hx _].
      clear -E Hx. induction s as [|y s IH]; [done|].
      cbn [JS.drop_while] in E. destruct (JS.is_ws y) eqn:Hy; [by apply IH|].
      injection E as -> _. congruence. }
    by apply drop_while_nil.
  - intros H. apply drop_while_nil in H. by rewrite H.
Qed.

Lemma non_positive_le_zero x : Spec.non_positive x → JS.le_zero x = true.
Proof.
  destruct x as [|neg|neg m e]; cbn; [done|done|].
  intros [->| ->]; [done|]. by rewrite orb_true_r.
Qed.

(** C7: a create-bounty submission whose title or description is empty or
    white space only, or whose amount is missing or parses to a number that
    is not positive, is rejected by [handleSubmit] at once: it makes no call
    at all (no wallet connection, no upload, no contract write), completes
    normally, and changes nothing of the form state but the error message,
    which is "Title and description are required" for a blank title or
    description and "Please enter a valid amount" otherwise. *)
Theorem create_validation_rejects_locally
    (parseEther : jsstring → completion Z) (wallet : Handler.wallet)
    (captured current : CreatePage.form) (w : world) :
  Spec.blank (CreatePage.title captured) ∨ Spec.blank (CreatePage.description captured)
  ∨ CreatePage.amount captured = []
  ∨ Spec.non_positive (JS.parseFloat (CreatePage.amount captured)) →
  ∃ msg,
    CreatePage.handleSubmit parseEther wallet captured w current
    = (Spec.with_error current msg, [], Normal ())
    ∧ (Spec.blank (CreatePage.title captured)
       ∨ Spec.blank (CreatePage.description captured) →
       msg = u16 "Title and description are required")
    ∧ (¬ Spec.blank (CreatePage.title captured) →
       ¬ Spec.blank (CreatePage.description captured) →
       msg = u16 "Please enter a valid amount").
Proof.
  intros Hbad. unfold CreatePage.handleSubmit.
  destruct (JS.trim (CreatePage.title captured)) as [|c1 t1] eqn:Ht.
  { exists (u16 "Title and description are required"). split_and!; [done|done|].
    intros Hn. by apply trim_blank in Ht. }
  destruct (JS.trim (CreatePage.description captured)) as [|c2 t2] eqn:Hd.
  { exists (u16 "Title and description are required"). split_and!; [done|done|].
    intros _ Hn. by apply trim_blank in Hd. }
  assert (Hnt : ¬ Spec.blank (CreatePage.title captured)).
  { intros Hb%trim_blank. congruence. }
  assert (Hnd : ¬ Spec.blank (CreatePage.description captured)).
  { intros Hb%trim_blank. congruence. }
  cbn [JS.truthy_str negb orb].
  exists (u16 "Please enter a valid amount").
  split_and!; [|by intros [?|?]|done].
  destruct Hbad as [?|[?|[Hempty|Hnp]]]; [done|done| |].
  - by rewrite Hempty.
  - rewrite (non_positive_le_zero _ Hnp), orb_true_r. done.
Qed.

Lemma create_validation_rejects_locally_witness :
  ∃ msg,
    CreatePage.handleSubmit (λ _, Normal 500000000000000000)
      (Example.connected "0x1234567890abcdef1234567890abcdef12345678")
      Example.blank_title_form Example.offline Example.blank_title_form
    = (Spec.with_error Example.blank_title_form msg, [], Normal ())
    ∧ (Spec.blank (CreatePage.title Example.blank_title_form)
       ∨ Spec.blank (CreatePage.description Example.blank_title_form) →
       msg = u16 "Title and description are required")
    ∧ (¬ Spec.blank (CreatePage.title Example.blank_title_form) →
       ¬ Spec.blank (CreatePage.description Example.blank_title_form) →
       msg = u16 "Please enter a valid amount").
Proof.
  apply create_validation_rejects_locally. left. vm_compute. reflexivity.
Defined.

(** [handleJoin] validates the stake amount in the same way. *)
Lemma join_validation_rejects_locally
    (parseEther : jsstring → completion Z) (wallet : Handler.wallet)
    (bountyAddress : jsstring) (captured current : BountyPage.ui) (w : world) :
  BountyPage.joinAmount captured = []
  ∨ Spec.non_positive (JS.parseFloat (BountyPage.joinAmount captured)) →
  BountyPage.handleJoin parseEther wallet bountyAddress captured w current
  = ({| BountyPage.joinAmount := BountyPage.joinAmount current;
        BountyPage.claimName := BountyPage.claimName current;
        BountyPage.error := Some (u16 "Please enter a valid amount") |},
     [], Normal ()).
Proof.
  intros [Hempty|Hnp]; unfold BountyPage.handleJoin.
  - by rewrite Hempty.
  - by rewrite (non_positive_le_zero _ Hnp), orb_true_r.
Qed.

(** ** Resolving a vote *)

(** On the bounty page the button is there exactly when the deadline has
    passed or all of the stake has voted. *)
Lemma bounty_page_resolve_offered v b vs :
  BountyPage.isLoading v = false → BountyPage.bounty v = Some b →
  Hooks.state b = BountyState.VOTING → BountyPage.voteState v = Some vs →
  Hooks.deadline vs ≠ 0 →
  BountyPage.resolve_offered v = true
  ↔ Hooks.deadline vs * 1000 < BountyPage.now v
    ∨ Hooks.totalStaked b ≤ Hooks.yes vs + Hooks.no vs.
Proof.
  intros Hl Hb Hs Hvs Hd.
  unfold BountyPage.resolve_offered, BountyPage.votingActions,
    BountyPage.canResolveVote, BountyPage.isVotingExpired, BountyPage.allVotesCast,
    BountyPage.votingDeadline, BountyPage.totalVoted.
  rewrite Hl, Hb, Hvs, Hs. cbn.
  rewrite (proj2 (Z.eqb_neq _ _) Hd).
  assert (Hd' : Hooks.deadline vs * 1000 ≠ 0) by lia.
  rewrite (proj2 (Z.eqb_neq _ _) Hd').
  destruct (Z.ltb_spec (Hooks.deadline vs * 1000) (BountyPage.now v)); cbn.
  - split; [intros _; by left|done].
  - destruct (Z.leb_spec (Hooks.totalStaked b) (Hooks.yes vs + Hooks.no vs)); cbn.
    + split; [intros _; by right|done].
    + split; [|intros [?|?]; lia].
      destruct (_ && _); [done|]. by destruct (_ && _).
Qed.

(** On the claim page the button is there only once the deadline has
    passed; the votes cast play no part. *)
Lemma claim_page_resolve_offered v :
  ClaimPage.resolve_offered v = true →
  ∃ vs, ClaimPage.voteState v = Some vs
        ∧ Hooks.deadline vs * 1000 < ClaimPage.now v.
Proof.
  unfold ClaimPage.resolve_offered, ClaimPage.isVotingExpired, ClaimPage.votingDeadline.
  intros [[_ Hvs]%andb_true_iff Hexp]%andb_true_iff.
  destruct (ClaimPage.voteState v) as [vs|]; [|done]. exists vs. split; [done|].
  destruct (Hooks.deadline vs =? 0); [done|].
  destruct (_ =? 0); [done|]. by apply Z.ltb_lt.
Qed.

(** C1 (the code at the failing input): in [Example.voting_bounty] the votes
    cast equal the total stake and the deadline lies ahead; the bounty page
    offers "Resolve Vote", the claim page of the claim under vote does not. *)
Theorem claim_page_ignores_all_votes_cast :
  Hooks.yes Example.all_voted + Hooks.no Example.all_voted
  = Hooks.totalStaked Example.voting_bounty
  ∧ ClaimPage.now Example.all_voted_claim_page < Hooks.deadline Example.all_voted * 1000
  ∧ ClaimPage.isVotingOnThis Example.all_voted_claim_page = true
  ∧ BountyPage.resolve_offered Example.all_voted_bounty_page = true
  ∧ ClaimPage.resolve_offered Example.all_voted_claim_page = false.
Proof. by vm_compute. Qed.

(** ** Starting a vote *)

Lemma handleStartVote_connected w wallet v st a :
  Handler.wallet_address wallet = Some a → a ≠ [] →
  ClaimPage.handleStartVote wallet v w st
  = ({| ClaimPage.error := None |},
     [WriteContract {| w_account := Some a;
                       w_address := ClaimPage.bountyAddress v;
                       w_functionName := u16 "initiateVote";
                       w_args := [AUint (ClaimPage.claimId v)];
                       w_value := None |}],
     Normal ()).
Proof.
  intros Ha Hne. unfold ClaimPage.handleStartVote, Handler.target_address.
  rewrite Ha. destruct a; [done|]. done.
Qed.

(** An address without standing that calls [handleStartVote] on a joinable
    OPEN bounty reaches the chain client. *)
Lemma outsider_startVote_submitted : ¬ Spec.startVote_guarded.
Proof.
  intros Hguard.
  destruct (Hguard (Example.connected "0x0f") Example.outsider_claim_page
              Example.offline {| ClaimPage.error := None |} _
              eq_refl eq_refl eq_refl eq_refl eq_refl) as [Hnowrite _].
  eapply Hnowrite.
  rewrite (handleStartVote_connected _ _ _ _ (u16 "0x0f")) by done.
  unfold trace. cbn [fst snd]. left.
Qed.

(** C2 (amended): the "Select for Voting" button is rendered only on an
    OPEN, joinable bounty and only for its issuer, hence only for an actor
    with standing; an actor who is neither issuer nor funder is never offered
    it.  The handler checks no standing: called with a connected wallet it
    clears the error and submits the [initiateVote] write. *)
Theorem startVote_offered_only_with_standing :
  (∀ v, ClaimPage.startVote_offered v = true →
      ∃ b, ClaimPage.bounty v = Some b
           ∧ Hooks.state b = BountyState.OPEN ∧ Hooks.joinable b = true
           ∧ ClaimPage.isIssuer v = true ∧ ClaimPage.canStartVote v = true)
  ∧ (∀ v, ClaimPage.isIssuer v = false → ClaimPage.hasStake v = false →
      ClaimPage.startVote_offered v = false)
  ∧ (∀ w wallet v st a,
      Handler.wallet_address wallet = Some a → a ≠ [] →
      ClaimPage.handleStartVote wallet v w st
      = ({| ClaimPage.error := None |},
         [WriteContract {| w_account := Some a;
                           w_address := ClaimPage.bountyAddress v;
                           w_functionName := u16 "initiateVote";
                           w_args := [AUint (ClaimPage.claimId v)];
                           w_value := None |}],
         Normal ())).
Proof.
  assert (Hoffered : ∀ v, ClaimPage.startVote_offered v = true →
      ∃ b, ClaimPage.bounty v = Some b
           ∧ Hooks.state b = BountyState.OPEN ∧ Hooks.joinable b = true
           ∧ ClaimPage.isIssuer v = true ∧ ClaimPage.canStartVote v = true).
  { intros v. unfold ClaimPage.startVote_offered, ClaimPage.actions,
      ClaimPage.canStartVote.
    destruct (negb (ClaimPage.rendered v)); [done|].
    destruct (ClaimPage.bounty v) as [b|] eqn:Hb; [|done].
    destruct (_ && _ && _); [done|].
    case_bool_decide as Hopen; cbn; [|done].
    destruct (ClaimPage.isIssuer v); cbn; [|done].
    destruct (Hooks.joinable b) eqn:Hj; [|done]. intros _. by exists b. }
  split_and!; [done| |].
  - intros v Hi _. destruct (ClaimPage.startVote_offered v) eqn:E; [|done].
    destruct (Hoffered v E) as (b & _ & _ & _ & Hi' & _). congruence.
  - intros w wallet v st a. apply handleStartVote_connected.
Qed.

Lemma startVote_offered_only_with_standing_witness :
  ClaimPage.startVote_offered Example.outsider_claim_page = false.
Proof.
  apply (proj1 (proj2 startVote_offered_only_with_standing)); reflexivity.
Defined.

(** ** Voting once per round *)

Lemma bounty_page_vote_offered v :
  BountyPage.vote_offered v = true →
  BountyPage.hasStake v = true ∧ BountyPage.hasVoted v ≠ Some true.
Proof.
  unfold BountyPage.vote_offered, BountyPage.votingActions.
  destruct (BountyPage.isLoading v); [done|].
  destruct (BountyPage.bounty v) as [b|]; [|done].
  case_bool_decide; [|done].
  destruct (BountyPage.canResolveVote v); [done|].
  destruct (BountyPage.hasStake v); cbn; [|done].
  destruct (BountyPage.hasVoted v) as [[|]|]; cbn; done.
Qed.

Lemma claim_page_vote_offered v :
  ClaimPage.vote_offered v = true →
  ClaimPage.hasStake v = true ∧ ClaimPage.hasVoted v ≠ Some true.
Proof.
  unfold ClaimPage.vote_offered, ClaimPage.actions.
  destruct (negb (ClaimPage.rendered v)); [done|].
  destruct (ClaimPage.bounty v) as [b|]; [|done].
  destruct (ClaimPage.isVotingOnThis v && negb (ClaimPage.truthy_bool (ClaimPage.hasVoted v))
            && ClaimPage.hasStake v) eqn:Hvote.
  - apply andb_true_iff in Hvote as [[_ Hnv]%andb_true_iff Hs]. intros _.
    split; [done|]. intros Hv. rewrite Hv in Hnv. done.
  - destruct (bool_decide (Hooks.state b = BountyState.OPEN) && ClaimPage.isIssuer v);
      [|done].
    by destruct (Hooks.joinable b).
Qed.

(** With the live data source the flag the pages see is the contract's
    flag for the user and the round of the current vote state. *)
Lemma useHasVoted_live c ba u r :
  ba ≠ [] → u ≠ [] →
  Hooks.useHasVoted false c (Some ba) (Some u) (Some r)
  = Hooks.account_Round_HasVoted c ba u r.
Proof. intros. unfold Hooks.useHasVoted. by destruct ba, u. Qed.

Lemma useUserStake_live mf c ba u :
  ba ≠ [] → u ≠ [] →
  Hooks.useUserStake false mf c (Some ba) (Some u) = Hooks.account_Stake c ba u.
Proof. intros. unfold Hooks.useUserStake. by destruct ba, u. Qed.

(** With the fixtures ([DEMO_MODE], as shipped) the flag is looked up by
    bounty and user alone: the round plays no part. *)
Lemma useHasVoted_demo_ignores_round c ba u r1 r2 :
  Hooks.useHasVoted true c (Some ba) (Some u) r1
  = Hooks.useHasVoted true c (Some ba) (Some u) r2.
Proof.
  unfold Hooks.useHasVoted. cbn.
  destruct (JS.truthy_str ba && JS.truthy_str u); [done|].
  cbn. by destruct r1, r2.
Qed.

(** C3: on both pages the vote buttons are not offered to a user whose
    has-voted flag is true, nor to a user without stake.  With the live
    data source the flag read is the contract's flag for the user and the
    round of the current vote state; so a funder (stake > 0) who voted in
    round N, and not yet in round N + 1, is offered the vote again once the
    vote state is at round N + 1: on the bounty page while the vote cannot be
    resolved yet, on the page of the claim under vote always. *)
Theorem vote_offered_once_per_round :
  (∀ v, BountyPage.hasVoted v = Some true → BountyPage.vote_offered v = false)
  ∧ (∀ v, ClaimPage.hasVoted v = Some true → ClaimPage.vote_offered v = false)
  ∧ (∀ v, BountyPage.hasStake v = false → BountyPage.vote_offered v = false)
  ∧ (∀ v, ClaimPage.hasStake v = false → ClaimPage.vote_offered v = false)
  ∧ (∀ mf c ba u b vs loading now,
      ba ≠ [] → u ≠ [] →
      BountyPage.hasVoted
        (BountyPage.hooks false mf c ba (Some u) b (Some vs) loading now)
      = Hooks.account_Round_HasVoted c ba u (Hooks.votingRound vs))
  ∧ (∀ mf c ba cl u b claims vs loading now,
      ba ≠ [] → u ≠ [] →
      ClaimPage.hasVoted
        (ClaimPage.hooks false mf c ba cl (Some u) b claims (Some vs) loading now)
      = Hooks.account_Round_HasVoted c ba u (Hooks.votingRound vs))
  ∧ (∀ mf c ba u b vs now s N,
      ba ≠ [] → u ≠ [] →
      Hooks.account_Stake c ba u = Some s → 0 < s →
      Hooks.state b = BountyState.VOTING →
      Hooks.account_Round_HasVoted c ba u N = Some true →
      Hooks.account_Round_HasVoted c ba u (N + 1) = Some false →
      Hooks.votingRound vs = N + 1 →
      let v := BountyPage.hooks false mf c ba (Some u) (Some b) (Some vs) false now in
      BountyPage.canResolveVote v = false →
      BountyPage.vote_offered v = true)
  ∧ (∀ mf c ba u b claims vs now s N,
      ba ≠ [] → u ≠ [] →
      Hooks.account_Stake c ba u = Some s → 0 < s →
      Hooks.state b = BountyState.VOTING →
      Hooks.account_Round_HasVoted c ba u N = Some true →
      Hooks.account_Round_HasVoted c ba u (N + 1) = Some false →
      Hooks.votingRound vs = N + 1 →
      let v := ClaimPage.hooks false mf c ba (Hooks.claimId vs) (Some u) (Some b)
                 claims (Some vs) false now in
      is_Some (ClaimPage.claim v) →
      ClaimPage.vote_offered v = true).
Proof.
  split_and!.
  - intros v Hv. destruct (BountyPage.vote_offered v) eqn:E; [|done].
    by destruct (bounty_page_vote_offered v E).
  - intros v Hv. destruct (ClaimPage.vote_offered v) eqn:E; [|done].
    by destruct (claim_page_vote_offered v E).
  - intros v Hs. destruct (BountyPage.vote_offered v) eqn:E; [|done].
    destruct (bounty_page_vote_offered v E). congruence.
  - intros v Hs. destruct (ClaimPage.vote_offered v) eqn:E; [|done].
    destruct (claim_page_vote_offered v E). congruence.
  - intros mf c ba u b vs loading now Hba Hu. cbn. by apply useHasVoted_live.
  - intros mf c ba cl u b claims vs loading now Hba Hu. cbn. by apply useHasVoted_live.
  - intros mf c ba u b vs now s N Hba Hu Hstake Hs Hstate _ Hfalse Hround v Hres.
    unfold BountyPage.vote_offered, BountyPage.votingActions. rewrite Hres.
    unfold BountyPage.hasStake. subst v.
    cbn [BountyPage.hooks BountyPage.isLoading BountyPage.bounty BountyPage.userStake
         BountyPage.hasVoted fmap option_fmap option_map].
    rewrite useHasVoted_live, useUserStake_live, Hround, Hfalse, Hstake by done.
    rewrite bool_decide_eq_true_2 by done.
    cbn. destruct (Z.eqb_spec s 0); [lia|]. by rewrite (proj2 (Z.ltb_lt 0 s) Hs).
  - intros mf c ba u b claims vs now s N Hba Hu Hstake Hs Hstate _ Hfalse Hround v Hclaim.
    unfold ClaimPage.vote_offered, ClaimPage.actions, ClaimPage.rendered,
      ClaimPage.isVotingOnThis, ClaimPage.hasStake, ClaimPage.votingClaimId.
    rewrite (bool_decide_eq_true_2 _ Hclaim). subst v.
    cbn [ClaimPage.hooks ClaimPage.isLoading ClaimPage.bounty ClaimPage.userStake
         ClaimPage.hasVoted ClaimPage.voteState ClaimPage.claimId
         fmap option_fmap option_map].
    rewrite useHasVoted_live, useUserStake_live, Hround, Hfalse, Hstake by done.
    rewrite !bool_decide_eq_true_2 by (done || by eexists).
    cbn. destruct (Z.eqb_spec s 0); [lia|]. by rewrite (proj2 (Z.ltb_lt 0 s) Hs).
Qed.

Lemma vote_offered_once_per_round_witness :
  let page (r : Z) :=
    BountyPage.hooks false (λ _, []) Example.voted_in_round_1 (u16 "0xb0")
      (Some (u16 "0x02")) (Some Example.voting_bounty) (Some (Example.round r))
      false 1000000 in
  BountyPage.vote_offered (page 1) = false ∧ BountyPage.vote_offered (page 2) = true.
Proof.
  split.
  - apply (proj1 vote_offered_once_per_round). vm_compute. reflexivity.
  - apply (proj1 (proj2 (proj2 (proj2 (proj2 (proj2 (proj2 vote_offered_once_per_round))))))
             (λ _, []) Example.voted_in_round_1 (u16 "0xb0") (u16 "0x02")
             Example.voting_bounty (Example.round 2) 1000000 3 1).
    all: try discriminate.
    all: try reflexivity.
Defined.

(** * Further properties of the code *)

(** ** [src/lib/ipfs.ts] *)

Lemma replace_prefix p t rep : JS.replace (p ++ t) p rep = rep ++ t.
Proof.
  destruct (p ++ t) as [|x r] eqn:E.
  - apply app_eq_nil in E as [-> ->]. done.
  - cbn [JS.replace]. by rewrite <- E, startsWith_app, drop_app_length.
Qed.

(** X1: [toIPFSUri] always yields a URI with the scheme, is idempotent, is
    undone by stripping the scheme, and does not change the gateway URL of a
    non-empty identifier. *)
Theorem toIPFSUri_roundtrip :
  (∀ c, JS.startsWith (Ipfs.toIPFSUri c) (u16 "ipfs://") = true)
  ∧ (∀ c, Ipfs.toIPFSUri (Ipfs.toIPFSUri c) = Ipfs.toIPFSUri c)
  ∧ (∀ c, JS.startsWith c (u16 "ipfs://") = false →
          JS.replace (Ipfs.toIPFSUri c) (u16 "ipfs://") [] = c)
  ∧ (∀ c, c ≠ [] → Ipfs.getIPFSUrl (Ipfs.toIPFSUri c) = Ipfs.getIPFSUrl c).
Proof.
  assert (Hscheme : ∀ c, JS.startsWith (Ipfs.toIPFSUri c) (u16 "ipfs://") = true).
  { intros c. unfold Ipfs.toIPFSUri.
    destruct (JS.startsWith c (u16 "ipfs://")) eqn:E; [done|]. apply startsWith_app. }
  assert (Hstrip : ∀ c, JS.replace (u16 "ipfs://" ++ c) (u16 "ipfs://") [] = c).
  { intros c. apply (replace_prefix (u16 "ipfs://") c []). }
  split_and!; [done| | |].
  - intros c. unfold Ipfs.toIPFSUri at 1. by rewrite Hscheme.
  - intros c Hc. unfold Ipfs.toIPFSUri. rewrite Hc. apply Hstrip.
  - intros c Hne. unfold Ipfs.toIPFSUri.
    destruct (JS.startsWith c (u16 "ipfs://")) eqn:Hc; [done|].
    unfold Ipfs.getIPFSUrl. rewrite startsWith_app, Hc, Hstrip.
    by destruct c.
Qed.

(** X2: the gateway URL of a non-empty alphanumeric identifier resolves as
    the identifier itself: [fetchFromIPFS (getIPFSUrl c)] makes the request
    of [fetchFromIPFS c] and completes alike. *)
Theorem getIPFSUrl_resolves_alike {St : Type} (w : world) (s : St) (c : jsstring) :
  c ≠ [] → forallb JS.is_alnum c = true →
  Ipfs.fetchFromIPFS (Ipfs.getIPFSUrl c) w s = Ipfs.fetchFromIPFS c w s.
Proof.
  intros Hne Hc.
  assert (Hurl : Ipfs.getIPFSUrl c
                 = u16 "https://gateway.pinata.cloud" ++ u16 "/ipfs/" ++ c ++ []).
  { unfold Ipfs.getIPFSUrl. rewrite alnum_no_scheme by done.
    destruct c; [done|]. by rewrite app_nil_r. }
  rewrite Hurl.
  by apply (fetchFromIPFS_alnum w s c (u16 "https://gateway.pinata.cloud") []).
Qed.

Lemma getIPFSUrl_resolves_alike_witness :
  Ipfs.fetchFromIPFS (Ipfs.getIPFSUrl (u16 "QmA")) Example.pinata_down ()
  = Ipfs.fetchFromIPFS (u16 "QmA") Example.pinata_down ().
Proof.
  apply getIPFSUrl_resolves_alike; [discriminate|reflexivity].
Defined.

(** Unreserved code units and the digits of an escape are safe. *)
Lemma is_unreserved_safe c : JS.is_unreserved c = true → SpecX.url_safe c.
Proof.
  intros H. split_and!; intros ->; vm_compute in H; discriminate H.
Qed.

Lemma hex_digit_safe d : SpecX.url_safe (JS.hex_digit d).
Proof.
  unfold JS.hex_digit, SpecX.url_safe.
  destruct (N.ltb_spec d 10); lia.
Qed.

Lemma percent_safe (bytes : list N) : Forall SpecX.url_safe (flat_map JS.percent bytes).
Proof.
  induction bytes as [|b bytes IH]; [constructor|]. cbn.
  repeat constructor; try apply hex_digit_safe; try done.
Qed.

Lemma encodeURIComponent_safe s p :
  JS.encodeURIComponent s = Normal p → Forall SpecX.url_safe p.
Proof.
  remember (length s) as n eqn:Hn. revert s p Hn.
  induction (lt_wf n) as [n _ IH]. intros s p Hn Henc.
  destruct s as [|c r]; cbn in Henc; [by simplify_eq|].
  assert (Htail : ∀ (pre : list N) (t : jsstring) q,
            (length t < n)%nat → Forall SpecX.url_safe pre →
            JS.cons_all pre (JS.encodeURIComponent t) = Normal q →
            Forall SpecX.url_safe q).
  { intros pre t q Hlt Hpre Hq. unfold JS.cons_all in Hq.
    destruct (JS.encodeURIComponent t) as [pt|] eqn:Ht; [|done].
    injection Hq as <-. apply Forall_app. split; [done|].
    by apply (IH (length t) Hlt t pt). }
  cbn in Hn.
  destruct (JS.is_unreserved c) eqn:Hc.
  { apply (Htail [c] r); [lia| |done]. constructor; [|done].
    by apply is_unreserved_safe. }
  destruct (JS.is_trail_surrogate c); [done|].
  destruct (JS.is_lead_surrogate c).
  - destruct r as [|c2 r']; [done|]. destruct (JS.is_trail_surrogate c2); [|done].
    apply (Htail _ r' _ ltac:(cbn in Hn; lia) (percent_safe _) Henc).
  - apply (Htail _ r _ ltac:(lia) (percent_safe _) Henc).
Qed.

(** X3: every request of [fetchFromIPFS] is a plain GET.  It goes to the
    given URL itself only when that is an https URL in which the regular
    expression finds no identifier; otherwise it goes to [/api/ipfs/p] for a
    [p] that holds no [/], [?] or [#].  Nothing more is escaped: [p] can be
    empty or a dot segment (see [fetchFromIPFS_dot_segment]). *)
Theorem fetchFromIPFS_request_shape (w : world) (uri : jsstring) (r : request) :
  Spec.requests w uri = [Fetch r] →
  req_method r = HttpGet ∧ req_body r = None ∧ req_headers r = []
  ∧ ((JS.startsWith uri (u16 "https://") = true ∧ JS.match_ipfs uri = None
      ∧ req_url r = uri)
     ∨ ∃ p, req_url r = u16 "/api/ipfs/" ++ p ∧ Forall SpecX.url_safe p).
Proof.
  unfold Spec.requests, Ipfs.fetchFromIPFS.
  destruct (negb (JS.truthy_str uri)); [done|].
  assert (Hroute : ∀ cid,
    trace (Eff.try_catch
        (path ← Eff.lift (JS.encodeURIComponent cid);
         response ← Eff.fetch (Ipfs.get_request (u16 "/api/ipfs/" ++ path));
         if negb (ok response) then mret JNull else Eff.lift (json_body response))
        (λ _, mret JNull) w ()) = [Fetch r] →
    req_method r = HttpGet ∧ req_body r = None ∧ req_headers r = []
    ∧ ∃ p, req_url r = u16 "/api/ipfs/" ++ p ∧ Forall SpecX.url_safe p).
  { intros cid. eff_unfold. cbn.
    destruct (JS.encodeURIComponent cid) as [path|e] eqn:Henc; cbn; [|done].
    intros Htr.
    assert (r = Ipfs.get_request (u16 "/api/ipfs/" ++ path)) as ->.
    { destruct (fetch_result w _) as [resp|e]; cbn in Htr.
      - destruct (negb (ok resp)); cbn in Htr; [by simplify_eq|].
        destruct (json_body resp); cbn in Htr; by simplify_eq.
      - by simplify_eq. }
    split_and!; [done..|]. exists path. split; [done|].
    by apply (encodeURIComponent_safe cid). }
  destruct (JS.startsWith uri (u16 "ipfs://")).
  { intros H. destruct (Hroute _ H) as (? & ? & ? & ?). split_and!; [done..|]. by right. }
  destruct (JS.startsWith uri (u16 "https://")) eqn:Hhttps.
  2:{ intros H. destruct (Hroute _ H) as (? & ? & ? & ?). split_and!; [done..|]. by right. }
  destruct (JS.match_ipfs uri) eqn:Hm.
  { intros H. destruct (Hroute _ H) as (? & ? & ? & ?). split_and!; [done..|]. by right. }
  eff_unfold. cbn. intros Htr.
  assert (r = Ipfs.get_request uri) as ->.
  { destruct (fetch_result w _) as [resp|e]; cbn in Htr.
    - destruct (negb (ok resp)); cbn in Htr; [by simplify_eq|].
      destruct (json_body resp); cbn in Htr; by simplify_eq.
    - by simplify_eq. }
  split_and!; [done..|]. by left.
Qed.

Lemma fetchFromIPFS_request_shape_witness :
  let uri := u16 "ipfs://../../admin" in
  let r := Ipfs.get_request (u16 "/api/ipfs/..%2F..%2Fadmin") in
  req_method r = HttpGet ∧ req_body r = None ∧ req_headers r = []
  ∧ ((JS.startsWith uri (u16 "https://") = true ∧ JS.match_ipfs uri = None
      ∧ req_url r = uri)
     ∨ ∃ p, req_url r = u16 "/api/ipfs/" ++ p ∧ Forall SpecX.url_safe p).
Proof.
  exact (fetchFromIPFS_request_shape Example.offline (u16 "ipfs://../../admin")
           (Ipfs.get_request (u16 "/api/ipfs/..%2F..%2Fadmin")) eq_refl).
Defined.

(** [encodeURIComponent] leaves ["."] alone, so a reference can ask for a
    dot segment or for the bare prefix. *)
Example fetchFromIPFS_dot_segment :
  Spec.requests Example.offline (u16 "ipfs://..")
  = [Fetch (Ipfs.get_request (u16 "/api/ipfs/.."))]
  ∧ Spec.requests Example.offline (u16 "ipfs://")
    = [Fetch (Ipfs.get_request (u16 "/api/ipfs/"))].
Proof. split; vm_compute; reflexivity. Qed.

Lemma take_while_drop_while p (l : jsstring) :
  JS.take_while p l ++ JS.drop_while p l = l.
Proof.
  induction l as [|x l IH]; [done|]. cbn. destruct (p x); [|done]. cbn. by rewrite IH.
Qed.

Lemma take_while_forallb p (l : jsstring) : forallb p (JS.take_while p l) = true.
Proof.
  induction l as [|x l IH]; [done|]. cbn. destruct (p x) eqn:E; [|done]. cbn.
  by rewrite E, IH.
Qed.

Lemma drop_while_head p (l : jsstring) :
  match JS.drop_while p l with [] => True | x :: _ => p x = false end.
Proof.
  induction l as [|x l IH]; [done|]. cbn. destruct (p x) eqn:E; [done|]. by cbn.
Qed.

(** X4: what the regular expression [/\/ipfs\/([a-zA-Z0-9]+)/] captures
    from a string is a non-empty alphanumeric run that stands directly after
    an ["/ipfs/"] of the string and ends at the string's end or before a
    non-alphanumeric code unit; and it finds no match only when no ["/ipfs/"]
    of the string is followed by an alphanumeric code unit. *)
Theorem match_ipfs_characterized :
  (∀ s m, JS.match_ipfs s = Some m →
      m ≠ [] ∧ forallb JS.is_alnum m = true
      ∧ ∃ pre post, s = pre ++ u16 "/ipfs/" ++ m ++ post
                    ∧ match post with [] => True | x :: _ => JS.is_alnum x = false end)
  ∧ (∀ s pre c post, JS.match_ipfs s = None →
      s = pre ++ u16 "/ipfs/" ++ c :: post → JS.is_alnum c = false).
Proof.
  split.
  - intros s m. induction s as [|x r IH]; [done|]. rewrite match_ipfs_cons.
    destruct (JS.startsWith (x :: r) (u16 "/ipfs/")) eqn:Hsw.
    + apply startsWith_true in Hsw as [t Ht]. rewrite Ht.
      change 6%nat with (length (u16 "/ipfs/")). rewrite drop_app_length.
      destruct (JS.take_while JS.is_alnum t) as [|a run] eqn:Hrun.
      * intros Hm. destruct (IH Hm) as (? & ? & pre & post & -> & ?).
        split_and!; [done..|]. exists (x :: pre), post. by rewrite <- Ht.
      * intros Hm. injection Hm as Hm. subst m. split_and!; [done| |].
        -- rewrite <- Hrun. apply take_while_forallb.
        -- exists [], (JS.drop_while JS.is_alnum t). split.
           ++ by rewrite <- Hrun, take_while_drop_while.
           ++ apply drop_while_head.
    + intros Hm. destruct (IH Hm) as (? & ? & pre & post & -> & ?).
      split_and!; [done..|]. by exists (x :: pre), post.
  - intros s pre. revert s. induction pre as [|y pre IH]; intros s c post Hnone ->.
    + change ([] ++ u16 "/ipfs/" ++ c :: post) with (47%N :: u16 "ipfs/" ++ c :: post) in Hnone.
      rewrite match_ipfs_cons in Hnone.
      change (47%N :: u16 "ipfs/" ++ c :: post) with (u16 "/ipfs/" ++ c :: post) in Hnone.
      rewrite startsWith_app in Hnone.
      change 6%nat with (length (u16 "/ipfs/")) in Hnone.
      rewrite drop_app_length in Hnone. cbn [JS.take_while] in Hnone.
      by destruct (JS.is_alnum c).
    + cbn [app] in Hnone. rewrite match_ipfs_cons in Hnone.
      apply (IH (pre ++ u16 "/ipfs/" ++ c :: post) c post); [|done].
      destruct (JS.startsWith _ _); [|done].
      by destruct (JS.take_while _ _).
Qed.

Lemma match_ipfs_characterized_witness :
  let m := u16 "Qm123abc" in
  m ≠ [] ∧ forallb JS.is_alnum m = true
  ∧ ∃ pre post, u16 "https://ipfs.io/ipfs/Qm123abc?x=1" = pre ++ u16 "/ipfs/" ++ m ++ post
                ∧ match post with [] => True | x :: _ => JS.is_alnum x = false end.
Proof.
  exact (proj1 match_ipfs_characterized (u16 "https://ipfs.io/ipfs/Qm123abc?x=1")
           (u16 "Qm123abc") eq_refl).
Defined.

(** ** The route handler [GET /api/ipfs/[cid]] *)

(** All the ways the handler runs. *)
Lemma GET_cases now_check now_store params w cache :
  let run := IpfsRoute.GET now_check now_store params w cache in
  (∃ e, params = Throw e
        ∧ run = (cache, [], Normal (IpfsRoute.error_response "Internal server error" 500)))
  ∨ (params = Normal []
     ∧ run = (cache, [], Normal (IpfsRoute.error_response "CID is required" 400)))
  ∨ (∃ cid e, params = Normal cid ∧ cid ≠ [] ∧ cache !! cid = Some e
        ∧ now_check - IpfsRoute.timestamp e < IpfsRoute.CACHE_TTL
        ∧ run = (cache, [], Normal (IpfsRoute.json_response (IpfsRoute.data e))))
  ∨ (∃ cid, params = Normal cid ∧ cid ≠ [] ∧ Spec.uncached cache cid now_check
        ∧ Forall (λ g, Spec.attempt w cid g = None) IpfsRoute.IPFS_GATEWAYS
        ∧ run = (cache, Spec.attempts cid IpfsRoute.IPFS_GATEWAYS,
                 Normal (IpfsRoute.error_response "Failed to fetch from IPFS" 502)))
  ∨ (∃ cid pre g post d, params = Normal cid ∧ cid ≠ []
        ∧ Spec.uncached cache cid now_check
        ∧ IpfsRoute.IPFS_GATEWAYS = pre ++ g :: post
        ∧ Forall (λ g', Spec.attempt w cid g' = None) pre
        ∧ Spec.attempt w cid g = Some d
        ∧ run = (<[cid := IpfsRoute.mkEntry d now_store]> cache,
                 Spec.attempts cid (pre ++ [g]),
                 Normal (IpfsRoute.json_response d))).
Proof.
  intros run. subst run. destruct params as [cid|e]; [|left; by exists e].
  right. destruct (decide (cid = [])) as [->|Hne]; [by left|]. right.
  assert (Hdec : (∃ e, cache !! cid = Some e
                       ∧ now_check - IpfsRoute.timestamp e < IpfsRoute.CACHE_TTL)
                 ∨ Spec.uncached cache cid now_check).
  { destruct (cache !! cid) as [e|] eqn:He; [|right; intros e' He'; congruence].
    destruct (decide (now_check - IpfsRoute.timestamp e < IpfsRoute.CACHE_TTL)).
    - left. by exists e.
    - right. intros e' He'. simplify_eq. lia. }
  destruct Hdec as [(e & He & Hfresh)|Hun].
  { left. exists cid, e. split_and!; [done..|]. by apply GET_cached. }
  right. rewrite GET_uncached by done.
  destruct (first_success_or_none w cid IpfsRoute.IPFS_GATEWAYS)
    as [Hall|(pre & g & post & d & Hsplit & Hpre & Hg)].
  - left. exists cid. split_and!; [done..|]. by rewrite try_gateways_all_fail.
  - right. exists cid, pre, g, post, d. split_and!; [done..|].
    rewrite Hsplit at 1. by rewrite (try_gateways_first_success _ _ pre g post d).
Qed.

(** X5: the handler always answers: it never throws, and its status is
    200, 400, 500 or 502; 400 exactly for an empty cid, 500 exactly when the
    route parameters cannot be read. *)
Theorem GET_always_answers now_check now_store params w cache :
  ∃ r, outcome (IpfsRoute.GET now_check now_store params w cache) = Normal r
       ∧ IpfsRoute.status r ∈ [200; 400; 500; 502]
       ∧ (IpfsRoute.status r = 400 ↔ params = Normal [])
       ∧ (IpfsRoute.status r = 500 ↔ ∃ e, params = Throw e).
Proof.
  destruct (GET_cases now_check now_store params w cache)
    as [(e & -> & ->)|[(-> & ->)|[(cid & e & -> & Hne & _ & _ & ->)
       |[(cid & -> & Hne & _ & _ & ->)|(cid & pre & g & post & d & -> & Hne & _ & _ & _ & _ & ->)]]]];
    eexists; (split; [reflexivity|]); cbn;
    (split; [repeat constructor|]); split; split; intros H;
    try done; try (by eexists); try (by simplify_eq); try (by destruct H).
Qed.

(** X6: what a request does to the cache.  Entries of other cids are never
    touched and no entry is ever removed.  A request that makes no gateway
    request (a cache hit included) leaves the cache as it is, so a hit does
    not renew the entry's timestamp; so does every answer other than 200.
    An answer of 200 after gateway requests stores the answered document for
    the cid under the time of storing. *)
Theorem GET_cache_effects now_check now_store cid w cache :
  let run := IpfsRoute.GET now_check now_store (Normal cid) w cache in
  (∀ k, k ≠ cid → final_state run !! k = cache !! k)
  ∧ (∀ k, is_Some (cache !! k) → is_Some (final_state run !! k))
  ∧ (trace run = [] → final_state run = cache)
  ∧ (∀ r, outcome run = Normal r → IpfsRoute.status r ≠ 200 → final_state run = cache)
  ∧ (∀ r, outcome run = Normal r → IpfsRoute.status r = 200 → trace run ≠ [] →
       final_state run !! cid = Some (IpfsRoute.mkEntry (IpfsRoute.body r) now_store)).
Proof.
  intros run. subst run.
  destruct (GET_cases now_check now_store (Normal cid) w cache)
    as [(e & ? & _)|[(_ & ->)|[(cid' & e & _ & _ & _ & _ & ->)
       |[(cid' & _ & _ & _ & _ & ->)|(cid' & pre & g & post & d & [= <-] & _ & _ & _ & _ & _ & ->)]]]];
    [done|..]; unfold final_state, trace, outcome; cbn [fst snd].
  1-3: split_and!; [done|done|done|done|by intros r [= <-]].
  split_and!.
  - intros k Hk. by rewrite lookup_insert_ne.
  - intros k Hk. destruct (decide (k = cid)) as [->|]; [by rewrite lookup_insert_eq|].
    by rewrite lookup_insert_ne.
  - intros Hnil. by destruct pre.
  - by intros r [= <-].
  - intros r [= <-] _ _. by rewrite lookup_insert_eq.
Qed.

Lemma GET_cache_effects_witness :
  let run := IpfsRoute.GET 1000 2000 (Normal (u16 "QmA")) Example.pinata_down ∅ in
  final_state run !! u16 "QmA"
  = Some (IpfsRoute.mkEntry (JObj [(u16 "title", JStr (u16 "Plank"))]) 2000).
Proof.
  apply (proj2 (proj2 (proj2 (proj2
           (GET_cache_effects 1000 2000 (u16 "QmA") Example.pinata_down ∅))))
           (IpfsRoute.json_response (JObj [(u16 "title", JStr (u16 "Plank"))]))).
  - vm_compute. reflexivity.
  - reflexivity.
  - discriminate.
Defined.

(** ** The route handler [POST /api/ipfs/upload] *)

(** X7: the upload route never throws and answers 200, 400 or 500 without
    touching any state.  It calls Pinata at most once, and only when both
    keys are configured and the posted document has a truthy [title] and
    [description]; that call is the pin request carrying the document and
    the keys.  A 200 answer implies that Pinata was called and answered with
    an ok status; a 400 answer implies that nothing was called; with a key
    missing the answer is 500 "IPFS service not configured" and nothing is
    called. *)
Theorem POST_upload_route {St : Type} (env : UploadRoute.secrets) (now : Z)
    (request_json : completion json) (w : world) (s : St) :
  let run := UploadRoute.POST env now request_json w s in
  final_state run = s
  ∧ ∃ r, outcome run = Normal r
      ∧ IpfsRoute.status r ∈ [200; 400; 500]
      ∧ (trace run = []
         ∨ ∃ apiKey secretKey metadata title description,
             UploadRoute.PINATA_API_KEY env = Some apiKey ∧ apiKey ≠ []
             ∧ UploadRoute.PINATA_SECRET_KEY env = Some secretKey ∧ secretKey ≠ []
             ∧ request_json = Normal metadata
             ∧ UploadRoute.member metadata "title" = Normal title
             ∧ UploadRoute.truthy title = true
             ∧ UploadRoute.member metadata "description" = Normal description
             ∧ UploadRoute.truthy description = true
             ∧ trace run
               = [Fetch (UploadRoute.pin_request apiKey secretKey metadata now)])
      ∧ (IpfsRoute.status r = 200 →
         ∃ rq resp, trace run = [Fetch rq] ∧ fetch_result w rq = Normal resp
                    ∧ ok resp = true)
      ∧ (IpfsRoute.status r = 400 → trace run = [])
      ∧ (Hooks.truthy_addr (UploadRoute.PINATA_API_KEY env) = false
         ∨ Hooks.truthy_addr (UploadRoute.PINATA_SECRET_KEY env) = false →
         r = IpfsRoute.error_response "IPFS service not configured" 500
         ∧ trace run = []).
Proof.
  intros run. subst run. unfold UploadRoute.POST. eff_unfold.
  destruct (UploadRoute.PINATA_API_KEY env) as [[|k1 apiKey]|] eqn:Hk1; post_step.
  1,3: post_done.
  destruct (UploadRoute.PINATA_SECRET_KEY env) as [[|k2 secretKey]|] eqn:Hk2; post_step.
  1,3: post_done.
  destruct request_json as [metadata|e]; post_step; [|post_done].
  destruct (UploadRoute.member metadata "title") as [title|e] eqn:Ht; post_step;
    [|post_done].
  destruct (UploadRoute.truthy title) eqn:Htt; post_step; [|post_done].
  destruct (UploadRoute.member metadata "description") as [description|e] eqn:Hd;
    post_step; [|post_done].
  destruct (UploadRoute.truthy description) eqn:Htd; post_step; [|post_done].
  set (rq := UploadRoute.pin_request (k1 :: apiKey) (k2 :: secretKey) metadata now).
  assert (Hcalled : ∃ apiKey0 secretKey0 metadata0 title0 description0,
             Some (k1 :: apiKey) = Some apiKey0 ∧ apiKey0 ≠ []
             ∧ Some (k2 :: secretKey) = Some secretKey0 ∧ secretKey0 ≠ []
             ∧ Normal metadata = Normal metadata0
             ∧ UploadRoute.member metadata0 "title" = Normal title0
             ∧ UploadRoute.truthy title0 = true
             ∧ UploadRoute.member metadata0 "description" = Normal description0
             ∧ UploadRoute.truthy description0 = true
             ∧ [Fetch rq] = [Fetch (UploadRoute.pin_request apiKey0 secretKey0 metadata0 now)]).
  { by exists (k1 :: apiKey), (k2 :: secretKey), metadata, title, description. }
  destruct (fetch_result w rq) as [resp|e] eqn:Hresp; post_step; [|post_done].
  destruct (ok resp) eqn:Hok; post_step; [|post_done].
  destruct (json_body resp) as [result|e]; post_step; [|post_done].
  destruct (UploadRoute.member result "IpfsHash") as [hash|e]; post_step; [|post_done].
  split; [done|]. eexists. split; [reflexivity|].
  split_and!; [repeat constructor|by right| |done|by intros [?|?]].
  intros _. by exists rq, resp.
Qed.

Lemma POST_upload_route_witness :
  let env := {| UploadRoute.PINATA_API_KEY := None;
                UploadRoute.PINATA_SECRET_KEY := Some (u16 "secret") |} in
  let run := UploadRoute.POST env 1700000000000 (Normal JNull) Example.offline () in
  ∃ r, outcome run = Normal r
       ∧ r = IpfsRoute.error_response "IPFS service not configured" 500
       ∧ trace run = [].
Proof.
  destruct (POST_upload_route
              {| UploadRoute.PINATA_API_KEY := None;
                 UploadRoute.PINATA_SECRET_KEY := Some (u16 "secret") |}
              1700000000000 (Normal JNull) Example.offline ())
    as (_ & r & Hr & _ & _ & _ & _ & Hkeys).
  exists r. split; [exact Hr|]. apply Hkeys. left. reflexivity.
Defined.

(** ** [useClaims] and [useBountiesData] *)

Lemma parse_claims_acc d i acc :
  Hooks.parse_claims d i acc = acc ++ Hooks.parse_claims d i [].
Proof.
  revert i acc. induction d as [|e d IH]; intros i acc; cbn.
  - by rewrite app_nil_r.
  - destruct (Hooks.result e ≫= Hooks.as_claim) as [[[c n] p]|].
    + rewrite IH, (IH _ [_]). by rewrite <- app_assoc.
    + done.
Qed.

(** The ids of the claims parsed from index [k] on are at least [k]. *)
Lemma parse_claims_ids d k c :
  c ∈ Hooks.parse_claims d k [] → Z.of_nat k ≤ Hooks.id c.
Proof.
  revert k. induction d as [|e d IH]; intros k; cbn; [by intros ?%elem_of_nil|].
  destruct (Hooks.result e ≫= Hooks.as_claim) as [[[cl n] p]|].
  - rewrite parse_claims_acc. intros [Hc|Hc]%elem_of_app.
    + apply list_elem_of_singleton in Hc as ->. done.
    + apply IH in Hc. lia.
  - intros Hc. apply IH in Hc. lia.
Qed.

Lemma find_none_ge (i : Z) d k :
  i < Z.of_nat k →
  find (λ c, bool_decide (Hooks.id c = i)) (Hooks.parse_claims d k []) = None.
Proof.
  intros Hlt. destruct (find _ _) as [c|] eqn:Hf; [|done].
  apply find_some in Hf as [Hin Hid]. apply bool_decide_eq_true in Hid.
  apply list_elem_of_In, parse_claims_ids in Hin. lia.
Qed.

Lemma find_parse_claims d k i :
  find (λ c, bool_decide (Hooks.id c = Z.of_nat (k + i))) (Hooks.parse_claims d k [])
  = (λ '(cl, n, p), Hooks.mkClaim (Z.of_nat (k + i)) cl n p None)
      <$> ((d !! i ≫= Hooks.result) ≫= Hooks.as_claim).
Proof.
  revert k i. induction d as [|e d IH]; intros k i; [by destruct i|].
  cbn [Hooks.parse_claims]. destruct i as [|i].
  - rewrite Nat.add_0_r. cbn [lookup list_lookup mbind option_bind].
    destruct (Hooks.result e ≫= Hooks.as_claim) as [[[cl n] p]|]; cbn.
    + rewrite parse_claims_acc. cbn. by rewrite bool_decide_eq_true_2.
    + apply find_none_ge. lia.
  - replace (k + S i)%nat with (S k + i)%nat by lia.
    cbn [lookup list_lookup]. rewrite <- IH.
    destruct (Hooks.result e ≫= Hooks.as_claim) as [[[cl n] p]|]; [|done].
    rewrite parse_claims_acc. cbn. rewrite bool_decide_eq_false_2 by lia. done.
Qed.

(** X8: claim ids are positions.  Looking a claim up by the id [i] among
    the parsed claims gives the claim decoded from the [i]-th read, with
    that id, and nothing when that read failed: a failed read leaves a gap
    and shifts no id.  This is the lookup of the claim page. *)
Theorem claim_ids_are_positions (d : list Hooks.read_result) (i : nat) :
  find (λ c, bool_decide (Hooks.id c = Z.of_nat i)) (Hooks.parse_claims d 0 [])
  = (λ '(cl, n, p), Hooks.mkClaim (Z.of_nat i) cl n p None)
      <$> ((d !! i ≫= Hooks.result) ≫= Hooks.as_claim).
Proof. apply (find_parse_claims d 0 i). Qed.

(** X9: [useBountiesData] keeps the order of the addresses and invents
    none: the addresses of its records are a sublist of the addresses
    asked for, so there are at most as many records as addresses, and no
    records without data. *)
Theorem useBountiesData_sublist :
  (∀ data addresses,
      map Hooks.address (Hooks.useBountiesData data addresses) `sublist_of` addresses)
  ∧ (∀ data addresses,
      (length (Hooks.useBountiesData data addresses) ≤ length addresses)%nat)
  ∧ (∀ addresses, Hooks.useBountiesData None addresses = []).
Proof.
  assert (Hsub : ∀ data addresses i,
            map Hooks.address (Hooks.parse_bounties data addresses i [])
            `sublist_of` addresses).
  { intros data addresses. induction addresses as [|addr rest IH]; intros i; [done|].
    cbn [Hooks.parse_bounties].
    destruct (Hooks.result_at data (i * 6) ≫= Hooks.as_address) as [a|].
    - rewrite parse_bounties_acc. cbn. by apply sublist_skip.
    - by apply sublist_cons. }
  assert (Hall : ∀ data addresses,
            map Hooks.address (Hooks.useBountiesData data addresses)
            `sublist_of` addresses).
  { intros [data|] addresses; cbn; [apply Hsub|apply sublist_nil_l]. }
  split_and!; [done| |done].
  intros data addresses. rewrite <- (length_map Hooks.address).
  apply sublist_length, Hall.
Qed.

(** ** [useUserClaimedBounties] *)

Section claimed.
Implicit Types (data : list Hooks.read_result) (u a : jsstring)
  (b : Hooks.BountyData) (found : gset jsstring).




End claimed.



(** ** Submitting the create form *)

(** The wallet resolution shared by the handlers: the connected address
    without any call; without address and connector an error and no call;
    otherwise one wallet connection, whose first account (if any) is the
    target. *)
Lemma target_address_cases {St : Type} (wal : Handler.wallet) (msg : string)
    (w : world) (s : St) :
  let run := Handler.target_address wal msg w s in
  final_state run = s
  ∧ ((∃ a, Handler.wallet_address wal = Some a ∧ a ≠ []
           ∧ trace run = [] ∧ outcome run = Normal (Some a))
     ∨ (Hooks.truthy_addr (Handler.wallet_address wal) = false
        ∧ Handler.primaryConnector wal = false
        ∧ trace run = [] ∧ outcome run = Throw (ErrorObj (u16 msg)))
     ∨ (Hooks.truthy_addr (Handler.wallet_address wal) = false
        ∧ Handler.primaryConnector wal = true
        ∧ trace run = [ConnectWallet]
        ∧ outcome run = match connect_result w with
                        | Normal accounts => Normal (head accounts)
                        | Throw e => Throw e
                        end)).
Proof.
  unfold Handler.target_address.
  destruct (Hooks.truthy_addr (Handler.wallet_address wal)) eqn:Ha.
  - split; [done|]. left. destruct (Handler.wallet_address wal) as [[|c a]|]; try done.
    by exists (c :: a).
  - destruct (Handler.primaryConnector wal); cbn [negb].
    + eff_unfold. cbn. destruct (connect_result w); cbn; split; try done;
        right; right; done.
    + split; [done|]. right. left. done.
Qed.

(** X11: [handleSubmit] never throws, and it submits a [createBounty]
    write only at the end of a run in which the upload of the trimmed title
    and description answered ok with a string [cid], the amount parsed and a
    wallet address was found: the write goes to the factory from that
    address, carries [toIPFSUri cid], the joinable flag and the parsed value,
    is the last of at most three calls (wallet connection, upload, write),
    and leaves the form without error and not uploading.  A run that submits
    no write leaves an error message. *)
Theorem handleSubmit_write_follows_upload
    (parseEther : jsstring → completion Z) (wal : Handler.wallet)
    (f s : CreatePage.form) (w : world) :
  let run := CreatePage.handleSubmit parseEther wal f w s in
  let metadata := JObj [ (u16 "title", JStr (JS.trim (CreatePage.title f)));
                         (u16 "description", JStr (JS.trim (CreatePage.description f))) ] in
  outcome run = Normal tt
  ∧ (∀ c, WriteContract c ∈ trace run →
       ∃ account resp j cid value,
         (trace run = [Fetch (Ipfs.upload_request metadata); WriteContract c]
          ∨ trace run = [ConnectWallet; Fetch (Ipfs.upload_request metadata);
                         WriteContract c])
         ∧ fetch_result w (Ipfs.upload_request metadata) = Normal resp
         ∧ ok resp = true
         ∧ json_body resp = Normal j
         ∧ Ipfs.destructure_cid j = Normal (Some (JStr cid))
         ∧ parseEther (CreatePage.amount f) = Normal value
         ∧ account ≠ []
         ∧ c = {| w_account := Some account;
                  w_address := CreatePage.FACTORY;
                  w_functionName := u16 "createBounty";
                  w_args := [AString (Ipfs.toIPFSUri cid);
                             ABool (CreatePage.joinable f)];
                  w_value := Some value |}
         ∧ CreatePage.error (final_state run) = None
         ∧ CreatePage.isUploading (final_state run) = false)
  ∧ ((∀ c, WriteContract c ∉ trace run) →
     ∃ msg, CreatePage.error (final_state run) = Some msg).
Proof.
  cbv zeta. unfold CreatePage.handleSubmit.
  destruct (negb (JS.truthy_str (JS.trim (CreatePage.title f)))
            || negb (JS.truthy_str (JS.trim (CreatePage.description f)))).
  { split_and!; [done| |by eexists]. intros c Hc. by apply elem_of_nil in Hc. }
  destruct (negb (JS.truthy_str (CreatePage.amount f))
            || JS.le_zero (JS.parseFloat (CreatePage.amount f))).
  { split_and!; [done| |by eexists]. intros c Hc. by apply elem_of_nil in Hc. }
  set (metadata := JObj _).
  pose proof (target_address_cases wal "Wallet connector not available" w
                (CreatePage.mkForm (CreatePage.title s) (CreatePage.description s)
                   (CreatePage.amount s) (CreatePage.joinable s) true None)) as Ht.
  cbv zeta in Ht.
  unfold CreatePage.setError, CreatePage.setIsUploading, Ipfs.uploadToIPFS.
  eff_unfold.
  cbn -[Handler.target_address u16 CreatePage.FACTORY Ipfs.upload_request
        Ipfs.destructure_cid Ipfs.toIPFSUri Handler.message_of metadata] in *.
  destruct (Handler.target_address _ _ w _) as [[s1 t1] r1].
  cbn [fst snd] in Ht. destruct Ht as [-> Ht].
  destruct Ht as [(a & Ha & Hne & -> & ->)|[(Hf & Hp & -> & ->)|(Hf & Hp & -> & ->)]].
  - destruct a as [|c0 a]; [done|].
    cbn -[u16 CreatePage.FACTORY Ipfs.upload_request Ipfs.destructure_cid
          Ipfs.toIPFSUri Handler.message_of metadata].
    destruct (fetch_result w (Ipfs.upload_request metadata)) as [resp|e] eqn:Hfetch;
      [destruct (ok resp) eqn:Hok;
       [destruct (json_body resp) as [j|e] eqn:Hj;
        [destruct (Ipfs.destructure_cid j) as [[[| | |cid| |]|]|e] eqn:Hcid;
         [..|destruct (parseEther (CreatePage.amount f)) as [value|e] eqn:Hval| | | | ]
        |]|]|];
      cbn -[u16 CreatePage.FACTORY Ipfs.upload_request Ipfs.destructure_cid
            Ipfs.toIPFSUri Handler.message_of metadata].
    all: split; [done|].
    all: try failed_run.
    split.
    + intros c Hc. apply elem_of_cons in Hc as [Hc|Hc]; [discriminate Hc|].
      apply elem_of_cons in Hc as [Hc|Hc]; [|by apply elem_of_nil in Hc].
      injection Hc as ->.
      exists (c0 :: a), resp, j, cid, value. split_and!; try done. by left.
    + intros Hno. exfalso. eapply Hno. apply elem_of_cons. right.
      by left.
  - cbn -[u16]. split; [done|]. failed_run.
  - destruct (connect_result w) as [[|[|c0 a] rest]|e];
      cbn -[u16 CreatePage.FACTORY Ipfs.upload_request Ipfs.destructure_cid
            Ipfs.toIPFSUri Handler.message_of metadata].
    1,2,4: split; [done|]; failed_run.
    destruct (fetch_result w (Ipfs.upload_request metadata)) as [resp|e] eqn:Hfetch;
      [destruct (ok resp) eqn:Hok;
       [destruct (json_body resp) as [j|e] eqn:Hj;
        [destruct (Ipfs.destructure_cid j) as [[[| | |cid| |]|]|e] eqn:Hcid;
         [..|destruct (parseEther (CreatePage.amount f)) as [value|e] eqn:Hval| | | | ]
        |]|]|];
      cbn -[u16 CreatePage.FACTORY Ipfs.upload_request Ipfs.destructure_cid
            Ipfs.toIPFSUri Handler.message_of metadata].
    all: split; [done|].
    all: try failed_run.
    split.
    + intros c Hc. apply elem_of_cons in Hc as [Hc|Hc]; [discriminate Hc|].
      apply elem_of_cons in Hc as [Hc|Hc]; [discriminate Hc|].
      apply elem_of_cons in Hc as [Hc|Hc]; [|by apply elem_of_nil in Hc].
      injection Hc as ->.
      exists (c0 :: a), resp, j, cid, value. split_and!; try done. by right.
    + intros Hno. exfalso. eapply Hno. apply elem_of_cons. right.
      apply elem_of_cons. right. by left.
Qed.

(** ** The handlers that write without a form *)

Lemma wallet_write_run {St : Type} (setError : option jsstring → St → St)
    (error : St → option jsstring) (wal : Handler.wallet)
    (mk : option jsstring → contract_write) (fallback : string)
    (target : jsstring) (fn : string) (w : world) (s : St) :
  (∀ e s, error (setError e s) = e) →
  (∀ a, w_account (mk a) = a ∧ w_address (mk a) = target
        ∧ w_functionName (mk a) = u16 fn ∧ w_value (mk a) = None) →
  SpecX.wallet_run error wal w target fn
    ((Eff.modify (setError None) ≫= λ _,
        Eff.try_catch
          (Handler.target_address wal "Wallet not available" ≫= λ targetAddress,
             Eff.writeContract (mk targetAddress))
          (λ err, Eff.modify (setError (Some (Handler.message_of err fallback)))))
       w s).
Proof.
  intros Herr Hmk. unfold SpecX.wallet_run.
  pose proof (target_address_cases wal "Wallet not available" w (setError None s)) as Ht.
  cbv zeta in Ht. eff_unfold. cbn -[Handler.target_address u16] in *.
  destruct (Handler.target_address _ _ w _) as [[s1 t1] r1].
  cbn [fst snd] in Ht. destruct Ht as [-> Ht].
  destruct (Hmk None) as (_ & Hto & Hfn & Hval).
  destruct Ht as [(a & Ha & Hne & -> & ->)|[(Hf & Hp & -> & ->)|(Hf & Hp & -> & ->)]];
    cbn -[u16].
  - split; [done|]. left. exists (mk (Some a)).
    destruct (Hmk (Some a)) as (Hacc & Hto' & Hfn' & Hval').
    split_and!; try done. left. rewrite Ha. split_and!; try done.
    destruct a; done.
  - split; [done|]. right. left. by rewrite Herr.
  - destruct (connect_result w) as [accounts|e] eqn:Hc; cbn -[u16].
    + split; [done|]. left. exists (mk (head accounts)).
      destruct (Hmk (head accounts)) as (Hacc & Hto' & Hfn' & Hval').
      split_and!; try done. right. split_and!; try done. by exists accounts.
    + split; [done|]. right. right. split_and!; try done.
      exists e. split; [done|]. rewrite Herr. by eexists.
Qed.

(** X12: every handler of the claim page and of the bounty page that
    writes without validating a form (start vote, vote yes or no, resolve
    vote, accept claim, withdraw, cancel) never throws and submits at most
    one write, as the last call of the run: from the connected address with
    no other call, or after exactly one wallet connection from whatever the
    first returned account is.  The write names the handler's contract
    function, goes to the page's bounty and carries no value.  Without
    address and connector it makes no call and leaves "Wallet not available";
    when the connection is refused it submits nothing and leaves an error
    message. *)
Theorem page_handlers_resolve_wallet_then_write
    (wal : Handler.wallet) (w : world) :
  (∀ (v : ClaimPage.view) (s : ClaimPage.ui) fn h,
     (fn, h) ∈ SpecX.claim_page_writes wal v →
     SpecX.wallet_run ClaimPage.error wal w (ClaimPage.bountyAddress v) fn (h w s))
  ∧ (∀ (bountyAddress : jsstring) (claimId : Z) (s : BountyPage.ui) fn h,
       (fn, h) ∈ SpecX.bounty_page_writes wal bountyAddress claimId →
       SpecX.wallet_run BountyPage.error wal w bountyAddress fn (h w s)).
Proof.
  split.
  - intros v s fn h Hin. unfold SpecX.claim_page_writes in Hin.
    repeat (apply elem_of_cons in Hin as [Hin|Hin]; [injection Hin as -> ->|]);
      [..|by apply elem_of_nil in Hin].
    all: apply (wallet_write_run (λ e _, ClaimPage.mkUi e) ClaimPage.error wal);
      [done|intros a; split_and!; reflexivity].
  - intros addr claimId s fn h Hin. unfold SpecX.bounty_page_writes in Hin.
    repeat (apply elem_of_cons in Hin as [Hin|Hin]; [injection Hin as -> ->|]);
      [..|by apply elem_of_nil in Hin].
    all: apply (wallet_write_run
                  (λ e u, BountyPage.mkUi (BountyPage.joinAmount u)
                            (BountyPage.claimName u) e)
                  BountyPage.error wal);
      [done|intros a; split_and!; reflexivity].
Qed.

(** ** Submitting a claim *)

(** X13: [handleSubmitClaim] never throws and never uploads anything: its
    run holds no fetch, whether an image is selected or not.  A blank claim
    name is rejected without any call.  A write it submits is [submitClaim]
    on the page's bounty, without value, for a claim name that is not blank,
    and carries the trimmed name and as proof URI the empty string (no
    image) or the placeholder [ipfs://image-<now>] (image selected), which
    depends on the clock only. *)
Theorem handleSubmitClaim_uploads_nothing
    (wal : Handler.wallet) (bountyAddress : jsstring) (claimImage : bool) (now : Z)
    (u s : BountyPage.ui) (w : world) :
  let run := BountyActions.handleSubmitClaim wal bountyAddress claimImage now u w s in
  outcome run = Normal tt
  ∧ (∀ r, Fetch r ∉ trace run)
  ∧ (Spec.blank (BountyPage.claimName u) →
     trace run = []
     ∧ BountyPage.error (final_state run) = Some (u16 "Claim name is required"))
  ∧ (∀ c, WriteContract c ∈ trace run →
       ¬ Spec.blank (BountyPage.claimName u)
       ∧ w_address c = bountyAddress
       ∧ w_functionName c = u16 "submitClaim"
       ∧ w_value c = None
       ∧ w_args c
         = [ AString (JS.trim (BountyPage.claimName u));
             AString (if claimImage
                      then u16 "ipfs://image-" ++ UploadRoute.decimal now else []) ]
       ∧ BountyPage.error (final_state run) = None).
Proof.
  cbv zeta. unfold BountyActions.handleSubmitClaim.
  destruct (JS.trim (BountyPage.claimName u)) as [|c0 name] eqn:Hname.
  { cbn -[u16]. split_and!; [done| |done|].
    - intros r Hr. by apply elem_of_nil in Hr.
    - intros c Hc. by apply elem_of_nil in Hc. }
  assert (Hnb : ¬ Spec.blank (BountyPage.claimName u)).
  { intros Hb%trim_blank. congruence. }
  cbn [JS.truthy_str negb].
  pose proof (target_address_cases wal "Wallet not available" w
                (BountyPage.mkUi (BountyPage.joinAmount s) (BountyPage.claimName s)
                   None)) as Ht.
  cbv zeta in Ht. unfold BountyPage.setError. eff_unfold.
  cbn -[Handler.target_address u16 UploadRoute.decimal] in *.
  destruct (Handler.target_address _ _ w _) as [[s1 t1] r1].
  cbn [fst snd] in Ht. destruct Ht as [-> Ht].
  destruct Ht as [(a & Ha & Hne & -> & ->)|[(Hf & Hp & -> & ->)|(Hf & Hp & -> & ->)]];
    [| |destruct (connect_result w) as [accounts|e]];
    cbn -[u16 UploadRoute.decimal].
  all: split_and!; [done| |done|].
  all: try (intros r Hr;
            repeat (apply elem_of_cons in Hr as [Hr|Hr]; [discriminate Hr|]);
            by apply elem_of_nil in Hr).
  all: intros c Hc;
    repeat (apply elem_of_cons in Hc as [Hc|Hc];
            [first [discriminate Hc | injection Hc as ->; done]|]);
    by apply elem_of_nil in Hc.
Qed.

(** ** The action buttons of the bounty page *)

(** X14: what the buttons of the bounty page can call.  "Withdraw" is
    rendered only to an address that holds stake and for which the page's own
    [canWithdraw] holds; on an OPEN bounty that means a joinable bounty and
    an address that is not the issuer.  "Cancel Bounty" is rendered exactly
    to the issuer of an OPEN bounty with no form open.  At most one of the
    three blocks (OPEN, VOTING, CANCELLED) is rendered, and a bounty in any
    other state, CLOSED in particular, has no action button. *)
Theorem bounty_page_actions_gated (v : BountyPage.view) (fm : BountyActions.forms) :
  (BountyActions.withdraw_offered v fm = true →
     BountyActions.canWithdraw v = true ∧ BountyPage.hasStake v = true
     ∧ ∀ b, BountyPage.bounty v = Some b → Hooks.state b = BountyState.OPEN →
            Hooks.joinable b = true ∧ BountyPage.isIssuer v = false)
  ∧ (BountyActions.cancel_offered v fm = true
     ↔ BountyPage.isLoading v = false
       ∧ BountyPage.isIssuer v = true
       ∧ (∃ b, BountyPage.bounty v = Some b ∧ Hooks.state b = BountyState.OPEN)
       ∧ BountyActions.showJoinForm fm = false
       ∧ BountyActions.showClaimForm fm = false)
  ∧ (∀ b, BountyPage.bounty v = Some b →
       (BountyActions.openActions v fm ≠ None →
          Hooks.state b = BountyState.OPEN
          ∧ BountyPage.votingActions v = None
          ∧ BountyActions.cancelledWithdraw v = false)
       ∧ (BountyPage.votingActions v ≠ None →
            Hooks.state b = BountyState.VOTING
            ∧ BountyActions.openActions v fm = None
            ∧ BountyActions.cancelledWithdraw v = false)
       ∧ (BountyActions.cancelledWithdraw v = true →
            Hooks.state b = BountyState.CANCELLED
            ∧ BountyActions.openActions v fm = None
            ∧ BountyPage.votingActions v = None)).
Proof.
  unfold BountyActions.withdraw_offered, BountyActions.cancel_offered,
    BountyActions.openActions, BountyActions.cancelledWithdraw,
    BountyActions.canWithdraw, BountyPage.votingActions.
  destruct (BountyPage.isLoading v).
  { split_and!; [done|split; [done|by intros [? _]]|].
    intros b _. split_and!; done. }
  destruct (BountyPage.bounty v) as [b|] eqn:Hb.
  2: { split_and!; [done|split; [done|]|done].
       by intros (_ & _ & (b & Hb' & _) & _). }
  split_and!.
  - destruct (bool_decide (Hooks.state b = BountyState.OPEN)) eqn:Ho.
    + apply bool_decide_eq_true in Ho.
      assert (Hc : bool_decide (Hooks.state b = BountyState.CANCELLED) = false).
      { apply bool_decide_eq_false. rewrite Ho. done. }
      rewrite Hc. cbn [andb orb].
      destruct (BountyActions.showJoinForm fm); [done|].
      destruct (BountyActions.showClaimForm fm); [done|].
      destruct (BountyPage.isIssuer v); [done|].
      destruct (Hooks.joinable b) eqn:Hj; [|done].
      destruct (BountyPage.hasStake v); [|done].
      intros _. split_and!; [done|done|]. intros b' [= <-] _. done.
    + apply bool_decide_eq_false in Ho. cbn [andb orb].
      destruct (bool_decide (Hooks.state b = BountyState.CANCELLED)); [|done].
      cbn [andb]. intros ->. split_and!; [done|done|]. by intros b' [= <-] ?.
  - destruct (bool_decide (Hooks.state b = BountyState.OPEN)) eqn:Ho.
    + apply bool_decide_eq_true in Ho.
      destruct (BountyActions.showJoinForm fm);
        [split; [done|by intros (_ & _ & _ & ? & _)]|].
      destruct (BountyActions.showClaimForm fm);
        [split; [done|by intros (_ & _ & _ & _ & ?)]|].
      destruct (BountyPage.isIssuer v).
      * split; [|done]. intros _. split_and!; try done. by exists b.
      * split; [|by intros (_ & ? & _)].
        destruct (Hooks.joinable b); [destruct (BountyPage.hasStake v)|]; done.
    + apply bool_decide_eq_false in Ho. split; [done|].
      intros (_ & _ & (b' & [= <-] & Hs) & _). done.
  - intros b' [= <-].
    destruct (bool_decide (Hooks.state b = BountyState.OPEN)) eqn:Ho;
      destruct (bool_decide (Hooks.state b = BountyState.VOTING)) eqn:Hv;
      destruct (bool_decide (Hooks.state b = BountyState.CANCELLED)) eqn:Hc;
      try apply bool_decide_eq_true in Ho; try apply bool_decide_eq_true in Hv;
      try apply bool_decide_eq_true in Hc;
      try (rewrite Ho in Hv; discriminate Hv);
      try (rewrite Ho in Hc; discriminate Hc);
      try (rewrite Hv in Hc; discriminate Hc);
      cbn [andb]; split_and!; try done.
Qed.

(** ** The countdown *)

(** X15: for a deadline and a clock in the range of the model (the
    deadline's milliseconds positive and below 2^53, the clock not negative
    and below 2^53), the countdown prints, before the deadline, the remaining
    time in whole seconds, rounded down, split into hours, minutes below 60
    and seconds below 60; from the deadline on it prints "Voting ended". *)
Theorem countdown_is_remaining_seconds (votingDeadline now : Z) :
  BountyActions.in_range votingDeadline now = true →
  (now < votingDeadline →
   ∃ hours minutes seconds,
     0 ≤ hours ∧ 0 ≤ minutes < 60 ∧ 0 ≤ seconds < 60
     ∧ hours * 3600 + minutes * 60 + seconds = (votingDeadline - now) / 1000
     ∧ BountyActions.updateTime votingDeadline now
       = Some (UploadRoute.decimal hours ++ u16 "h " ++ UploadRoute.decimal minutes
                 ++ u16 "m " ++ UploadRoute.decimal seconds ++ u16 "s"))
  ∧ (votingDeadline ≤ now →
     BountyActions.updateTime votingDeadline now = Some (u16 "Voting ended")).
Proof.
  intros Hrange. unfold BountyActions.updateTime. rewrite Hrange. cbn [negb].
  split.
  - intros Hlt.
    set (r := votingDeadline - now). assert (Hr : 0 < r) by (unfold r; lia).
    destruct (Z.leb_spec r 0) as [?|_]; [lia|].
    rewrite !Z.rem_mod_nonneg by lia.
    change (1000 * 60 * 60) with 3600000. change (1000 * 60) with 60000.
    exists (r / 3600000), (r `mod` 3600000 / 60000), (r `mod` 60000 / 1000).
    split_and!; [..|reflexivity]; Z.to_euclidean_division_equations; lia.
  - intros Hle.
    destruct (Z.leb_spec (votingDeadline - now) 0) as [_|?]; [done|lia].
Qed.

Lemma countdown_is_remaining_seconds_witness :
  (1000000 < 2000000 →
   ∃ hours minutes seconds,
     0 ≤ hours ∧ 0 ≤ minutes < 60 ∧ 0 ≤ seconds < 60
     ∧ hours * 3600 + minutes * 60 + seconds = (2000000 - 1000000) / 1000
     ∧ BountyActions.updateTime 2000000 1000000
       = Some (UploadRoute.decimal hours ++ u16 "h " ++ UploadRoute.decimal minutes
                 ++ u16 "m " ++ UploadRoute.decimal seconds ++ u16 "s"))
  ∧ (2000000 ≤ 1000000 →
     BountyActions.updateTime 2000000 1000000 = Some (u16 "Voting ended")).
Proof.
  apply (countdown_is_remaining_seconds 2000000 1000000). reflexivity.
Defined.

(** Sixteen minutes and forty seconds before the deadline. *)
Example countdown_sixteen_minutes :
  BountyActions.updateTime 2000000 1000000 = Some (u16 "0h 16m 40s").
Proof. vm_compute. reflexivity. Qed.

(** ** The list of bounties *)

Lemma insert_perm {A} (cmp : A → A → Z) x l : JsArray.insert cmp x l ≡ₚ x :: l.
Proof.
  induction l as [|y l IH]; cbn; [done|].
  destruct (0 <? cmp x y); [|done]. rewrite IH. apply Permutation_swap.
Qed.

Lemma sort_perm {A} (cmp : A → A → Z) l : JsArray.sort cmp l ≡ₚ l.
Proof.
  induction l as [|x l IH]; cbn; [done|].
  fold (JsArray.sort cmp l). by rewrite insert_perm, IH.
Qed.

Lemma insert_descending {A} (cmp : A → A → Z) key x l :
  (∀ a b, (0 <? cmp a b) = (key a <? key b)) →
  SpecX.descending key l → SpecX.descending key (JsArray.insert cmp x l).
Proof.
  intros cmp_key. unfold SpecX.descending. induction 1 as [|y l Hs IH Hall]; cbn.
  - repeat constructor.
  - rewrite cmp_key. destruct (Z.ltb_spec (key x) (key y)).
    + constructor; [done|]. rewrite insert_perm. constructor; [lia|done].
    + constructor; [by constructor|]. constructor; [done|].
      eapply Forall_impl; [exact Hall|]. cbn. intros z Hz. lia.
Qed.

Lemma sort_descending {A} (cmp : A → A → Z) key l :
  (∀ a b, (0 <? cmp a b) = (key a <? key b)) →
  SpecX.descending key (JsArray.sort cmp l).
Proof.
  intros cmp_key. induction l as [|x l IH]; cbn; [constructor|].
  by apply insert_descending.
Qed.

Lemma insert_with_key {A} (cmp : A → A → Z) key k x l :
  (∀ a b, (0 <? cmp a b) = (key a <? key b)) →
  SpecX.with_key key k (JsArray.insert cmp x l) = SpecX.with_key key k (x :: l).
Proof.
  intros cmp_key. unfold SpecX.with_key. induction l as [|y l IH]; [done|].
  cbn [JsArray.insert]. rewrite cmp_key.
  destruct (Z.ltb_spec (key x) (key y)) as [Hlt|Hge]; [|done].
  cbn [List.filter] in *. rewrite IH.
  destruct (Z.eqb_spec (key x) k), (Z.eqb_spec (key y) k); try done. lia.
Qed.

Lemma sort_with_key {A} (cmp : A → A → Z) key k l :
  (∀ a b, (0 <? cmp a b) = (key a <? key b)) →
  SpecX.with_key key k (JsArray.sort cmp l) = SpecX.with_key key k l.
Proof.
  intros cmp_key. induction l as [|x l IH]; [done|]. cbn [JsArray.sort foldr].
  fold (JsArray.sort cmp l). rewrite insert_with_key by done.
  unfold SpecX.with_key in *. cbn [List.filter]. by rewrite IH.
Qed.

Lemma by_totalStaked_key a b :
  (0 <? BountiesPage.by_totalStaked a b) = (Hooks.totalStaked a <? Hooks.totalStaked b).
Proof.
  unfold BountiesPage.by_totalStaked.
  destruct (Z.ltb_spec (Hooks.totalStaked a) (Hooks.totalStaked b)); [done|].
  by destruct (Hooks.totalStaked b <? Hooks.totalStaked a).
Qed.

Lemma by_claimsCount_key a b :
  (0 <? BountiesPage.by_claimsCount a b) = (Hooks.claimsCount a <? Hooks.claimsCount b).
Proof.
  unfold BountiesPage.by_claimsCount.
  destruct (Z.ltb_spec (Hooks.claimsCount a) (Hooks.claimsCount b)); [done|].
  by destruct (Hooks.claimsCount b <? Hooks.claimsCount a).
Qed.

Lemma filter_search_filter lower query l r :
  BountiesPage.filter_search lower query l = Normal r →
  r = List.filter (SpecX.hit lower query) l.
Proof.
  revert r. induction l as [|b l IH]; intros r; cbn.
  - by intros [= <-].
  - unfold SpecX.hit at 1.
    destruct (BountiesPage.search_hit lower query b) as [h|e]; [|done].
    destruct (BountiesPage.filter_search lower query l) as [r'|e]; [|done].
    intros [= <-]. rewrite (IH r' eq_refl). by destruct h.
Qed.

Lemma filter_sublist {A} (f : A → bool) (l : list A) : List.filter f l `sublist_of` l.
Proof.
  induction l as [|x l IH]; cbn; [done|].
  destruct (f x); by constructor.
Qed.

Lemma elem_of_filter {A} (f : A → bool) (l : list A) x :
  x ∈ List.filter f l ↔ x ∈ l ∧ f x = true.
Proof. rewrite !list_elem_of_In. apply filter_In. Qed.

Lemma filter_all {A} (l : list A) : List.filter (λ _, true) l = l.
Proof. induction l as [|x l IH]; cbn; [done|]. by rewrite IH. Qed.

(** The memo without its final sort: the bounties that meet the filters,
    in the order of [bounties]. *)
Lemma filteredBounties_kept lower bounties q owner status sortf addr claimed joined
    result :
  BountiesPage.filteredBounties lower bounties q owner status sortf addr claimed joined
  = Normal result →
  ∃ kept,
    BountiesPage.filteredBounties lower bounties q owner status BountiesPage.New
      addr claimed joined = Normal kept
    ∧ result = match sortf with
               | BountiesPage.Top => JsArray.sort BountiesPage.by_totalStaked kept
               | BountiesPage.Trending =>
                   JsArray.sort BountiesPage.by_claimsCount kept
               | BountiesPage.New => kept
               end
    ∧ kept `sublist_of` bounties
    ∧ ∀ b, b ∈ kept
           ↔ b ∈ bounties
             ∧ SpecX.selected lower q owner status addr claimed joined b.
Proof.
  unfold BountiesPage.filteredBounties.
  set (P1 := λ b : Hooks.BountyData,
         if JS.truthy_str (JS.trim q) then SpecX.hit lower (lower q) b else true).
  set (P2 := λ b : Hooks.BountyData,
         match owner with
         | BountiesPage.Created =>
             if Hooks.truthy_addr addr
             then bool_decide (JS.toLowerCase (Hooks.issuer b)
                               = JS.toLowerCase (default [] addr))
             else true
         | BountiesPage.Joined =>
             if Hooks.truthy_addr addr
             then bool_decide (JS.toLowerCase (Hooks.address b) ∈ joined) else true
         | BountiesPage.Claimed =>
             if Hooks.truthy_addr addr
             then bool_decide (JS.toLowerCase (Hooks.address b) ∈ claimed) else true
         | BountiesPage.OwnerAll => true
         end).
  set (P3 := λ b : Hooks.BountyData,
         match status with Some st => Hooks.state b =? st | None => true end).
  intros Hrun.
  assert (Hsearch : ∀ searched,
            (if JS.truthy_str (JS.trim q)
             then BountiesPage.filter_search lower (lower q) bounties
             else Normal bounties) = Normal searched →
            searched = List.filter P1 bounties).
  { intros searched. unfold P1. destruct (JS.truthy_str (JS.trim q)).
    - apply filter_search_filter.
    - intros [= <-]. by rewrite filter_all. }
  destruct (if JS.truthy_str (JS.trim q)
            then BountiesPage.filter_search lower (lower q) bounties
            else Normal bounties) as [searched|e]; [|done].
  rewrite (Hsearch searched eq_refl) in *. clear Hsearch.
  exists (List.filter P3 (List.filter P2 (List.filter P1 bounties))).
  assert (Howner :
    match owner with
    | BountiesPage.Created =>
        if Hooks.truthy_addr addr
        then List.filter (λ b, bool_decide (JS.toLowerCase (Hooks.issuer b)
                                            = JS.toLowerCase (default [] addr)))
               (List.filter P1 bounties)
        else List.filter P1 bounties
    | BountiesPage.Joined =>
        if Hooks.truthy_addr addr
        then List.filter (λ b, bool_decide (JS.toLowerCase (Hooks.address b) ∈ joined))
               (List.filter P1 bounties)
        else List.filter P1 bounties
    | BountiesPage.Claimed =>
        if Hooks.truthy_addr addr
        then List.filter (λ b, bool_decide (JS.toLowerCase (Hooks.address b) ∈ claimed))
               (List.filter P1 bounties)
        else List.filter P1 bounties
    | BountiesPage.OwnerAll => List.filter P1 bounties
    end = List.filter P2 (List.filter P1 bounties)).
  { unfold P2. destruct owner, (Hooks.truthy_addr addr); by rewrite ?filter_all. }
  cbv zeta in Hrun |- *. rewrite Howner in *. clear Howner.
  assert (Hstatus :
    match status with
    | Some st => List.filter (λ b, Hooks.state b =? st)
                   (List.filter P2 (List.filter P1 bounties))
    | None => List.filter P2 (List.filter P1 bounties)
    end = List.filter P3 (List.filter P2 (List.filter P1 bounties))).
  { unfold P3. destruct status; by rewrite ?filter_all. }
  rewrite Hstatus in *. clear Hstatus.
  injection Hrun as <-. split_and!; [done|done| |].
  - etrans; [apply filter_sublist|]. etrans; apply filter_sublist.
  - intros b. rewrite !elem_of_filter. unfold SpecX.selected, P1, P2, P3.
    assert (Hq : JS.truthy_str (JS.trim q) = true ↔ ¬ Spec.blank q).
    { rewrite <- trim_blank. by destruct (JS.trim q). }
    assert (Ha : Hooks.truthy_addr addr = true ↔ ∃ a, addr = Some a ∧ a ≠ []).
    { destruct addr as [[|c a]|]; cbn; split; try done.
      - by intros (a & [= <-] & ?).
      - intros _. by eexists.
      - by intros (a & ? & _). }
    split.
    + intros (((Hb & H1) & H2) & H3). split; [done|]. split_and!.
      * intros Hnb. apply Hq in Hnb. by rewrite Hnb in H1.
      * intros st ->. by apply Z.eqb_eq.
      * intros a -> Hne.
        assert (Ht : Hooks.truthy_addr (Some a) = true) by (apply Ha; by eexists).
        rewrite Ht in H2. cbn [default] in H2.
        split_and!; intros ->; by apply bool_decide_eq_true in H2.
    + intros (Hb & H1 & H2 & H3). split_and!; [done| | |].
      * destruct Hq as [Hq _].
        destruct (JS.truthy_str (JS.trim q)) eqn:Ht; [|done]. apply H1. by apply Hq.
      * destruct Ha as [Ha _].
        destruct (Hooks.truthy_addr addr) eqn:Ht; [|by destruct owner].
        destruct (Ha eq_refl) as (a & -> & Hne). destruct (H3 a eq_refl Hne) as (Hc & Hj & Hcl).
        cbn [default].
        destruct owner; [done|apply bool_decide_eq_true..]; auto.
      * destruct status as [st|]; [|done]. apply Z.eqb_eq. by apply H2.
Qed.

(** X16: when the memo of the list of bounties completes, it shows exactly
    the bounties that meet the filters (the search if the query is not blank,
    the status, and the owner filter of a connected address): each of them,
    nothing else, as often as [bounties] holds it, and with the sort "new" in
    the order of [bounties]. *)
Theorem filteredBounties_selects
    (lower : jsstring → jsstring) (bounties : list Hooks.BountyData)
    (searchQuery : jsstring) (ownerFilter : BountiesPage.OwnerFilter)
    (statusFilter : option Z) (sortFilter : BountiesPage.SortFilter)
    (address : option jsstring) (claimed joined : gset jsstring)
    (result : list Hooks.BountyData) :
  BountiesPage.filteredBounties lower bounties searchQuery ownerFilter statusFilter
    sortFilter address claimed joined = Normal result →
  (∀ b, b ∈ result
        ↔ b ∈ bounties
          ∧ SpecX.selected lower searchQuery ownerFilter statusFilter address
              claimed joined b)
  ∧ ∃ kept, kept `sublist_of` bounties ∧ result ≡ₚ kept
            ∧ (sortFilter = BountiesPage.New → result = kept).
Proof.
  intros Hrun.
  destruct (filteredBounties_kept _ _ _ _ _ _ _ _ _ _ Hrun)
    as (kept & _ & -> & Hsub & Hkept).
  assert (Hperm : match sortFilter with
                  | BountiesPage.Top =>
                      JsArray.sort BountiesPage.by_totalStaked kept
                  | BountiesPage.Trending =>
                      JsArray.sort BountiesPage.by_claimsCount kept
                  | BountiesPage.New => kept
                  end ≡ₚ kept).
  { destruct sortFilter; [apply sort_perm..|done]. }
  split.
  - intros b. by rewrite Hperm.
  - exists kept. split_and!; [done|done|]. by intros ->.
Qed.

Lemma filteredBounties_selects_witness :
  (∀ b, b ∈ [Example.open_bounty "0xb2" "0x02" "ipfs://QmA" true 7]
        ↔ b ∈ Example.twin_batch
          ∧ SpecX.selected JS.toLowerCase [] BountiesPage.Created None
              (Some (u16 "0x02")) ∅ ∅ b)
  ∧ ∃ kept, kept `sublist_of` Example.twin_batch
            ∧ [Example.open_bounty "0xb2" "0x02" "ipfs://QmA" true 7] ≡ₚ kept
            ∧ (BountiesPage.Top = BountiesPage.New →
               [Example.open_bounty "0xb2" "0x02" "ipfs://QmA" true 7] = kept).
Proof.
  apply (filteredBounties_selects JS.toLowerCase Example.twin_batch []
           BountiesPage.Created None BountiesPage.Top (Some (u16 "0x02")) ∅ ∅).
  vm_compute. reflexivity.
Defined.

(** X17: the sorts "top" and "trending" put the shown bounties in
    descending order of total stake and of claim count, and keep bounties
    with equal keys in the order the unsorted list ("new") shows them. *)
Theorem filteredBounties_sorted_stably
    (lower : jsstring → jsstring) (bounties : list Hooks.BountyData)
    (searchQuery : jsstring) (ownerFilter : BountiesPage.OwnerFilter)
    (statusFilter : option Z) (sortFilter : BountiesPage.SortFilter)
    (address : option jsstring) (claimed joined : gset jsstring)
    (result : list Hooks.BountyData) :
  BountiesPage.filteredBounties lower bounties searchQuery ownerFilter statusFilter
    sortFilter address claimed joined = Normal result →
  ∃ unsorted,
    BountiesPage.filteredBounties lower bounties searchQuery ownerFilter statusFilter
      BountiesPage.New address claimed joined = Normal unsorted
    ∧ (sortFilter = BountiesPage.Top →
       SpecX.descending Hooks.totalStaked result
       ∧ ∀ k, SpecX.with_key Hooks.totalStaked k result
              = SpecX.with_key Hooks.totalStaked k unsorted)
    ∧ (sortFilter = BountiesPage.Trending →
       SpecX.descending Hooks.claimsCount result
       ∧ ∀ k, SpecX.with_key Hooks.claimsCount k result
              = SpecX.with_key Hooks.claimsCount k unsorted).
Proof.
  intros Hrun.
  destruct (filteredBounties_kept _ _ _ _ _ _ _ _ _ _ Hrun)
    as (kept & Hnew & -> & _ & _).
  exists kept. split_and!; [done| |]; intros ->; split.
  - apply sort_descending, by_totalStaked_key.
  - intros k. apply sort_with_key, by_totalStaked_key.
  - apply sort_descending, by_claimsCount_key.
  - intros k. apply sort_with_key, by_claimsCount_key.
Qed.

Lemma filteredBounties_sorted_stably_witness :
  ∃ unsorted,
    BountiesPage.filteredBounties JS.toLowerCase Example.twin_batch []
      BountiesPage.OwnerAll None BountiesPage.New None ∅ ∅ = Normal unsorted
    ∧ (BountiesPage.Top = BountiesPage.Top →
       SpecX.descending Hooks.totalStaked
         [ Example.open_bounty "0xb2" "0x02" "ipfs://QmA" true 7;
           Example.open_bounty "0xa1" "0x01" "ipfs://QmA" true 5 ]
       ∧ ∀ k, SpecX.with_key Hooks.totalStaked k
                [ Example.open_bounty "0xb2" "0x02" "ipfs://QmA" true 7;
                  Example.open_bounty "0xa1" "0x01" "ipfs://QmA" true 5 ]
              = SpecX.with_key Hooks.totalStaked k unsorted)
    ∧ (BountiesPage.Top = BountiesPage.Trending →
       SpecX.descending Hooks.claimsCount
         [ Example.open_bounty "0xb2" "0x02" "ipfs://QmA" true 7;
           Example.open_bounty "0xa1" "0x01" "ipfs://QmA" true 5 ]
       ∧ ∀ k, SpecX.with_key Hooks.claimsCount k
                [ Example.open_bounty "0xb2" "0x02" "ipfs://QmA" true 7;
                  Example.open_bounty "0xa1" "0x01" "ipfs://QmA" true 5 ]
              = SpecX.with_key Hooks.claimsCount k unsorted).
Proof.
  apply (filteredBounties_sorted_stably JS.toLowerCase Example.twin_batch []
           BountiesPage.OwnerAll None BountiesPage.Top None ∅ ∅).
  vm_compute. reflexivity.
Defined.

(** X18: on live data the owner filter "joined" shows no bounty to a
    connected address, whatever the chain holds, since the live branch of
    [useUserJoinedBounties] is the empty set; and without a connected
    address the owner filters are not applied at all: "created", "joined"
    and "claimed" show what "all" shows.  With a blank search query the memo
    never throws. *)
Theorem owner_filters_on_live_data
    (DEMO_USER_ADDRESS : jsstring) (MOCK_CLAIMS : jsstring → list Hooks.ClaimData)
    (MOCK_FUNDERS : jsstring → list (jsstring * Z)) (lower : jsstring → jsstring)
    (bounties : list Hooks.BountyData) (claimsData : option (list Hooks.read_result))
    (searchQuery : jsstring) (statusFilter : option Z)
    (sortFilter : BountiesPage.SortFilter) :
  let page := BountiesPage.page false DEMO_USER_ADDRESS MOCK_CLAIMS MOCK_FUNDERS lower
                bounties claimsData in
  (∀ a result, a ≠ [] →
     page (Some a) searchQuery BountiesPage.Joined statusFilter sortFilter
     = Normal result →
     result = [])
  ∧ (∀ ownerFilter,
       page None searchQuery ownerFilter statusFilter sortFilter
       = page None searchQuery BountiesPage.OwnerAll statusFilter sortFilter)
  ∧ (∀ walletAddress ownerFilter,
       Spec.blank searchQuery →
       ∃ result, page walletAddress searchQuery ownerFilter statusFilter sortFilter
                 = Normal result).
Proof.
  cbv zeta. split_and!.
  - intros a result Hne Hrun. unfold BountiesPage.page in Hrun.
    apply filteredBounties_selects in Hrun as [Hsel _].
    destruct result as [|b result]; [done|]. exfalso.
    destruct (proj1 (Hsel b)) as (_ & _ & _ & Howner); [by left|].
    destruct (Howner a eq_refl Hne) as (_ & Hj & _).
    specialize (Hj eq_refl). unfold UserJoined.useUserJoinedBounties in Hj.
    cbn in Hj. set_solver.
  - intros ownerFilter. unfold BountiesPage.page, BountiesPage.filteredBounties.
    by destruct ownerFilter.
  - intros walletAddress ownerFilter Hb%trim_blank.
    unfold BountiesPage.page, BountiesPage.filteredBounties. rewrite Hb.
    cbn [JS.truthy_str]. by eexists.
Qed.

Lemma search_hit_textual lower query b :
  SpecX.textual (SpecX.text_field b "title") →
  SpecX.textual (SpecX.text_field b "description") →
  ∃ h, BountiesPage.search_hit lower query b = Normal h.
Proof.
  unfold SpecX.textual, SpecX.text_field, BountiesPage.search_hit,
    BountiesPage.field_includes.
  destruct (Hooks.metadata b) as [[| | | | |fields]|]; try (intros _ _; by eexists).
  destruct (snd <$> find (λ kv, bool_decide (kv.1 = u16 "title")) fields)
    as [[| | |t| |]|]; try done;
    destruct (snd <$> find (λ kv, bool_decide (kv.1 = u16 "description")) fields)
      as [[| | |d| |]|]; try done; intros _ _;
    repeat match goal with
           | |- context [if ?c then _ else _] => destruct c
           | |- context [match ?c with true => _ | false => _ end] => destruct c
           end; by eexists.
Qed.

Lemma filter_search_throws lower query l b e :
  b ∈ l → BountiesPage.search_hit lower query b = Throw e →
  ∃ e', BountiesPage.filter_search lower query l = Throw e'.
Proof.
  induction l as [|x l IH]; [by intros ?%elem_of_nil|].
  intros [->|Hin]%elem_of_cons Hb; cbn.
  - rewrite Hb. by eexists.
  - destruct (BountiesPage.search_hit lower query x); [|by eexists].
    destruct (IH Hin Hb) as [e' ->]. by eexists.
Qed.

Lemma filter_search_completes lower query l :
  (∀ b, b ∈ l → ∃ h, BountiesPage.search_hit lower query b = Normal h) →
  ∃ r, BountiesPage.filter_search lower query l = Normal r.
Proof.
  induction l as [|x l IH]; intros Hall; cbn; [by eexists|].
  destruct (Hall x) as [h ->]; [by left|].
  destruct IH as [r ->]; [intros b Hb; apply Hall; by right|]. by eexists.
Qed.

(** X19: the memo of the list of bounties throws only on metadata it cannot
    read text from.  When the title and the description of every bounty are
    absent, [null] or strings, it completes for every query and filter.  But
    a single bounty whose metadata carries a title that is present and is
    neither [null] nor a string (a number, say) makes every search with a
    query that is not blank throw, whatever the other bounties and filters
    are. *)
Theorem search_throws_only_on_unreadable_text
    (lower : jsstring → jsstring) (bounties : list Hooks.BountyData)
    (searchQuery : jsstring) (ownerFilter : BountiesPage.OwnerFilter)
    (statusFilter : option Z) (sortFilter : BountiesPage.SortFilter)
    (address : option jsstring) (claimed joined : gset jsstring) :
  let memo := BountiesPage.filteredBounties lower bounties searchQuery ownerFilter
                statusFilter sortFilter address claimed joined in
  ((∀ b, b ∈ bounties →
      SpecX.textual (SpecX.text_field b "title")
      ∧ SpecX.textual (SpecX.text_field b "description")) →
   ∃ result, memo = Normal result)
  ∧ (∀ b, b ∈ bounties → ¬ Spec.blank searchQuery →
       ¬ SpecX.textual (SpecX.text_field b "title") →
       ∃ e, memo = Throw e).
Proof.
  cbv zeta. unfold BountiesPage.filteredBounties. split.
  - intros Hall.
    destruct (JS.truthy_str (JS.trim searchQuery)); [|by eexists].
    destruct (filter_search_completes lower (lower searchQuery) bounties) as [r ->];
      [|by eexists].
    intros b Hb. destruct (Hall b Hb). by apply search_hit_textual.
  - intros b Hb Hnb Htitle.
    assert (Hq : JS.truthy_str (JS.trim searchQuery) = true).
    { destruct (JS.trim searchQuery) eqn:Ht; [|done]. by apply trim_blank in Ht. }
    rewrite Hq.
    assert (Hthrow : ∃ e, BountiesPage.search_hit lower (lower searchQuery) b = Throw e).
    { unfold SpecX.textual, SpecX.text_field in Htitle.
      unfold BountiesPage.search_hit, BountiesPage.field_includes.
      destruct (Hooks.metadata b) as [[| | | | |fields]|]; try done.
      destruct (snd <$> find (λ kv, bool_decide (kv.1 = u16 "title")) fields)
        as [[| | |t| |]|]; try done; by eexists. }
    destruct Hthrow as [e He].
    destruct (filter_search_throws _ _ _ _ _ Hb He) as [e' ->]. by eexists.
Qed.

(** ** The activity feed *)









(** ** The tags of a bounty card *)

Lemma card_isIssuer_page (p : BountyCard.props) (v : BountyPage.view) :
  BountyPage.bounty v = Some (BountyCard.bounty p) →
  BountyPage.user v = BountyCard.userAddress p →
  BountyPage.isIssuer v = BountyCard.isIssuer p.
Proof.
  intros Hb Hu. unfold BountyPage.isIssuer, BountyCard.isIssuer. rewrite Hb, Hu.
  by destruct (BountyCard.userAddress p) as [[|c a]|].
Qed.

(** X21: the tags of a bounty card are none, exactly one of "Vote",
    "Withdraw", "Select", "Join", "Claim", or the pair "Join", "Claim";
    without a user address there are none.  The tags "Claim" and "Join"
    agree with what the bounty page
    offers the same user for the same bounty once it is loaded with no form
    open: with "Claim" the page renders a "Submit Claim" button, and with
    "Join" it renders "Join" or, for a user who already holds stake,
    "Withdraw".  The issuer is never shown "Join" or "Claim". *)
Theorem card_tags_match_page (p : BountyCard.props) :
  let tags := BountyCard.getActionTags p in
  (Hooks.truthy_addr (BountyCard.userAddress p) = false → tags = [])
  ∧ tags ∈ [ []; [BountyCard.Vote]; [BountyCard.Withdraw]; [BountyCard.Select];
             [BountyCard.Join]; [BountyCard.Claim];
             [BountyCard.Join; BountyCard.Claim] ]
  ∧ (BountyCard.isIssuer p = true →
     (BountyCard.Join ∉ tags) ∧ (BountyCard.Claim ∉ tags))
  ∧ ∀ (v : BountyPage.view) (fm : BountyActions.forms),
      BountyPage.bounty v = Some (BountyCard.bounty p) →
      BountyPage.user v = BountyCard.userAddress p →
      BountyPage.isLoading v = false →
      BountyActions.showJoinForm fm = false →
      BountyActions.showClaimForm fm = false →
      (BountyCard.Claim ∈ tags → BountyActions.claim_offered v fm = true)
      ∧ (BountyCard.Join ∈ tags →
         BountyActions.join_offered v fm = true
         ∨ BountyActions.withdraw_offered v fm = true).
Proof.
  cbv zeta. unfold BountyCard.getActionTags, BountyCard.hasStake.
  split_and!.
  - intros Hu. unfold BountyCard.hasJoined, BountyCard.hasClaimed, BountyCard.has,
      BountyCard.isIssuer.
    rewrite Hu. cbn [andb orb negb]. rewrite ?andb_false_r. cbn [andb app]. done.
  - repeat match goal with
           | |- context [if ?c then _ else _] => destruct c
           end; cbn [app];
      repeat (apply elem_of_cons; first [left; reflexivity | right]).
  - intros Hi. rewrite Hi. cbn [negb orb andb]. rewrite ?andb_false_r.
    cbn [andb app].
    repeat match goal with
           | |- context [if ?c then _ else _] => destruct c
           end; split; intros Hin;
      repeat (apply elem_of_cons in Hin as [Hin|Hin]; [discriminate Hin|]);
      by apply elem_of_nil in Hin.
  - intros v fm Hb Hu Hl Hjf Hcf.
    pose proof (card_isIssuer_page p v Hb Hu) as Hi.
    unfold BountyActions.claim_offered, BountyActions.join_offered,
      BountyActions.withdraw_offered, BountyActions.openActions.
    rewrite Hl, Hb, Hjf, Hcf, Hi.
    destruct (bool_decide (Hooks.state (BountyCard.bounty p) = BountyState.OPEN))
      eqn:Ho.
    2: { cbn [andb app].
         repeat match goal with
                | |- context [if ?c then _ else _] => destruct c
                end; split; intros Hin;
           repeat (apply elem_of_cons in Hin as [Hin|Hin]; [discriminate Hin|]);
           by apply elem_of_nil in Hin. }
    apply bool_decide_eq_true in Ho.
    assert (Hv : bool_decide (Hooks.state (BountyCard.bounty p) = BountyState.VOTING)
                 = false) by (apply bool_decide_eq_false; rewrite Ho; done).
    assert (Hc : bool_decide (Hooks.state (BountyCard.bounty p) = BountyState.CANCELLED)
                 = false) by (apply bool_decide_eq_false; rewrite Ho; done).
    rewrite Hv, Hc. cbn [andb].
    destruct (BountyCard.isIssuer p) eqn:Hiss; cbn [andb negb orb].
    { rewrite ?andb_false_r. cbn [andb app].
      destruct (0 <? Hooks.claimsCount (BountyCard.bounty p)); split; intros Hin;
        repeat (apply elem_of_cons in Hin as [Hin|Hin]; [discriminate Hin|]);
        by apply elem_of_nil in Hin. }
    destruct (Hooks.joinable (BountyCard.bounty p)) eqn:Hj; cbn [andb].
    + split.
      * intros _. by destruct (BountyPage.hasStake v).
      * intros _. destruct (BountyPage.hasStake v); [right|left]; done.
    + split; [done|]. cbn [app]. intros Hin.
      repeat match type of Hin with
             | context [if ?c then _ else _] => destruct c
             end;
        repeat (apply elem_of_cons in Hin as [Hin|Hin]; [discriminate Hin|]);
        by apply elem_of_nil in Hin.
Qed.

(** ** The two displays of an activity's age *)

(** X22: the home page and the feed item print the same age.  Below one
    minute they print "just now" and "now"; from one minute up to one week
    the home page prints what the feed item prints, followed by " ago"; from
    one week on the home page prints the whole days and the feed item the
    whole weeks of the same age. *)
Theorem timeAgo_displays_agree (now timestamp : Z) :
  let age := TimeAgo.seconds now timestamp in
  (age < 60 →
   TimeAgo.home now timestamp = u16 "just now"
   ∧ TimeAgo.item now timestamp = u16 "now")
  ∧ (60 ≤ age < 604800 →
     TimeAgo.home now timestamp = TimeAgo.item now timestamp ++ u16 " ago")
  ∧ (604800 ≤ age →
     ∃ days, days = age / 86400 ∧ 7 ≤ days
       ∧ TimeAgo.home now timestamp = UploadRoute.decimal days ++ u16 "d ago"
       ∧ TimeAgo.item now timestamp = UploadRoute.decimal (days / 7) ++ u16 "w").
Proof.
  cbv zeta. unfold TimeAgo.home, TimeAgo.item.
  set (s := TimeAgo.seconds now timestamp).
  assert (Hh : s / 60 / 60 = s / 3600) by (rewrite Z.div_div by lia; done).
  assert (Hd : s / 3600 / 24 = s / 86400) by (rewrite Z.div_div by lia; done).
  assert (Hw : s / 86400 / 7 = s / 604800) by (rewrite Z.div_div by lia; done).
  split_and!.
  - intros Hs. destruct (Z.ltb_spec s 60); [done|lia].
  - intros [Hlo Hhi]. destruct (Z.ltb_spec s 60); [lia|].
    rewrite Hh.
    destruct (Z.ltb_spec (s / 60) 60), (Z.ltb_spec s 3600);
      try (exfalso; Z.to_euclidean_division_equations; lia).
    { by rewrite <- !app_assoc. }
    destruct (Z.ltb_spec (s / 3600) 24), (Z.ltb_spec s 86400);
      try (exfalso; Z.to_euclidean_division_equations; lia).
    { by rewrite <- !app_assoc. }
    destruct (Z.ltb_spec s 604800); [|lia].
    rewrite Hd. by rewrite <- !app_assoc.
  - intros Hs. exists (s / 86400).
    destruct (Z.ltb_spec s 60); [lia|].
    destruct (Z.ltb_spec (s / 60) 60);
      [exfalso; Z.to_euclidean_division_equations; lia|].
    rewrite Hh.
    destruct (Z.ltb_spec (s / 3600) 24);
      [exfalso; Z.to_euclidean_division_equations; lia|].
    destruct (Z.ltb_spec s 3600); [lia|].
    destruct (Z.ltb_spec s 86400); [lia|].
    destruct (Z.ltb_spec s 604800); [lia|].
    rewrite Hd, Hw. split_and!; try done.
    Z.to_euclidean_division_equations; lia.
Qed.
